(** * EffectivePython notebooks: a shallow embedding of the example cells

    Each notebook of the repository is a flat sequence of code cells.  The
    cells are embedded one module per notebook: Python integers are [Z],
    floats are IEEE binary64 values ([spec_float] with [prec = 53] and
    [emax = 1024]), [str] is [string], dictionaries are [gmap string _],
    objects that are mutated through several names live in an explicit
    heap, and a statement that may raise returns a [Res]. *)

From Stdlib Require Import ZArith List String Ascii Bool Lia.
From Stdlib Require Import Floats.SpecFloat Sorting.Sorted.
From stdpp Require Import gmap strings list.

Import ListNotations.
Local Open Scope string_scope.
Local Open Scope list_scope.
Local Open Scope Z_scope.

(** ** Python: exceptions and results *)

Module Py.

(** The exception classes that occur in the notebooks: the builtin ones
    and the classes the cells of v51 define. *)
Inductive exn_class :=
| BaseException | Exception_
| ArithmeticError | OverflowError | ZeroDivisionError
| AssertionError | AttributeError | NameError
| LookupError | KeyError | IndexError
| PickleError | PicklingError | UnpicklingError
| TypeError | ValueError | JSONDecodeError
| OSError | FileNotFoundError | StopIteration
| Error | InvalidDensityError | NegativeDensityError
| WeightError | VolumeError | DensityError.

Definition exn_class_eqb (a b : exn_class) : bool :=
  match a, b with
  | BaseException, BaseException | Exception_, Exception_
  | ArithmeticError, ArithmeticError | OverflowError, OverflowError
  | ZeroDivisionError, ZeroDivisionError | AssertionError, AssertionError
  | AttributeError, AttributeError | NameError, NameError
  | LookupError, LookupError | KeyError, KeyError
  | IndexError, IndexError | PickleError, PickleError
  | PicklingError, PicklingError | UnpicklingError, UnpicklingError
  | TypeError, TypeError | ValueError, ValueError
  | JSONDecodeError, JSONDecodeError | OSError, OSError
  | FileNotFoundError, FileNotFoundError | StopIteration, StopIteration
  | Error, Error | InvalidDensityError, InvalidDensityError
  | NegativeDensityError, NegativeDensityError
  | WeightError, WeightError | VolumeError, VolumeError
  | DensityError, DensityError => true
  | _, _ => false
  end.

(** [class C(B)]: the direct base class. *)
Definition base (c : exn_class) : option exn_class :=
  match c with
  | BaseException => None
  | Exception_ => Some BaseException
  | ArithmeticError => Some Exception_
  | OverflowError => Some ArithmeticError
  | ZeroDivisionError => Some ArithmeticError
  | AssertionError => Some Exception_
  | AttributeError => Some Exception_
  | NameError => Some Exception_
  | LookupError => Some Exception_
  | KeyError => Some LookupError
  | IndexError => Some LookupError
  | PickleError => Some Exception_
  | PicklingError => Some PickleError
  | UnpicklingError => Some PickleError
  | TypeError => Some Exception_
  | ValueError => Some Exception_
  | JSONDecodeError => Some ValueError
  | OSError => Some Exception_
  | FileNotFoundError => Some OSError
  | StopIteration => Some Exception_
  | Error => Some Exception_
  | InvalidDensityError => Some Error
  | NegativeDensityError => Some InvalidDensityError
  | WeightError => Some Error
  | VolumeError => Some Error
  | DensityError => Some Error
  end.

(** [issubclass c d], by walking the chain of base classes (no chain is
    longer than five classes). *)
Fixpoint issubclass_fuel (n : nat) (c d : exn_class) : bool :=
  exn_class_eqb c d ||
  match n with
  | O => false
  | S n' => match base c with
            | Some b => issubclass_fuel n' b d
            | None => false
            end
  end.

Definition issubclass (c d : exn_class) : bool := issubclass_fuel 5 c d.

(** The outcome of a statement or a call. *)
Inductive Res (A : Type) :=
| Ok (a : A)
| Raise (e : exn_class).
Arguments Ok {A} a.
Arguments Raise {A} e.

Definition bind {A B} (r : Res A) (k : A -> Res B) : Res B :=
  match r with
  | Ok a => k a
  | Raise e => Raise e
  end.

(** [assert c] *)
Definition assert_ (c : bool) : Res unit :=
  if c then Ok tt else Raise AssertionError.

(** An [except C:] clause matches an exception that is an instance of [C];
    the first matching clause of a [try] handles it. *)
Fixpoint first_handler {A} (hs : list (exn_class * A)) (e : exn_class)
  : option A :=
  match hs with
  | [] => None
  | (c, h) :: hs' => if issubclass e c then Some h else first_handler hs' e
  end.

(** [try: body / except C1: h1 / ... / else: els]: without exception the
    [else] block runs; otherwise the first matching handler does. *)
Definition try_except_else {A B} (body : Res A)
    (handlers : list (exn_class * (exn_class -> Res B)))
    (els : A -> Res B) : Res B :=
  match body with
  | Ok a => els a
  | Raise e => match first_handler handlers e with
               | Some h => h e
               | None => Raise e
               end
  end.

(** The line feed *)
Definition nl : string := String (Ascii.ascii_of_nat 10) EmptyString.

(** The truth value of a [str]: empty strings are false. *)
Definition str_truthy (s : string) : bool :=
  match s with
  | EmptyString => false
  | String _ _ => true
  end.

Fixpoint enumerate_from {A} (start : Z) (l : list A) : list (Z * A) :=
  match l with
  | [] => []
  | x :: l' => (start, x) :: enumerate_from (start + 1) l'
  end.

(** [l.append(x)] *)
Definition append {A} (l : list A) (x : A) : list A := (l ++ [x])%list.

(** [enumerate(l)] *)
Definition enumerate {A} (l : list A) : list (Z * A) := enumerate_from 0 l.

(** *** Values

    Integers are unbounded, floats are binary64.  Objects that are
    mutated through several names (dictionaries, instances) live in a heap
    and are referred to by [VRef]. *)
Definition float := spec_float.
Definition prec : Z := 53.
Definition emax : Z := 1024.

Definition loc := positive.

#[local] Unset Elimination Schemes.
Inductive value :=
| VNone
| VBool (b : bool)
| VInt (n : Z)
| VFloat (x : float)
| VStr (s : string)
| VBytes (b : string)
| VList (l : list value)  (* a list or tuple whose identity plays no role *)
| VRef (l : loc).
#[local] Set Elimination Schemes.

(** [float('inf')] *)
Definition inf : float := S754_infinity false.

(** The float nearest to the integer [n] (ties to even), as the
    conversion of an [int] operand does it; integers beyond the range of
    binary64 raise OverflowError. *)
Definition int_to_float (n : Z) : Res float :=
  match binary_normalize prec emax n 0 false with
  | S754_infinity _ => Raise OverflowError
  | x => Ok x
  end.

Definition float_is_zero (x : float) : bool :=
  match x with
  | S754_zero _ => true
  | _ => false
  end.

(** [a / b] on two floats *)
Definition float_truediv (a b : float) : Res float :=
  if float_is_zero b then Raise ZeroDivisionError
  else Ok (SFdiv prec emax a b).

(** An integer as a sign and a magnitude with exponent 0 *)
Definition int_exact (n : Z) : float :=
  match n with
  | Z0 => S754_zero false
  | Zpos m => S754_finite false m 0
  | Zneg m => S754_finite true m 0
  end.

(** [a / b] on two ints: the correctly rounded quotient; a zero divisor
    is checked first, a quotient beyond the range of binary64 raises
    OverflowError. *)
Definition int_truediv (a b : Z) : Res float :=
  if b =? 0 then Raise ZeroDivisionError
  else if a =? 0 then Ok (S754_zero (b <? 0))
  else match SFdiv prec emax (int_exact a) (int_exact b) with
       | S754_infinity _ => Raise OverflowError
       | x => Ok x
       end.

Definition bool_to_int (b : bool) : Z := if b then 1 else 0.

(** The numeric operand of an arithmetic operator ([bool] is a subclass
    of [int]). *)
Inductive number :=
| NInt (n : Z)
| NFloat (x : float).

Definition as_number (v : value) : option number :=
  match v with
  | VBool b => Some (NInt (bool_to_int b))
  | VInt n => Some (NInt n)
  | VFloat x => Some (NFloat x)
  | _ => None
  end.

Definition number_to_float (a : number) : Res float :=
  match a with
  | NInt n => int_to_float n
  | NFloat x => Ok x
  end.

(** [a / b]: two ints divide as ints; otherwise the left operand, then
    the right operand is converted to float, then a zero divisor is
    checked. Operands that are not numbers raise TypeError. *)
Definition truediv (a b : value) : Res value :=
  match as_number a, as_number b with
  | Some (NInt m), Some (NInt n) =>
      bind (int_truediv m n) (fun x => Ok (VFloat x))
  | Some x, Some y =>
      bind (number_to_float x) (fun fx =>
      bind (number_to_float y) (fun fy =>
      bind (float_truediv fx fy) (fun q => Ok (VFloat q))))
  | _, _ => Raise TypeError
  end.

(** Exact comparison of a float with an int *)
Definition float_eq_int (x : float) (n : Z) : bool :=
  match x with
  | S754_zero _ => n =? 0
  | S754_finite s m e =>
      let sm := if s then Zneg m else Zpos m in
      if 0 <=? e then n =? sm * 2 ^ e else n * 2 ^ (- e) =? sm
  | _ => false
  end.

Definition number_eqb (a b : number) : bool :=
  match a, b with
  | NInt m, NInt n => m =? n
  | NFloat x, NFloat y => SFeqb x y
  | NFloat x, NInt n | NInt n, NFloat x => float_eq_int x n
  end.

(** [a == b] *)
Definition py_eq (a b : value) : bool :=
  match as_number a, as_number b with
  | Some x, Some y => number_eqb x y
  | _, _ =>
      match a, b with
      | VNone, VNone => true
      | VStr s, VStr t => String.eqb s t
      | VBytes s, VBytes t => String.eqb s t
      | VRef l, VRef k => Pos.eqb l k
      | _, _ => false
      end
  end.

(** The truth value of an object in [if] *)
Definition truthy (v : value) : bool :=
  match v with
  | VNone => false
  | VBool b => b
  | VInt n => negb (n =? 0)
  | VFloat x => negb (float_is_zero x)
  | VStr s => str_truthy s
  | VBytes b => str_truthy b
  | VList l => match l with [] => false | _ => true end
  | VRef _ => true
  end.

(** The interpreter keeps one object for each integer from -5 to 256. *)
Definition small_int (n : Z) : bool := (-5 <=? n) && (n <=? 256).

(** [a is b], where the values decide it: [None], the two booleans and
    the small integers are single objects, a reference is an object's
    identity, and objects of different types are different.  For two
    equal floats, strings or large integers the answer depends on how
    the objects were made ([None] here). *)
Definition py_is (a b : value) : option bool :=
  match a, b with
  | VNone, VNone => Some true
  | VBool x, VBool y => Some (Bool.eqb x y)
  | VInt m, VInt n =>
      if negb (m =? n) then Some false
      else if small_int m then Some true else None
  | VRef l, VRef k => Some (Pos.eqb l k)
  | VFloat _, VFloat _ | VStr _, VStr _ | VBytes _, VBytes _
  | VList _, VList _ => None
  | _, _ => Some false
  end.

(** [assert a is b]; where the values do not decide the identity the
    assert is counted as failing. *)
Definition assert_is (a b : value) : Res unit :=
  match py_is a b with
  | Some true => Ok tt
  | _ => Raise AssertionError
  end.

(** A float literal with decimal point, [digits] being its digits read
    as an integer and [frac] the number of digits after the point: the
    float nearest to [digits / 10 ^ frac]. *)
Definition float_literal (digits : Z) (frac : Z) : float :=
  match digits with
  | Z0 => S754_zero false
  | _ => SFdiv prec emax (int_exact digits) (int_exact (10 ^ frac))
  end.

(** *** The heap

    Objects with identity: dictionaries, lists, instances (the number of
    the class statement that made their class, and their [__dict__]) and
    bare [object()]s. *)
Inductive object :=
| ODict (d : gmap string value)
| OList (l : list value)
| OInstance (cls : nat) (d : gmap string value)
| OBare.

Record heap := {
  objects : gmap loc object;
  next_loc : loc
}.

Definition empty_heap : heap := {| objects := ∅; next_loc := 1%positive |}.

(** A new object gets the next free location. *)
Definition alloc (o : object) (h : heap) : loc * heap :=
  (next_loc h,
   {| objects := <[next_loc h := o]> (objects h);
      next_loc := Pos.succ (next_loc h) |}).

Definition store (l : loc) (o : object) (h : heap) : heap :=
  {| objects := <[l := o]> (objects h); next_loc := next_loc h |}.

(** Every object sits below the next free location. *)
Definition heap_wf (h : heap) : Prop :=
  forall l, is_Some (objects h !! l) -> (l < next_loc h)%positive.

(** What [logging.error] and [logging.exception] write: the message
    and, for [logging.exception], the class of the exception being
    handled. *)
Record log_record := {
  message : string;
  exc_info : option exn_class
}.

(** *** Calls: binding arguments to parameters *)

(** A parameter of a [def]: its name, its default if it has one, and
    whether it stands after the [*] of the signature. *)
Record param := {
  p_name : string;
  p_default : option value;
  p_kwonly : bool
}.

Abbreviation env := (gmap string value).

(** Positional arguments fill the parameters before the [*] from the
    left; one argument too many raises TypeError. *)
Fixpoint bind_positional (ps : list param) (args : list value) (e : env)
  : Res env :=
  match args with
  | [] => Ok e
  | a :: args' =>
      match ps with
      | [] => Raise TypeError
      | p :: ps' =>
          if p_kwonly p then Raise TypeError
          else bind_positional ps' args' (<[p_name p := a]> e)
      end
  end.

Definition has_param (ps : list param) (k : string) : bool :=
  existsb (fun p => String.eqb (p_name p) k) ps.

(** Keyword arguments: an unknown name, or a name already bound by a
    positional argument, raises TypeError. *)
Fixpoint bind_keywords (ps : list param) (kwargs : list (string * value))
    (e : env) : Res env :=
  match kwargs with
  | [] => Ok e
  | (k, v) :: kwargs' =>
      if negb (has_param ps k) then Raise TypeError
      else match e !! k with
           | Some _ => Raise TypeError
           | None => bind_keywords ps kwargs' (<[k := v]> e)
           end
  end.

(** Parameters left unbound take their default; a parameter without
    default raises TypeError. *)
Fixpoint bind_defaults (ps : list param) (e : env) : Res env :=
  match ps with
  | [] => Ok e
  | p :: ps' =>
      match e !! p_name p with
      | Some _ => bind_defaults ps' e
      | None =>
          match p_default p with
          | Some d => bind_defaults ps' (<[p_name p := d]> e)
          | None => Raise TypeError
          end
      end
  end.

Definition bind_arguments (ps : list param) (args : list value)
    (kwargs : list (string * value)) : Res env :=
  bind (bind_positional ps args ∅) (fun e =>
  bind (bind_keywords ps kwargs e) (fun e =>
  bind_defaults ps e)).

(** The value of a bound parameter *)
Definition arg (e : env) (name : string) : value :=
  match e !! name with
  | Some v => v
  | None => VNone
  end.

Definition required (name : string) : param :=
  {| p_name := name; p_default := None; p_kwonly := false |}.
Definition optional (name : string) (d : value) : param :=
  {| p_name := name; p_default := Some d; p_kwonly := false |}.
Definition keyword_only (name : string) (d : value) : param :=
  {| p_name := name; p_default := Some d; p_kwonly := true |}.

(** *** Statements

    A statement runs on a mutable state [S] (the variables and objects of
    the cell).  Objects are mutated in place, so the state reached is kept
    also when the statement raises. *)
Definition stmt (S A : Type) : Type := S -> Res A * S.

Definition ret {S A} (a : A) : stmt S A := fun s => (Ok a, s).

Definition raise {S A} (e : exn_class) : stmt S A := fun s => (Raise e, s).

Definition seq {S A C} (c : stmt S A) (k : A -> stmt S C) : stmt S C :=
  fun s => match c s with
           | (Ok a, s') => k a s'
           | (Raise e, s') => (Raise e, s')
           end.

Definition read {S A} (f : S -> A) : stmt S A := fun s => (Ok (f s), s).

Definition modify {S} (f : S -> S) : stmt S unit := fun s => (Ok tt, f s).

(** A computation without effect on the state, as a statement *)
Definition lift {S A} (r : Res A) : stmt S A := fun s => (r, s).

(** [assert c], as a statement *)
Definition assert_stmt {S} (c : bool) : stmt S unit := lift (assert_ c).

(** [try: body / except C1 as e: h1 / ...]: the first clause whose class
    the exception is an instance of handles it; the exception propagates
    when there is none. *)
Definition try_except {S A} (body : stmt S A)
    (handlers : list (exn_class * (exn_class -> stmt S A))) : stmt S A :=
  fun s => match body s with
           | (Ok a, s') => (Ok a, s')
           | (Raise e, s') =>
               match first_handler handlers e with
               | Some h => h e s'
               | None => (Raise e, s')
               end
           end.

(** [try: body / except ...: / else: els]: the [else] block runs when the
    body did not raise, outside the reach of the handlers. *)
Definition try_except_else_stmt {S A C} (body : stmt S A)
    (handlers : list (exn_class * (exn_class -> stmt S C)))
    (els : A -> stmt S C) : stmt S C :=
  fun s => match body s with
           | (Ok a, s') => els a s'
           | (Raise e, s') =>
               match first_handler handlers e with
               | Some h => h e s'
               | None => (Raise e, s')
               end
           end.

(** [try: body / finally: fin] *)
Definition try_finally {S A} (body : stmt S A) (fin : stmt S unit)
  : stmt S A :=
  fun s => match body s with
           | (r, s') => match fin s' with
                        | (Ok _, s'') => (r, s'')
                        | (Raise e, s'') => (Raise e, s'')
                        end
           end.

End Py.

Notation "x <- c ;; k" := (Py.seq c (fun x => k))
  (at level 100, c at next level, right associativity).
Notation "c ;;; k" := (Py.seq c (fun _ => k))
  (at level 100, right associativity).

(** ** The [json] module, as far as the notebooks use it

    [loads] covers the JSON grammar over one-byte characters; escapes
    with [u] and a code point are outside of it and reported as errors. *)

Module Json.
Import Py.

#[local] Unset Elimination Schemes.
Inductive json :=
| JNull
| JBool (b : bool)
| JInt (n : Z)
| JFloat (x : float)
| JStr (s : string)
| JList (l : list json)
| JDict (d : list (string * json)).
#[local] Set Elimination Schemes.

(** The double quote, and source text written with apostrophes in place
    of double quotes *)
Definition dquote : ascii := Ascii.ascii_of_nat 34.

Fixpoint quoted (s : string) : string :=
  match s with
  | EmptyString => EmptyString
  | String c s' =>
      String (if Ascii.eqb c "'" then dquote else c) (quoted s')
  end.

(** *** Tokens *)

Inductive token :=
| TLBrace | TRBrace | TLBracket | TRBracket | TComma | TColon
| TString (s : string)
| TAtom (s : string).

Inductive lexer :=
| LDefault
| LString (buf : string)
| LEscape (buf : string)
| LAtom (buf : string).

Definition code (c : ascii) : nat := Ascii.nat_of_ascii c.

Definition is_space (c : ascii) : bool :=
  let n := code c in
  Nat.eqb n 32 || Nat.eqb n 9 || Nat.eqb n 10 || Nat.eqb n 13.

Definition punctuation (c : ascii) : option token :=
  if Ascii.eqb c "{" then Some TLBrace
  else if Ascii.eqb c "}" then Some TRBrace
  else if Ascii.eqb c "[" then Some TLBracket
  else if Ascii.eqb c "]" then Some TRBracket
  else if Ascii.eqb c "," then Some TComma
  else if Ascii.eqb c ":" then Some TColon
  else None.

Definition snoc (s : string) (c : ascii) : string :=
  String.append s (String c EmptyString).

Definition escape (c : ascii) : option ascii :=
  if Ascii.eqb c dquote then Some dquote
  else if Ascii.eqb c "\" then Some "\"%char
  else if Ascii.eqb c "/" then Some "/"%char
  else if Ascii.eqb c "b" then Some (Ascii.ascii_of_nat 8)
  else if Ascii.eqb c "f" then Some (Ascii.ascii_of_nat 12)
  else if Ascii.eqb c "n" then Some (Ascii.ascii_of_nat 10)
  else if Ascii.eqb c "r" then Some (Ascii.ascii_of_nat 13)
  else if Ascii.eqb c "t" then Some (Ascii.ascii_of_nat 9)
  else None.

(** One character in the default state *)
Definition lex_default (c : ascii) : lexer * list token :=
  if is_space c then (LDefault, [])
  else if Ascii.eqb c dquote then (LString EmptyString, [])
  else match punctuation c with
       | Some t => (LDefault, [t])
       | None => (LAtom (String c EmptyString), [])
       end.

(** One character: the next state and the tokens completed, or [None]
    for a character that cannot stand there. *)
Definition lex_step (st : lexer) (c : ascii) : option (lexer * list token) :=
  match st with
  | LDefault => Some (lex_default c)
  | LString buf =>
      if Ascii.eqb c dquote then Some (LDefault, [TString buf])
      else if Ascii.eqb c "\" then Some (LEscape buf, [])
      else if Nat.ltb (code c) 32 then None
      else Some (LString (snoc buf c), [])
  | LEscape buf =>
      match escape c with
      | Some c' => Some (LString (snoc buf c'), [])
      | None => None
      end
  | LAtom buf =>
      if is_space c || Ascii.eqb c dquote
         || match punctuation c with Some _ => true | None => false end
      then let '(st', ts) := lex_default c in Some (st', TAtom buf :: ts)
      else Some (LAtom (snoc buf c), [])
  end.

Fixpoint lex (st : lexer) (s : string) : option (list token) :=
  match s with
  | EmptyString =>
      match st with
      | LDefault => Some []
      | LAtom buf => Some [TAtom buf]
      | LString _ | LEscape _ => None
      end
  | String c s' =>
      match lex_step st c with
      | Some (st', ts) => option_map (app ts) (lex st' s')
      | None => None
      end
  end.

(** *** Numbers *)

Definition is_digit (c : ascii) : bool :=
  Nat.leb 48 (code c) && Nat.leb (code c) 57.

Definition digit_value (c : ascii) : Z := Z.of_nat (code c) - 48.

(** The leading digits of [s], read as an integer, their count, and the
    rest of [s] *)
Fixpoint digits (s : string) (acc : Z) (count : Z) : Z * Z * string :=
  match s with
  | String c s' =>
      if is_digit c then digits s' (10 * acc + digit_value c) (count + 1)
      else (acc, count, s)
  | EmptyString => (acc, count, s)
  end.

Definition signed (negative : bool) (n : Z) : Z :=
  if negative then - n else n.

(** The float nearest to [digits * 10 ^ exponent] *)
Definition decimal_to_float (negative : bool) (digits exponent : Z) : float :=
  if digits =? 0 then S754_zero negative
  else if 0 <=? exponent
  then binary_normalize prec emax (signed negative (digits * 10 ^ exponent))
         0 false
  else SFdiv prec emax (int_exact (signed negative digits))
         (int_exact (10 ^ (- exponent))).

Definition leading_zero (s : string) (count : Z) : bool :=
  match s with
  | String c _ => Ascii.eqb c "0" && (1 <? count)
  | EmptyString => false
  end.

(** [-? int frac? exp?] *)
Definition number (s : string) : option json :=
  let '(negative, s) :=
    match s with
    | String "-" s' => (true, s')
    | _ => (false, s)
    end in
  let '(int_part, int_count, rest) := digits s 0 0 in
  if (int_count =? 0) || leading_zero s int_count then None
  else
    let '(mantissa, frac_count, rest, has_frac, frac_ok) :=
      match rest with
      | String "." rest' =>
          let '(m, count, rest'') := digits rest' int_part 0 in
          (m, count, rest'', true, 0 <? count)
      | _ => (int_part, 0, rest, false, true)
      end in
    let '(exponent, rest, has_exp, exp_ok) :=
      match rest with
      | String c rest' =>
          if Ascii.eqb c "e" || Ascii.eqb c "E" then
            let '(exp_negative, rest') :=
              match rest' with
              | String "-" r => (true, r)
              | String "+" r => (false, r)
              | _ => (false, rest')
              end in
            let '(e, count, rest'') := digits rest' 0 0 in
            (signed exp_negative e, rest'', true, 0 <? count)
          else (0, rest, false, true)
      | EmptyString => (0, rest, false, true)
      end in
    if negb frac_ok || negb exp_ok then None
    else match rest with
         | String _ _ => None
         | EmptyString =>
             if has_frac || has_exp
             then Some (JFloat (decimal_to_float negative mantissa
                                  (exponent - frac_count)))
             else Some (JInt (signed negative int_part))
         end.

(** What a token that is neither punctuation nor a string stands for *)
Definition atom (s : string) : option json :=
  if String.eqb s "null" then Some JNull
  else if String.eqb s "true" then Some (JBool true)
  else if String.eqb s "false" then Some (JBool false)
  else if String.eqb s "NaN" then Some (JFloat S754_nan)
  else if String.eqb s "Infinity" then Some (JFloat (S754_infinity false))
  else if String.eqb s "-Infinity" then Some (JFloat (S754_infinity true))
  else number s.

(** *** Values from tokens *)

(** A container that is being read: a list with its elements so far, or
    an object with its members so far and the key whose value is
    awaited. *)
Inductive frame :=
| FList (acc : list json)
| FDict (acc : list (string * json)) (key : option string).

Inductive phase :=
| PValue            (* a value must follow *)
| PValueOrEnd       (* after an opening bracket: a value or the end of the list *)
| PKeyOrEnd         (* after an opening brace: a key or the end of the object *)
| PKey              (* after a comma in an object *)
| PColon            (* after a key *)
| PAfter            (* after a value in a container *)
| PDone (v : json). (* after the outermost value *)

(** A value is complete: it goes into the innermost container. *)
Definition complete (v : json) (stack : list frame)
  : option (list frame * phase) :=
  match stack with
  | [] => Some ([], PDone v)
  | FList acc :: stack' => Some (FList (append acc v) :: stack', PAfter)
  | FDict acc (Some k) :: stack' =>
      Some (FDict (append acc (k, v)) None :: stack', PAfter)
  | FDict _ None :: _ => None
  end.

Definition start_value (t : token) (stack : list frame)
  : option (list frame * phase) :=
  match t with
  | TLBrace => Some (FDict [] None :: stack, PKeyOrEnd)
  | TLBracket => Some (FList [] :: stack, PValueOrEnd)
  | TString s => complete (JStr s) stack
  | TAtom a => match atom a with
               | Some v => complete v stack
               | None => None
               end
  | _ => None
  end.

Definition start_key (t : token) (stack : list frame)
  : option (list frame * phase) :=
  match t, stack with
  | TString k, FDict acc None :: stack' =>
      Some (FDict acc (Some k) :: stack', PColon)
  | _, _ => None
  end.

Definition parse_step (stack : list frame) (ph : phase) (t : token)
  : option (list frame * phase) :=
  match ph with
  | PValue => start_value t stack
  | PValueOrEnd =>
      match t, stack with
      | TRBracket, FList acc :: stack' => complete (JList acc) stack'
      | _, _ => start_value t stack
      end
  | PKeyOrEnd =>
      match t, stack with
      | TRBrace, FDict acc None :: stack' => complete (JDict acc) stack'
      | _, _ => start_key t stack
      end
  | PKey => start_key t stack
  | PColon =>
      match t with
      | TColon => Some (stack, PValue)
      | _ => None
      end
  | PAfter =>
      match t, stack with
      | TComma, FList _ :: _ => Some (stack, PValue)
      | TRBracket, FList acc :: stack' => complete (JList acc) stack'
      | TComma, FDict _ None :: _ => Some (stack, PKey)
      | TRBrace, FDict acc None :: stack' => complete (JDict acc) stack'
      | _, _ => None
      end
  | PDone _ => None
  end.

Fixpoint parse (ts : list token) (stack : list frame) (ph : phase)
  : option json :=
  match ts with
  | [] => match ph with
          | PDone v => Some v
          | _ => None
          end
  | t :: ts' =>
      match parse_step stack ph t with
      | Some (stack', ph') => parse ts' stack' ph'
      | None => None
      end
  end.

(** [json.loads(data)]: JSONDecodeError, a subclass of ValueError, for
    text that is not a JSON document. *)
Definition loads (data : string) : Res json :=
  match lex LDefault data with
  | None => Raise JSONDecodeError
  | Some ts =>
      match parse ts [] PValue with
      | Some v => Ok v
      | None => Raise JSONDecodeError
      end
  end.

(** [d[key]] on the members of an object: a later member of the same
    name replaces an earlier one. *)
Fixpoint member (d : list (string * json)) (key : string) : option json :=
  match d with
  | [] => None
  | (k, v) :: d' =>
      match member d' key with
      | Some v' => Some v'
      | None => if String.eqb k key then Some v else None
      end
  end.

End Json.

(** ** Files

    The scratch files of the working directory.  A file holds bytes, or
    the stream [pickle] wrote, kept in structured form: [pickle] records
    classes and functions by their import path, not by value. *)

Module FS.
Import Py.

Inductive pickled :=
| PInstance (module_ class_ : string) (attributes : gmap string value)
| PReduce (module_ function_ : string) (kwargs : gmap string value).

Inductive content :=
| Bytes (b : string)
| Pickle (p : pickled).

Abbreviation files := (gmap string content).

Inductive mode := W | WB | R | RB | RPlus.

Definition binary (m : mode) : bool :=
  match m with
  | WB | RB => true
  | _ => false
  end.

Definition writable (m : mode) : bool :=
  match m with
  | W | WB | RPlus => true
  | _ => false
  end.

(** An open file: its path, its mode and the position of the next read
    or write. *)
Record handle := {
  h_path : string;
  h_mode : mode;
  h_pos : nat
}.

(** [open(path, mode)]: the writing modes create the file or empty it;
    the reading modes need the file. *)
Definition open_ (path : string) (m : mode) : stmt files handle :=
  fun fs =>
    let h := {| h_path := path; h_mode := m; h_pos := 0 |} in
    match m with
    | W | WB => (Ok h, <[path := Bytes ""]> fs)
    | R | RB | RPlus =>
        match fs !! path with
        | Some _ => (Ok h, fs)
        | None => (Raise FileNotFoundError, fs)
        end
    end.

Definition bytes_of (c : content) : string :=
  match c with
  | Bytes b => b
  | Pickle _ => ""
  end.

(** Overwriting [old] from position [pos] on with [data] *)
Definition overwrite (old : string) (pos : nat) (data : string) : string :=
  String.append (String.substring 0 pos old)
    (String.append data
       (String.substring (pos + String.length data)
          (String.length old - (pos + String.length data)) old)).

(** [handle.write(data)]: a text file takes [str] only and a binary file
    bytes only (TypeError otherwise, whatever else holds of the file). *)
Definition write (h : handle) (data : value) : stmt files handle :=
  fun fs =>
    match binary (h_mode h), data with
    | false, VStr b | true, VBytes b =>
        if writable (h_mode h) then
          (Ok {| h_path := h_path h; h_mode := h_mode h;
                 h_pos := h_pos h + String.length b |},
           <[h_path h :=
               Bytes (overwrite
                        (match fs !! h_path h with
                         | Some c => bytes_of c
                         | None => ""
                         end)
                        (h_pos h) b)]> fs)
        else (Raise OSError, fs)
    | _, _ => (Raise TypeError, fs)
    end.

(** [handle.read()]: everything from the position on *)
Definition read_all (h : handle) : stmt files (string * handle) :=
  fun fs =>
    let b := match fs !! h_path h with
             | Some c => bytes_of c
             | None => ""
             end in
    (Ok (String.substring (h_pos h) (String.length b - h_pos h) b,
         {| h_path := h_path h; h_mode := h_mode h;
            h_pos := String.length b |}),
     fs).

(** [handle.seek(0)] *)
Definition seek0 (h : handle) : handle :=
  {| h_path := h_path h; h_mode := h_mode h; h_pos := 0 |}.

(** The lines of a text, each with its line end *)
Fixpoint lines_from (s : string) (line : string) : list string :=
  match s with
  | EmptyString =>
      match line with
      | EmptyString => []
      | _ => [line]
      end
  | String c s' =>
      if Nat.eqb (Ascii.nat_of_ascii c) 10
      then String.append line (String c EmptyString) :: lines_from s' ""
      else lines_from s' (String.append line (String c EmptyString))
  end.

Definition lines (s : string) : list string := lines_from s "".

(** What a notebook with files runs on: the files, what was printed,
    what was logged. *)
Record world := {
  the_files : files;
  printed : list value;
  logged : list log_record
}.

Definition world_of (fs : files) : world :=
  {| the_files := fs; printed := []; logged := [] |}.

(** A file operation as a statement on the world *)
Definition io {A} (c : stmt files A) : stmt world A :=
  fun w =>
    let '(r, fs) := c (the_files w) in
    (r, {| the_files := fs; printed := printed w; logged := logged w |}).

Definition print (v : value) : stmt world unit :=
  modify (fun w => {| the_files := the_files w;
                      printed := append (printed w) v;
                      logged := logged w |}).

Definition log (msg : string) (exc : option exn_class) : stmt world unit :=
  modify (fun w => {| the_files := the_files w; printed := printed w;
                      logged := append (logged w)
                                  {| message := msg; exc_info := exc |} |}).

(** [with open(path, mode) as f: body]; leaving the block closes the
    file, which changes nothing else here. *)
Definition with_open {A} (path : string) (m : mode)
    (body : handle -> stmt world A) : stmt world A :=
  f <- io (open_ path m) ;;
  try_finally (body f) (ret tt).

(** What can be observed of a run: its outcome and what it printed and
    logged. *)
Definition observe {A} (r : Res A * world)
  : Res A * list value * list log_record :=
  (fst r, printed (snd r), logged (snd r)).

(** *** Independence of the files that are already there

    [overlay w fs] is the world [w] with the files [fs] added underneath:
    a file of [w] hides the file of the same path in [fs]. *)
Definition overlay (w : world) (fs : files) : world :=
  {| the_files := the_files w ∪ fs; printed := printed w;
     logged := logged w |}.

(** The paths of the files of a world *)
Definition dom_is (D : gset string) (w : world) : Prop :=
  dom (the_files w) = D.

(** The paths a run may have touched *)
Definition within (D : gset string) (w : world) : Prop :=
  dom (the_files w) ⊆ D.

(** The text or bytes of a value that can be written *)
Definition payload (v : value) : string :=
  match v with
  | VStr b | VBytes b => b
  | _ => ""
  end.

(** A notebook is independent of the files it finds: what can be
    observed of a run is the same whatever files there are, and every
    file but its own is left as it was. *)
Definition independent {A} (own : gset string) (c : stmt world A) : Prop :=
  forall fs fs',
    observe (c (world_of fs)) = observe (c (world_of fs'))
    /\ forall path, path ∉ own ->
         the_files (snd (c (world_of fs))) !! path = fs !! path.


(** The files the notebooks write *)
Definition scratch_files : list (string * list string) :=
  [ ("v03", ["random.bin"]);
    ("v09", ["my_file.txt"]);
    ("v13", ["random_data.txt"; "random_data.json"]);
    ("v16", ["address.txt"]);
    ("v43", ["my_output.txt"]);
    ("pickle", ["game_state.bin"]) ].

Fixpoint files_of (table : list (string * list string)) (notebook : string)
  : list string :=
  match table with
  | [] => []
  | (n, paths) :: table' =>
      if String.eqb n notebook then paths else files_of table' notebook
  end.

Definition own (notebook : string) : gset string :=
  list_to_set (files_of scratch_files notebook).

(** A statement is framed when, from every state with [P], it runs the
    same way whatever files are added underneath, leaves those files as
    they are, and ends in a state with [Q] (when it returns) or [E] (when
    it raises). *)
Definition framed {S A} (under : S -> files -> S) (P : S -> Prop)
    (c : stmt S A) (Q : A -> S -> Prop) (E : S -> Prop) : Prop :=
  forall s, P s ->
    (forall fs, c (under s fs) = (fst (c s), under (snd (c s)) fs))
    /\ match fst (c s) with
       | Ok a => Q a (snd (c s))
       | Raise _ => E (snd (c s))
       end.

End FS.

(** ** v16: generators instead of returned lists *)

Module V16.
Import Py.

(** [index_words(text)]: the list [result] is threaded through the loop. *)
Definition index_words (text : string) : list Z :=
  let result := [] in
  let result := if str_truthy text then append result 0 else result in
  fold_left
    (fun result '(index, letter) =>
       if Ascii.eqb letter " " then append result (index + 1) else result)
    (enumerate (list_ascii_of_string text))
    result.

(** The generator object made by [index_words_iter(text)].  A generator
    is suspended either before its first statement or at one of its
    [yield]s; the frame holds [text] resp. the [enumerate] iterator
    (the next index and the letters not yet visited). *)
Inductive generator :=
| NotStarted (text : string)
| AtYield (next_index : Z) (rest : list ascii)
| Finished.

(** The [for] loop resumed with the iterator at [(index, rest)], run up to
    the next [yield index + 1]; [None] when the loop ends. *)
Fixpoint run_loop (index : Z) (rest : list ascii) : option (Z * generator) :=
  match rest with
  | [] => None
  | letter :: rest' =>
      if Ascii.eqb letter " "
      then Some (index + 1, AtYield (index + 1) rest')
      else run_loop (index + 1) rest'
  end.

Definition index_words_iter (text : string) : generator := NotStarted text.

(** [next(g)]: the yielded value, or [None] for StopIteration, and the
    generator afterwards. *)
Definition next (g : generator) : option Z * generator :=
  match g with
  | NotStarted text =>
      if str_truthy text
      then (Some 0, AtYield 0 (list_ascii_of_string text))
      else match run_loop 0 (list_ascii_of_string text) with
           | Some (v, g') => (Some v, g')
           | None => (None, Finished)
           end
  | AtYield index rest =>
      match run_loop index rest with
      | Some (v, g') => (Some v, g')
      | None => (None, Finished)
      end
  | Finished => (None, Finished)
  end.

(** [list(g)] calls [next] until StopIteration.  [fuel] bounds the number
    of calls; [None] means the bound was hit before StopIteration. *)
Fixpoint list_fuel (fuel : nat) (g : generator) : option (list Z) :=
  match fuel with
  | O => None
  | S fuel' =>
      match next g with
      | (Some v, g') => option_map (cons v) (list_fuel fuel' g')
      | (None, _) => Some []
      end
  end.

(** A generator over a text of [n] letters yields at most [n + 1] values. *)
Definition pending (g : generator) : nat :=
  match g with
  | NotStarted text => S (String.length text)
  | AtYield _ rest => List.length rest
  | Finished => O
  end.

Definition list_ (g : generator) : option (list Z) :=
  list_fuel (S (pending g)) g.

(** [index_file(handle)]: the offsets the generator yields for the lines
    the handle delivers.  First the letters of one line, from the offset
    reached so far: *)
Fixpoint index_letters (offset : Z) (letters : list ascii) : list Z * Z :=
  match letters with
  | [] => ([], offset)
  | letter :: rest =>
      let offset := offset + 1 in
      let '(yielded, final) := index_letters offset rest in
      (if Ascii.eqb letter " " then offset :: yielded else yielded, final)
  end.

Fixpoint index_lines (offset : Z) (ls : list string) : list Z :=
  match ls with
  | [] => []
  | line :: ls' =>
      let '(yielded, offset') :=
        index_letters offset (list_ascii_of_string line) in
      (if str_truthy line then [offset] else []) ++ yielded
        ++ index_lines offset' ls'
  end.

Definition index_file (ls : list string) : list Z := index_lines 0 ls.

(** Example 6 *)
Definition address_lines : string :=
  String.concat nl
    ["Four score and seven years";
     "ago our fathers brought forth on this";
     "continent a new nation, conceived in liberty,";
     "and dedicated to the proposition that all men";
     "are created equal."].

(** [islice(it, 0, 3)] takes the first three values. *)
Definition index_file_cell : stmt FS.world unit :=
  FS.with_open "address.txt" FS.W (fun f =>
    FS.io (FS.write f (VStr address_lines))) ;;;
  FS.with_open "address.txt" FS.R (fun f =>
    r <- FS.io (FS.read_all f) ;;
    let it := index_file (FS.lines (fst r)) in
    let results := firstn 3 it in
    FS.print (VList (map VInt results))).

End V16.

(** ** v30: [@property] instead of refactoring attributes *)

Module V30.
Import Py.

(** [datetime] and [timedelta] values are counted in one unit of time;
    every call of [datetime.now()] is an input [now] of the operation. *)
Definition datetime := Z.
Definition timedelta := Z.

(** What [fill] and [deduct] use of a bucket: the attributes
    [period_delta], [reset_time] and [quota] (read and assigned). *)
Class BucketLike (B : Type) := {
  get_period_delta : B -> timedelta;
  get_reset_time : B -> datetime;
  set_reset_time : datetime -> B -> B;
  get_quota : B -> Z;
  set_quota : Z -> stmt B unit
}.

Section FillDeduct.
Context {B : Type} `{BucketLike B}.

(** [bucket.quota = 0] and the like, as a statement *)
Definition assign_reset_time (t : datetime) : stmt B unit :=
  fun bucket => (Ok tt, set_reset_time t bucket).

(** Example 2 *)
Definition fill (now : datetime) (amount : Z) : stmt B unit :=
  expired <- read (fun bucket =>
                     now - get_reset_time bucket >? get_period_delta bucket) ;;
  (if expired : bool
   then (set_quota 0 ;;; assign_reset_time now)
   else ret tt) ;;;
  q <- read get_quota ;;
  set_quota (q + amount).

(** Example 3 *)
Definition deduct (now : datetime) (amount : Z) : stmt B bool :=
  expired <- read (fun bucket =>
                     now - get_reset_time bucket >? get_period_delta bucket) ;;
  if expired : bool then ret false
  else
    q <- read get_quota ;;
    if q - amount <? 0 then ret false
    else
      q <- read get_quota ;;
      (set_quota (q - amount) ;;;
       ret true).

End FillDeduct.

(** Example 1: the bucket with a plain [quota] attribute. *)
Module Plain.

Record Bucket := {
  period_delta : timedelta;
  reset_time : datetime;
  quota : Z
}.

(** [Bucket(period)], constructed at time [now] *)
Definition init (period : Z) (now : datetime) : Bucket :=
  {| period_delta := period; reset_time := now; quota := 0 |}.

#[global] Instance bucket_like : BucketLike Bucket := {|
  get_period_delta := period_delta;
  get_reset_time := reset_time;
  set_reset_time t b :=
    {| period_delta := period_delta b; reset_time := t; quota := quota b |};
  get_quota := quota;
  set_quota amount b :=
    (Ok tt, {| period_delta := period_delta b; reset_time := reset_time b;
               quota := amount |})
|}.

End Plain.

(** Example 7: the bucket with [max_quota] and [quota_consumed]. *)
Record Bucket := {
  period_delta : timedelta;
  reset_time : datetime;
  max_quota : Z;
  quota_consumed : Z
}.

Definition init (period : Z) (now : datetime) : Bucket :=
  {| period_delta := period; reset_time := now;
     max_quota := 0; quota_consumed := 0 |}.

(** Example 8: the getter of the property [quota] *)
Definition quota (self : Bucket) : Z := max_quota self - quota_consumed self.

Definition with_max_quota (v : Z) (self : Bucket) : Bucket :=
  {| period_delta := period_delta self; reset_time := reset_time self;
     max_quota := v; quota_consumed := quota_consumed self |}.

Definition with_quota_consumed (v : Z) (self : Bucket) : Bucket :=
  {| period_delta := period_delta self; reset_time := reset_time self;
     max_quota := max_quota self; quota_consumed := v |}.

(** Example 9: the setter of the property [quota] *)
Definition quota_setter (amount : Z) : stmt Bucket unit :=
  fun self =>
    let delta := max_quota self - amount in
    if amount =? 0 then
      (* Quota being reset for a new period *)
      (Ok tt, with_max_quota 0 (with_quota_consumed 0 self))
    else if delta <? 0 then
      (* Quota being filled for the new period *)
      if quota_consumed self =? 0
      then (Ok tt, with_max_quota amount self)
      else (Raise AssertionError, self)
    else
      (* Quota being consumed during the period *)
      if max_quota self >=? quota_consumed self
      then (Ok tt, with_quota_consumed (quota_consumed self + delta) self)
      else (Raise AssertionError, self).

#[global] Instance bucket_like : BucketLike Bucket := {|
  get_period_delta := period_delta;
  get_reset_time := reset_time;
  set_reset_time t b :=
    {| period_delta := period_delta b; reset_time := t;
       max_quota := max_quota b; quota_consumed := quota_consumed b |};
  get_quota := quota;
  set_quota := quota_setter
|}.

(** The operations a cell applies to a bucket; the amounts are
    integers, as in the cells. *)
Inductive operation :=
| Fill (now : datetime) (amount : Z)
| Deduct (now : datetime) (amount : Z)
| AssignQuota (amount : Z).

(** The bucket after an operation, whether it returned or raised. *)
Definition after (o : operation) (bucket : Bucket) : Bucket :=
  match o with
  | Fill now amount => snd (fill now amount bucket)
  | Deduct now amount => snd (deduct now amount bucket)
  | AssignQuota amount => snd (quota_setter amount bucket)
  end.

Definition after_all (os : list operation) (bucket : Bucket) : Bucket :=
  fold_left (fun b o => after o b) os bucket.

(** A predicate on buckets is an invariant when the constructor
    establishes it and [fill], [deduct] and assignments to [quota]
    preserve it, for every integer amount and every reading of the
    clock. *)
Definition invariant (P : Bucket -> Prop) : Prop :=
  (forall period now, P (init period now)) /\
  (forall now amount bucket, P bucket -> P (snd (fill now amount bucket))) /\
  (forall now amount bucket, P bucket -> P (snd (deduct now amount bucket))) /\
  (forall amount bucket, P bucket -> P (snd (quota_setter amount bucket))).

(** Example 10, run with the clock readings [t0] (construction) and
    [t1], [t2], [t3] (the three calls); the result is the sequence of
    buckets printed and the two answers of [deduct]. *)
Definition example_10 (t0 t1 t2 t3 : datetime)
  : Res (list Bucket * list bool) * Bucket :=
  let bucket := init 60 t0 in
  let initial := bucket in
  (fill t1 100 ;;;
   filled <- read id ;;
   had_99 <- deduct t2 99 ;;
   now_ <- read id ;;
   had_3 <- deduct t3 3 ;;
   still <- read id ;;
   ret ([initial; filled; now_; still], [had_99; had_3])) bucket.

(** The fields never become negative, whatever is assigned to [quota]. *)
Definition fields_nonneg (b : Bucket) : Prop :=
  0 <= quota_consumed b /\ 0 <= max_quota b.

End V30.

(** ** v51: a root exception to insulate callers from APIs *)

Module V51.
Import Py.

(** Example 1: the function of the first cell raises a builtin. *)
Definition determine_weight_builtin (volume density : Z) : Res value :=
  if density <=? 0 then Raise ValueError else Ok VNone.

(** Example 3: the namespace [my_module].  Its attributes are rebound by
    later cells, so it is part of the state. *)
Record module_ := {
  mod_Error : exn_class;
  mod_InvalidDensityError : exn_class;
  mod_NegativeDensityError : option exn_class;
  mod_determine_weight : Z -> Z -> Res value
}.

(** [my_module.determine_weight] as the class body defines it *)
Definition determine_weight_static (volume density : Z) : Res value :=
  if density <=? 0 then Raise InvalidDensityError else Ok VNone.

Definition my_module_initial : module_ := {|
  mod_Error := Error;
  mod_InvalidDensityError := InvalidDensityError;
  mod_NegativeDensityError := None;
  mod_determine_weight := determine_weight_static
|}.

(** Example 6: the global [determine_weight] *)
Definition determine_weight (volume density : Z) : Res value :=
  if density <? 0 then Raise NegativeDensityError else Ok VNone.

(** The names the cells assign: [my_module], [weight] (unbound at
    first), and what was logged. *)
Record state := {
  my_module : module_;
  weight : option value;
  logged : list log_record
}.

Definition initial : state :=
  {| my_module := my_module_initial; weight := None; logged := [] |}.

Definition set_weight (v : value) : stmt state unit :=
  modify (fun s => {| my_module := my_module s; weight := Some v;
                      logged := logged s |}).

Definition set_my_module (m : module_) : stmt state unit :=
  modify (fun s => {| my_module := m; weight := weight s;
                      logged := logged s |}).

Definition log (msg : string) (exc : option exn_class) : stmt state unit :=
  modify (fun s => {| my_module := my_module s; weight := weight s;
                      logged := append (logged s)
                                  {| message := msg; exc_info := exc |} |}).

(** [my_module.determine_weight(volume, density)], with the function
    the attribute is bound to at the time of the call *)
Definition call_determine_weight (volume density : Z) : stmt state value :=
  m <- read my_module ;;
  lift (mod_determine_weight m volume density).

(** [assert weight == 0] *)
Definition assert_weight_is_0 : stmt state unit :=
  w <- read weight ;;
  match w with
  | Some v => assert_stmt (py_eq v (VInt 0))
  | None => raise NameError
  end.

(** Example 1 *)
Definition example_1 : stmt state unit :=
  try_except_else_stmt
    (lift (determine_weight_builtin 1 0))
    [(BaseException, fun e => log "Expected" (Some e))]
    (fun _ => assert_stmt false).

(** Example 3, for any arguments of the call *)
Definition example_3 (volume density : Z) : stmt state unit :=
  m <- read my_module ;;
  try_except
    (w <- call_determine_weight volume density ;;
     set_weight w ;;;
     assert_stmt false)
    [(mod_Error m, fun e => log "Unexpected error: %s" None)].

(** Example 4 *)
Definition example_4 (volume density : Z) : stmt state unit :=
  set_weight (VInt 5) ;;;
  m <- read my_module ;;
  try_except
    (w <- call_determine_weight volume density ;;
     set_weight w ;;;
     assert_stmt false)
    [(mod_InvalidDensityError m, fun _ => set_weight (VInt 0));
     (mod_Error m, fun e => log "Bug in the calling code: %s" None)] ;;;
  assert_weight_is_0.

(** Example 5 *)
Definition example_5 (volume density : Z) : stmt state unit :=
  set_weight (VInt 5) ;;;
  m <- read my_module ;;
  try_except
    (w <- call_determine_weight volume density ;;
     set_weight w ;;;
     assert_stmt false)
    [(mod_InvalidDensityError m, fun _ => set_weight (VInt 0));
     (mod_Error m, fun e => log "Bug in the calling code: %s" None);
     (Exception_, fun e => log "Bug in the API code: %s" None ;;; raise e)] ;;;
  assert_weight_is_0.

(** Example 7: the module's attributes are rebound to the definitions of
    Example 6, then the call runs under the extended handlers, all inside
    a [try] that logs whatever is raised. *)
Definition example_7 (volume density : Z) : stmt state unit :=
  try_except_else_stmt
    (m <- read my_module ;;
     set_my_module {| mod_Error := mod_Error m;
                      mod_InvalidDensityError := mod_InvalidDensityError m;
                      mod_NegativeDensityError := Some NegativeDensityError;
                      mod_determine_weight := mod_determine_weight m |} ;;;
     m <- read my_module ;;
     set_my_module {| mod_Error := mod_Error m;
                      mod_InvalidDensityError := mod_InvalidDensityError m;
                      mod_NegativeDensityError := mod_NegativeDensityError m;
                      mod_determine_weight := determine_weight |} ;;;
     m <- read my_module ;;
     try_except
       (w <- call_determine_weight volume density ;;
        set_weight w ;;;
        assert_stmt false)
       (match mod_NegativeDensityError m with
        | Some c => [(c, fun _ => raise ValueError)]
        | None => []
        end ++
        [(mod_InvalidDensityError m, fun _ => set_weight (VInt 0));
         (mod_Error m, fun e => log "Bug in the calling code: %s" None);
         (Exception_,
          fun e => log "Bug in the API code: %s" None ;;; raise e)]))
    [(BaseException, fun e => log "Expected" (Some e))]
    (fun _ => assert_stmt false).

(** The three code cells, in order, with the arguments of the notebook *)
Definition notebook : stmt state unit :=
  example_1 ;;;
  example_3 1 (-1) ;;;
  example_4 1 (-1) ;;;
  example_5 1 (-1) ;;;
  example_7 1 (-1).

End V51.

(** ** Keyword-only arguments ([safe_division], unnamed notebook 0) *)

Module KeywordOnly.
Import Py.

(** *** The three functions *)

(** Example 1 *)
Definition safe_division (args : list value) (kwargs : list (string * value))
  : Res value :=
  bind (bind_arguments
          [required "number"; required "divisor";
           required "ignore_overflow"; required "ignore_zero_division"]
          args kwargs) (fun e =>
  try_except_else
    (truediv (arg e "number") (arg e "divisor"))
    [(OverflowError,
      fun exc => if truthy (arg e "ignore_overflow")
                 then Ok (VInt 0) else Raise exc);
     (ZeroDivisionError,
      fun exc => if truthy (arg e "ignore_zero_division")
                 then Ok (VFloat inf) else Raise exc)]
    Ok).

(** Example 4 *)
Definition safe_division_b (args : list value)
    (kwargs : list (string * value)) : Res value :=
  bind (bind_arguments
          [required "number"; required "divisor";
           optional "ignore_overflow" (VBool false);
           optional "ignore_zero_division" (VBool false)]
          args kwargs) (fun e =>
  try_except_else
    (truediv (arg e "number") (arg e "divisor"))
    [(OverflowError,
      fun exc => if truthy (arg e "ignore_overflow")
                 then Ok (VInt 0) else Raise exc);
     (ZeroDivisionError,
      fun exc => if truthy (arg e "ignore_zero_division")
                 then Ok (VFloat inf) else Raise exc)]
    Ok).

(** Example 7 *)
Definition safe_division_c (args : list value)
    (kwargs : list (string * value)) : Res value :=
  bind (bind_arguments
          [required "number"; required "divisor";
           keyword_only "ignore_overflow" (VBool false);
           keyword_only "ignore_zero_division" (VBool false)]
          args kwargs) (fun e =>
  try_except_else
    (truediv (arg e "number") (arg e "divisor"))
    [(OverflowError,
      fun exc => if truthy (arg e "ignore_overflow")
                 then Ok (VInt 0) else Raise exc);
     (ZeroDivisionError,
      fun exc => if truthy (arg e "ignore_zero_division")
                 then Ok (VFloat inf) else Raise exc)]
    Ok).

(** The keyword arguments of a call that passes the given flags, and
    the value a flag has in the body *)
Definition flags (ignore_overflow ignore_zero_division : option value)
  : list (string * value) :=
  match ignore_overflow with
  | Some v => [("ignore_overflow", v)]
  | None => []
  end ++
  match ignore_zero_division with
  | Some v => [("ignore_zero_division", v)]
  | None => []
  end.

Definition flag (given : option value) : value :=
  match given with
  | Some v => v
  | None => VBool false
  end.

(** *** The cells *)

(** The state of the notebook: what was printed and logged, and a ghost
    count of the [assert] statements executed so far (the program has no
    such variable; the count is kept to speak about the assertions). *)
Record state := {
  printed : list value;
  logged : list log_record;
  asserted : nat
}.

Definition initial : state :=
  {| printed := []; logged := []; asserted := 0 |}.

Definition print (v : value) : stmt state unit :=
  modify (fun s => {| printed := append (printed s) v; logged := logged s;
                      asserted := asserted s |}).

Definition log (msg : string) (exc : option exn_class) : stmt state unit :=
  modify (fun s => {| printed := printed s;
                      logged := append (logged s)
                                  {| message := msg; exc_info := exc |};
                      asserted := asserted s |}).

(** An [assert] statement, counted when it is executed *)
Definition counted (assertion : stmt state unit) : stmt state unit :=
  modify (fun s => {| printed := printed s; logged := logged s;
                      asserted := S (asserted s) |}) ;;;
  assertion.

(** The literal [1.0] *)
Definition one : value := VFloat (float_literal 10 1).

(** Example 2 *)
Definition example_2 : stmt state unit :=
  result <- lift (safe_division
                    [one; VInt (10 ^ 500); VBool true; VBool false] []) ;;
  print result ;;;
  counted (lift (assert_is result (VInt 0))) ;;;
  result <- lift (safe_division [one; VInt 0; VBool false; VBool true] []) ;;
  print result ;;;
  counted (assert_stmt (py_eq result (VFloat inf))).

(** Examples 5 and 6 *)
Definition example_5 : stmt state unit :=
  r <- lift (safe_division_b [one; VInt (10 ^ 500)]
               [("ignore_overflow", VBool true)]) ;;
  counted (lift (assert_is r (VInt 0))) ;;;
  r <- lift (safe_division_b [one; VInt 0]
               [("ignore_zero_division", VBool true)]) ;;
  counted (assert_stmt (py_eq r (VFloat inf))).

Definition example_6 : stmt state unit :=
  r <- lift (safe_division_b
               [one; VInt (10 ^ 500); VBool true; VBool false] []) ;;
  counted (lift (assert_is r (VInt 0))).

(** Example 8 *)
Definition example_8 : stmt state unit :=
  try_except_else_stmt
    (lift (safe_division_c
             [one; VInt (10 ^ 500); VBool true; VBool false] []))
    [(BaseException, fun e => log "Expected" (Some e))]
    (fun _ => counted (assert_stmt false)).

(** Example 9 *)
Definition example_9 : stmt state unit :=
  lift (safe_division_c [one; VInt 0]
          [("ignore_zero_division", VBool true)]) ;;;
  try_except
    (lift (safe_division_c [one; VInt 0] []) ;;;
     counted (assert_stmt false))
    [(ZeroDivisionError, fun _ => ret tt)].


Definition notebook : stmt state unit :=
  example_2 ;;; example_5 ;;; example_6 ;;; example_8 ;;; example_9.


End KeywordOnly.

(** ** Default arguments ([log] and [decode], unnamed notebook 1) *)

Module DefaultArgs.
Import Py Json.

(** The objects of the cell, the default kept by the function object
    [decode], and what was printed (the label and the object as it was
    at that moment). *)
Record state := {
  the_heap : heap;
  decode_default : value;
  printed : list (string * option object)
}.

Definition initial : state :=
  {| the_heap := empty_heap; decode_default := VNone; printed := [] |}.

Definition new (o : object) : stmt state value :=
  fun s =>
    let '(l, h) := alloc o (the_heap s) in
    (Ok (VRef l),
     {| the_heap := h; decode_default := decode_default s;
        printed := printed s |}).

Definition deref (v : value) (s : state) : option object :=
  match v with
  | VRef l => objects (the_heap s) !! l
  | _ => None
  end.

(** [o[key] = v] *)
Definition setitem (o : value) (key : string) (v : value) : stmt state unit :=
  fun s =>
    match o with
    | VRef l =>
        match objects (the_heap s) !! l with
        | Some (ODict d) =>
            (Ok tt,
             {| the_heap := store l (ODict (<[key := v]> d)) (the_heap s);
                decode_default := decode_default s;
                printed := printed s |})
        | _ => (Raise TypeError, s)
        end
    | _ => (Raise TypeError, s)
    end.

Definition print (label : string) (v : value) : stmt state unit :=
  fun s =>
    (Ok tt,
     {| the_heap := the_heap s; decode_default := decode_default s;
        printed := append (printed s) (label, deref v s) |}).

(** The objects [json.loads] makes for a parsed document: a new list for
    every array and a new dictionary for every object. *)
Fixpoint materialize (j : json) (h : heap) : value * heap :=
  match j with
  | JNull => (VNone, h)
  | JBool b => (VBool b, h)
  | JInt n => (VInt n, h)
  | JFloat x => (VFloat x, h)
  | JStr s => (VStr s, h)
  | JList l =>
      let '(vs, h') :=
        (fix elements (l : list json) (h : heap) : list value * heap :=
           match l with
           | [] => ([], h)
           | j' :: l' =>
               let '(v, h1) := materialize j' h in
               let '(vs, h2) := elements l' h1 in
               (v :: vs, h2)
           end) l h in
      let '(loc, h'') := alloc (OList vs) h' in
      (VRef loc, h'')
  | JDict d =>
      let '(m, h') :=
        (fix members (d : list (string * json)) (m : gmap string value)
             (h : heap) : gmap string value * heap :=
           match d with
           | [] => (m, h)
           | (k, j') :: d' =>
               let '(v, h1) := materialize j' h in
               members d' (<[k := v]> m) h1
           end) d ∅ h in
      let '(loc, h'') := alloc (ODict m) h' in
      (VRef loc, h'')
  end.

Definition materialize_stmt (j : json) : stmt state value :=
  fun s =>
    let '(v, h) := materialize j (the_heap s) in
    (Ok v,
     {| the_heap := h; decode_default := decode_default s;
        printed := printed s |}).

Section Decode.

(** [json.loads], as a parser *)
Variable json_loads : string -> Res json.

(** [json.loads(data)] raises ValueError or a subclass of it. *)
Definition parse_fails (data : string) : Prop :=
  exists e, json_loads data = Raise e /\ issubclass e ValueError = true.

(** The cell "Wrong Case": executing [def decode(data, default={})]
    evaluates [{}] once and keeps that object as the default. *)
Definition def_decode_shared : stmt state unit :=
  d <- new (ODict ∅) ;;
  modify (fun s => {| the_heap := the_heap s; decode_default := d;
                      printed := printed s |}).

(** The body of that [decode]; [default] is [None] for a call that
    leaves the argument out. *)
Definition decode_shared (data : string) (default : option value)
  : stmt state value :=
  default <- match default with
             | Some v => ret v
             | None => read decode_default
             end ;;
  try_except
    (j <- lift (json_loads data) ;;
     materialize_stmt j)
    [(ValueError, fun _ => ret default)].

(** The cell "Solution": [def decode(data, default=None)] *)
Definition decode (data : string) (default : option value)
  : stmt state value :=
  let default := match default with
                 | Some v => v
                 | None => VNone
                 end in
  default <- match py_is default VNone with
             | Some true => new (ODict ∅)
             | _ => ret default
             end ;;
  try_except
    (j <- lift (json_loads data) ;;
     materialize_stmt j)
    [(ValueError, fun _ => ret default)].

(** Example 5, for any two texts *)
Definition example_5 (data1 data2 : string) : stmt state (value * value) :=
  foo <- decode_shared data1 None ;;
  setitem foo "stuff" (VInt 5) ;;;
  bar <- decode_shared data2 None ;;
  setitem bar "meep" (VInt 1) ;;;
  print "Foo:" foo ;;;
  print "Bar:" bar ;;;
  lift (assert_is foo bar) ;;;
  ret (foo, bar).

(** Example 8 *)
Definition example_8 (data1 data2 : string) : stmt state (value * value) :=
  foo <- decode data1 None ;;
  setitem foo "stuff" (VInt 5) ;;;
  bar <- decode data2 None ;;
  setitem bar "meep" (VInt 1) ;;;
  print "Foo:" foo ;;;
  print "Bar:" bar ;;;
  ret (foo, bar).

(** The two cells about [decode], in order *)
Definition notebook : stmt state unit :=
  def_decode_shared ;;;
  example_5 "bad data" "also bad" ;;;
  example_8 "bad data" "also bad" ;;;
  ret tt.

End Decode.

End DefaultArgs.

(** ** v03: [bytes] and [str] *)

Module V03.
Import Py FS.

(** The cell that writes [random.bin]; [random1] and [random2] are what
    the two calls of [os.urandom(10)] return. *)
Definition write_random (random1 random2 : string) : stmt world unit :=
  try_except_else_stmt
    (with_open "random.bin" W (fun f =>
       io (write f (VBytes random1))))
    [(BaseException, fun e => log "Expected" (Some e))]
    (fun _ => assert_stmt false) ;;;
  with_open "random.bin" WB (fun f =>
    io (write f (VBytes random2))) ;;;
  ret tt.

End V03.

(** ** v09: generator expressions *)

Module V09.
Import Py FS.

Section Cells.

(** [x ** 0.5], left to the C library *)
Variable power_half : Z -> float.

(** ['a' * n] *)
Definition a_times (n : Z) : string :=
  string_of_list_ascii (repeat "a"%char (Z.to_nat n)).

(** The loop of Example 1; [lengths] are the results of
    [random.randint(0, 100)], one for each round. *)
Fixpoint write_lines (lengths : list Z) (f : handle) : stmt world handle :=
  match lengths with
  | [] => ret f
  | n :: lengths' =>
      f <- io (write f (VStr (a_times n))) ;;
      f <- io (write f (VStr nl)) ;;
      write_lines lengths' f
  end.

Definition len (s : string) : Z := Z.of_nat (String.length s).

(** Iterating [open(path)] gives the lines of the file. *)
Definition open_lines (path : string) : stmt world (list string) :=
  f <- io (open_ path R) ;;
  r <- io (read_all f) ;;
  ret (lines (fst r)).

(** [next(it)] on the values an iterator still has to deliver *)
Definition next {A} (it : list A) : stmt world (A * list A) :=
  match it with
  | [] => raise StopIteration
  | x :: it' => ret (x, it')
  end.

(** The four code cells *)
Definition notebook (lengths : list Z) : stmt world unit :=
  with_open "my_file.txt" W (fun f => write_lines lengths f) ;;;
  xs <- open_lines "my_file.txt" ;;
  let value := map len xs in
  print (VList (map VInt value)) ;;;
  xs <- open_lines "my_file.txt" ;;
  let it := map len xs in
  print (VStr "<generator object <genexpr>>") ;;;
  r <- next it ;;
  print (VInt (fst r)) ;;;
  r <- next (snd r) ;;
  print (VInt (fst r)) ;;;
  let roots := map (fun x => VList [VInt x; VFloat (power_half x)]) (snd r) in
  r <- next roots ;;
  print (fst r).

End Cells.

End V09.

(** ** v43: [with] statements *)

Module V43.
Import Py FS.

(** Example 7 *)
Definition example_7 : stmt world unit :=
  with_open "my_output.txt" W (fun handle =>
    io (write handle (VStr "This is some data!"))) ;;;
  ret tt.

End V43.

(** ** v13: [try], [except], [else], [finally] *)

Module V13.
Import Py Json FS.

(** The object [UNDEFINED = object()]: the only object of the notebook
    that is referred to by identity. *)
Definition UNDEFINED : value := VRef 1%positive.

(** A parsed number, string or constant as an operand *)
Definition operand (j : json) : option value :=
  match j with
  | JNull => Some VNone
  | JBool b => Some (VBool b)
  | JInt n => Some (VInt n)
  | JFloat x => Some (VFloat x)
  | JStr s => Some (VStr s)
  | JList _ | JDict _ => None
  end.

(** [a / b] on parsed values; lists and dictionaries do not divide. *)
Definition json_truediv (a b : json) : Res value :=
  match operand a, operand b with
  | Some x, Some y => truediv x y
  | _, _ => Raise TypeError
  end.

(** [d[key]] with a string key: KeyError on a dictionary without the
    key, TypeError on everything that is not a dictionary. *)
Definition getitem (d : json) (key : string) : Res json :=
  match d with
  | JDict members =>
      match member members key with
      | Some v => Ok v
      | None => Raise KeyError
      end
  | _ => Raise TypeError
  end.

Fixpoint replace_member (members : list (string * json)) (key : string)
    (v : json) : option (list (string * json)) :=
  match members with
  | [] => None
  | (k, v') :: members' =>
      if String.eqb k key then Some ((k, v) :: members')
      else option_map (cons (k, v')) (replace_member members' key v)
  end.

(** [d[key] = v] *)
Definition setitem (d : json) (key : string) (v : json) : Res json :=
  match d with
  | JDict members =>
      match replace_member members key v with
      | Some members' => Ok (JDict members')
      | None => Ok (JDict (append members (key, v)))
      end
  | _ => Raise TypeError
  end.

(** [j == s] for a string [s] *)
Definition eq_str (j : json) (s : string) : bool :=
  match j with
  | JStr t => String.eqb t s
  | _ => false
  end.

Section Cells.

Variable json_loads : string -> Res json.
Variable json_dumps : json -> string.

(** The first cell: a [finally] block *)
Definition finally_cell : stmt world string :=
  handle <- io (open_ "random_data.txt" W) ;;
  io (write handle
        (VStr (String.concat nl ["success"; "and"; "new"; "lines"]))) ;;;
  handle <- io (open_ "random_data.txt" R) ;;
  try_finally
    (r <- io (read_all handle) ;;
     ret (fst r))
    (ret tt).

Definition load_json_key (data key : string) : Res json :=
  try_except_else
    (json_loads data)
    [(ValueError, fun e => Raise KeyError)]
    (fun result_dict => getitem result_dict key).

(** The second cell: [else] blocks *)
Definition else_cell : stmt world unit :=
  r <- lift (load_json_key (quoted "{'foo': 'bar'}") "foo") ;;
  assert_stmt (eq_str r "bar") ;;;
  try_except
    (lift (load_json_key (quoted "{'foo': 'bar'}") "does not exist") ;;;
     assert_stmt false)
    [(KeyError, fun _ => ret tt)] ;;;
  try_except
    (lift (load_json_key (quoted "{'foo': bad payload") "foo") ;;;
     assert_stmt false)
    [(KeyError, fun _ => ret tt)].

(** [handle] is the one object all blocks use; only its position
    changes, and [handle.seek(0)] sets it anew before the write. *)
Definition divide_json (path : string) : stmt world value :=
  handle <- io (open_ path RPlus) ;;
  try_finally
    (try_except_else_stmt
       (r <- io (read_all handle) ;;
        let data := fst r in
        op <- lift (json_loads data) ;;
        numerator <- lift (getitem op "numerator") ;;
        denominator <- lift (getitem op "denominator") ;;
        value <- lift (json_truediv numerator denominator) ;;
        ret (op, value))
       [(ZeroDivisionError, fun e => ret UNDEFINED)]
       (fun '(op, value) =>
          op <- lift (setitem op "result"
                        (match value with
                         | VFloat x => JFloat x
                         | _ => JNull
                         end)) ;;
          let result := json_dumps op in
          let handle := seek0 handle in
          io (write handle (VStr result)) ;;;
          ret value))
    (ret tt).

Definition write_text (path text : string) : stmt world unit :=
  handle <- io (open_ path W) ;;
  io (write handle (VStr text)) ;;;
  ret tt.

(** The third cell *)
Definition divide_cell : stmt world unit :=
  let temp_path := "random_data.json" in
  write_text temp_path (quoted "{'numerator': 1, 'denominator': 10}") ;;;
  r <- divide_json temp_path ;;
  assert_stmt (py_eq r (VFloat (float_literal 1 1))) ;;;
  write_text temp_path (quoted "{'numerator': 1, 'denominator': 0}") ;;;
  r <- divide_json temp_path ;;
  lift (assert_is r UNDEFINED) ;;;
  write_text temp_path (quoted "{'numerator': 1 bad data") ;;;
  try_except
    (divide_json temp_path ;;;
     assert_stmt false)
    [(ValueError, fun _ => ret tt)].

Definition notebook : stmt world unit :=
  finally_cell ;;; else_cell ;;; divide_cell.

End Cells.

End V13.

(** ** Built-in algorithms and data structures (second notebook of the
    file v03): the heap of Examples 6 to 9 *)

Module BuiltinAlgorithms.
Import Py.

(** [heapq._siftdown(heap, startpos, pos)]: the new item at [pos] moves
    up past every parent that is larger.  [fuel] bounds the rounds of the
    loop; [pos] suffices, since [pos] decreases in each round. *)
Fixpoint siftdown_loop (fuel : nat) (heap : list Z) (startpos pos : nat)
    (newitem : Z) : list Z * nat :=
  match fuel with
  | O => (heap, pos)
  | S fuel' =>
      if (startpos <? pos)%nat then
        let parentpos := ((pos - 1) / 2)%nat in
        match heap !! parentpos with
        | Some parent =>
            if newitem <? parent
            then siftdown_loop fuel' (<[pos := parent]> heap) startpos
                   parentpos newitem
            else (heap, pos)
        | None => (heap, pos)
        end
      else (heap, pos)
  end.

Definition siftdown (heap : list Z) (startpos pos : nat) : list Z :=
  match heap !! pos with
  | Some newitem =>
      let '(heap, pos) := siftdown_loop pos heap startpos pos newitem in
      <[pos := newitem]> heap
  | None => heap
  end.

(** [heapq.heappush(heap, item)] *)
Definition heappush (heap : list Z) (item : Z) : list Z :=
  let heap := append heap item in
  siftdown heap 0 (List.length heap - 1).

Fixpoint insert_sorted (x : Z) (l : list Z) : list Z :=
  match l with
  | [] => [x]
  | y :: l' => if x <=? y then x :: l else y :: insert_sorted x l'
  end.

Definition sorted (l : list Z) : list Z := fold_right insert_sorted [] l.

(** [heapq.nsmallest(n, iterable)]: the [n] smallest, in order *)
Definition nsmallest (n : nat) (l : list Z) : list Z := firstn n (sorted l).

(** [l[0]] *)
Definition first (l : list Z) : Res Z :=
  match l with
  | x :: _ => Ok x
  | [] => Raise IndexError
  end.

(** Example 8, with its assert *)
Definition example_8 : Res (list Z) :=
  let a := [] in
  let a := heappush a 5 in
  let a := heappush a 3 in
  let a := heappush a 7 in
  let a := heappush a 4 in
  bind (first a) (fun x =>
  bind (first (nsmallest 1 a)) (fun y =>
  bind (assert_ ((x =? y) && (y =? 3))) (fun _ =>
  Ok a))).

(** The loop of [heapq._siftup(heap, pos)]: the smaller child moves up
    until a leaf is reached.  [fuel] bounds the rounds of the loop;
    [endpos] suffices, since [pos] grows in each round. *)
Fixpoint siftup_loop (fuel : nat) (heap : list Z) (endpos pos : nat)
  : list Z * nat :=
  match fuel with
  | O => (heap, pos)
  | S fuel' =>
      let childpos := (2 * pos + 1)%nat in
      if (childpos <? endpos)%nat then
        let rightpos := (childpos + 1)%nat in
        let childpos :=
          match heap !! childpos, heap !! rightpos with
          | Some child, Some other =>
              if (rightpos <? endpos)%nat && negb (child <? other)
              then rightpos else childpos
          | _, _ => childpos
          end in
        match heap !! childpos with
        | Some child =>
            siftup_loop fuel' (<[pos := child]> heap) endpos childpos
        | None => (heap, pos)
        end
      else (heap, pos)
  end.

(** [heapq._siftup(heap, pos)]: the item at [pos] goes to a leaf and is
    sifted back from there. *)
Definition siftup (heap : list Z) (pos : nat) : list Z :=
  let endpos := List.length heap in
  let startpos := pos in
  match heap !! pos with
  | Some newitem =>
      let '(heap, pos) := siftup_loop endpos heap endpos pos in
      siftdown (<[pos := newitem]> heap) startpos pos
  | None => heap
  end.

(** [heapq.heappop(heap)]: the item returned and the heap that is left;
    [heap.pop()] raises IndexError for an empty list. *)
Definition heappop (heap : list Z) : Res (Z * list Z) :=
  match rev heap with
  | [] => Raise IndexError
  | lastelt :: _ =>
      match removelast heap with
      | [] => Ok (lastelt, [])
      | returnitem :: rest =>
          Ok (returnitem, siftup (lastelt :: rest) 0)
      end
  end.

(** Example 6 *)
Definition example_6 : list Z :=
  let a := [] in
  let a := heappush a 5 in
  let a := heappush a 3 in
  let a := heappush a 7 in
  let a := heappush a 4 in
  a.

(** Example 7: the four items printed in one line, and the list left *)
Definition example_7 (a : list Z) : Res (list Z * list Z) :=
  bind (heappop a) (fun '(x1, a) =>
  bind (heappop a) (fun '(x2, a) =>
  bind (heappop a) (fun '(x3, a) =>
  bind (heappop a) (fun '(x4, a) =>
  Ok ([x1; x2; x3; x4], a))))).

(** Example 9: the list printed before and after [a.sort()] *)
Definition example_9 (a : list Z) : list (string * list Z) :=
  [("Before:", a); ("After: ", sorted a)].


End BuiltinAlgorithms.

(** ** Serialization with [pickle] and [copyreg] (unnamed notebook 2) *)

Module PickleCopyreg.
Import Py FS.

(** A class made by a [class] statement.  [c_id] is the number of the
    statement, so two statements of one name make two classes.  The
    parameters of [__init__] (after [self]) all have defaults and are
    stored as the attributes of their names; [c_fixed] are the
    attributes an [__init__] without parameters sets. *)
Record class_ := {
  c_id : nat;
  c_name : string;
  c_params : list param;
  c_fixed : gmap string value
}.

(** The two definitions of each helper, named by their examples *)
Inductive reducer := pickle_game_state_10 | pickle_game_state_18.
Inductive constructor := unpickle_game_state_11 | unpickle_game_state_19.

(** What is serialized and deserialized, with the number of class
    statements the program had executed by then *)
Inductive event :=
| Saved (data : pickled) (class_statements : nat)
| Restored (data : pickled) (class_statements : nat).

Inductive shown :=
| ShownDict (d : gmap string value)
| ShownPath (module_ name : string).

(** The objects, the files, the classes made so far, the names of
    [__main__] the cells bind, [copyreg.dispatch_table] (the latest
    registration first), and what was serialized, printed and logged. *)
Record session := {
  the_heap : heap;
  the_files : files;
  classes : list class_;
  GameState : option class_;
  BetterGameState : option class_;
  pickle_game_state : option reducer;
  unpickle_game_state : option constructor;
  dispatch_table : list (nat * reducer);
  events : list event;
  printed : list shown;
  logged : list log_record
}.

Definition set_the_heap (v : heap) (s : session) : session :=
  {| the_heap := v;
     the_files := the_files s;
     classes := classes s;
     GameState := GameState s;
     BetterGameState := BetterGameState s;
     pickle_game_state := pickle_game_state s;
     unpickle_game_state := unpickle_game_state s;
     dispatch_table := dispatch_table s;
     events := events s;
     printed := printed s;
     logged := logged s |}.

Definition set_the_files (v : files) (s : session) : session :=
  {| the_heap := the_heap s;
     the_files := v;
     classes := classes s;
     GameState := GameState s;
     BetterGameState := BetterGameState s;
     pickle_game_state := pickle_game_state s;
     unpickle_game_state := unpickle_game_state s;
     dispatch_table := dispatch_table s;
     events := events s;
     printed := printed s;
     logged := logged s |}.

Definition set_classes (v : list class_) (s : session) : session :=
  {| the_heap := the_heap s;
     the_files := the_files s;
     classes := v;
     GameState := GameState s;
     BetterGameState := BetterGameState s;
     pickle_game_state := pickle_game_state s;
     unpickle_game_state := unpickle_game_state s;
     dispatch_table := dispatch_table s;
     events := events s;
     printed := printed s;
     logged := logged s |}.

Definition set_GameState (v : option class_) (s : session) : session :=
  {| the_heap := the_heap s;
     the_files := the_files s;
     classes := classes s;
     GameState := v;
     BetterGameState := BetterGameState s;
     pickle_game_state := pickle_game_state s;
     unpickle_game_state := unpickle_game_state s;
     dispatch_table := dispatch_table s;
     events := events s;
     printed := printed s;
     logged := logged s |}.

Definition set_BetterGameState (v : option class_) (s : session) : session :=
  {| the_heap := the_heap s;
     the_files := the_files s;
     classes := classes s;
     GameState := GameState s;
     BetterGameState := v;
     pickle_game_state := pickle_game_state s;
     unpickle_game_state := unpickle_game_state s;
     dispatch_table := dispatch_table s;
     events := events s;
     printed := printed s;
     logged := logged s |}.

Definition set_pickle_game_state (v : option reducer) (s : session) : session :=
  {| the_heap := the_heap s;
     the_files := the_files s;
     classes := classes s;
     GameState := GameState s;
     BetterGameState := BetterGameState s;
     pickle_game_state := v;
     unpickle_game_state := unpickle_game_state s;
     dispatch_table := dispatch_table s;
     events := events s;
     printed := printed s;
     logged := logged s |}.

Definition set_unpickle_game_state (v : option constructor) (s : session) : session :=
  {| the_heap := the_heap s;
     the_files := the_files s;
     classes := classes s;
     GameState := GameState s;
     BetterGameState := BetterGameState s;
     pickle_game_state := pickle_game_state s;
     unpickle_game_state := v;
     dispatch_table := dispatch_table s;
     events := events s;
     printed := printed s;
     logged := logged s |}.

Definition set_dispatch_table (v : list (nat * reducer)) (s : session) : session :=
  {| the_heap := the_heap s;
     the_files := the_files s;
     classes := classes s;
     GameState := GameState s;
     BetterGameState := BetterGameState s;
     pickle_game_state := pickle_game_state s;
     unpickle_game_state := unpickle_game_state s;
     dispatch_table := v;
     events := events s;
     printed := printed s;
     logged := logged s |}.

Definition set_events (v : list event) (s : session) : session :=
  {| the_heap := the_heap s;
     the_files := the_files s;
     classes := classes s;
     GameState := GameState s;
     BetterGameState := BetterGameState s;
     pickle_game_state := pickle_game_state s;
     unpickle_game_state := unpickle_game_state s;
     dispatch_table := dispatch_table s;
     events := v;
     printed := printed s;
     logged := logged s |}.

Definition set_printed (v : list shown) (s : session) : session :=
  {| the_heap := the_heap s;
     the_files := the_files s;
     classes := classes s;
     GameState := GameState s;
     BetterGameState := BetterGameState s;
     pickle_game_state := pickle_game_state s;
     unpickle_game_state := unpickle_game_state s;
     dispatch_table := dispatch_table s;
     events := events s;
     printed := v;
     logged := logged s |}.

Definition set_logged (v : list log_record) (s : session) : session :=
  {| the_heap := the_heap s;
     the_files := the_files s;
     classes := classes s;
     GameState := GameState s;
     BetterGameState := BetterGameState s;
     pickle_game_state := pickle_game_state s;
     unpickle_game_state := unpickle_game_state s;
     dispatch_table := dispatch_table s;
     events := events s;
     printed := printed s;
     logged := v |}.

Definition initial (fs : files) : session :=
  {| the_heap := empty_heap; the_files := fs; classes := [];
     GameState := None; BetterGameState := None;
     pickle_game_state := None; unpickle_game_state := None;
     dispatch_table := []; events := []; printed := []; logged := [] |}.

Definition new (o : object) : stmt session value :=
  fun s =>
    let '(l, h) := alloc o (the_heap s) in
    (Ok (VRef l), set_the_heap h s).

Definition io {A} (c : stmt files A) : stmt session A :=
  fun s =>
    let '(r, fs) := c (the_files s) in
    (r, set_the_files fs s).

Definition record (e : event) : stmt session unit :=
  modify (fun s => set_events (append (events s) e) s).

Definition print (x : shown) : stmt session unit :=
  modify (fun s => set_printed (append (printed s) x) s).

Definition log (msg : string) (exc : option exn_class) : stmt session unit :=
  modify (fun s => set_logged
                     (append (logged s)
                        {| message := msg; exc_info := exc |}) s).

(** The session with files added underneath *)
Definition overlay (s : session) (fs : files) : session :=
  set_the_files (the_files s ∪ fs) s.

(** The paths of the files of a session *)
Definition dom_is (D : gset string) (s : session) : Prop :=
  dom (the_files s) = D.

Definition within (D : gset string) (s : session) : Prop :=
  dom (the_files s) ⊆ D.

(** What can be observed of a run of the session *)
Definition observe {A} (r : Res A * session)
  : Res A * list shown * list log_record * list event :=
  (fst r, printed (snd r), logged (snd r), events (snd r)).

Definition independent {A} (own : gset string)
    (c : files -> Res A * session) : Prop :=
  forall fs fs',
    observe (c fs) = observe (c fs')
    /\ forall path, path ∉ own ->
         the_files (snd (c fs)) !! path = fs !! path.

(** The object a value refers to *)
Definition deref (v : value) : stmt session (option object) :=
  read (fun s => match v with
                 | VRef l => objects (the_heap s) !! l
                 | _ => None
                 end).

(** The [__dict__] of an instance *)
Definition dict_of (obj : value) : stmt session (gmap string value) :=
  o <- deref obj ;;
  match o with
  | Some (OInstance _ d) => ret d
  | _ => raise AttributeError
  end.

Definition store_at (l : loc) (o : object) : stmt session unit :=
  modify (fun s => set_the_heap (store l o (the_heap s)) s).

(** [obj.name += n] *)
Definition increase (obj : value) (name : string) (n : Z)
  : stmt session unit :=
  o <- deref obj ;;
  match obj, o with
  | VRef l, Some (OInstance c d) =>
      match d !! name with
      | Some (VInt m) => store_at l (OInstance c (<[name := VInt (m + n)]> d))
      | Some _ => raise TypeError
      | None => raise AttributeError
      end
  | _, _ => raise AttributeError
  end.

(** A [class] statement: the class gets the next number, and the name is
    bound to it. *)
Definition class_statement (name : string) (params : list param)
    (fixed : gmap string value) (bind_name : class_ -> session -> session)
  : stmt session unit :=
  modify (fun s =>
            let c := {| c_id := List.length (classes s); c_name := name;
                        c_params := params; c_fixed := fixed |} in
            bind_name c (set_classes (append (classes s) c) s)).

(** [C( **kwargs)]: the arguments are bound to the parameters of
    [__init__], which stores them. *)
Definition construct (c : class_) (kwargs : gmap string value)
  : stmt session value :=
  e <- lift (bind_arguments (c_params c) [] (map_to_list kwargs)) ;;
  new (OInstance (c_id c) (e ∪ c_fixed c)).

(** [GameState( **kwargs)], with the class the name is bound to when the
    call runs *)
Definition call_GameState (kwargs : gmap string value) : stmt session value :=
  c <- read GameState ;;
  match c with
  | Some c => construct c kwargs
  | None => raise NameError
  end.

Definition call_BetterGameState (kwargs : gmap string value)
  : stmt session value :=
  c <- read BetterGameState ;;
  match c with
  | Some c => construct c kwargs
  | None => raise NameError
  end.

(** *** [copyreg] and [pickle] *)

(** [copyreg.pickle(cls, function)] *)
Definition copyreg_pickle (c : option class_) (f : option reducer)
  : stmt session unit :=
  match c, f with
  | Some c, Some f =>
      modify (fun s => set_dispatch_table ((c_id c, f) :: dispatch_table s) s)
  | _, _ => raise NameError
  end.

Fixpoint registered (table : list (nat * reducer)) (cid : nat)
  : option reducer :=
  match table with
  | [] => None
  | (c, f) :: table' => if Nat.eqb c cid then Some f else registered table' cid
  end.

(** A global is pickled as its import path; the name must be bound when
    the function that returns it runs. *)
Definition unpickle_game_state_path : stmt session (string * string) :=
  f <- read unpickle_game_state ;;
  match f with
  | Some _ => ret ("__main__", "unpickle_game_state")
  | None => raise NameError
  end.

(** The registered function applied to the instance at [l], whose
    [__dict__] is [d] *)
Definition reduce (f : reducer) (l : loc) (cid : nat)
    (d : gmap string value) : stmt session pickled :=
  match f with
  | pickle_game_state_10 =>
      (* Example 10 *)
      let kwargs := d in
      path <- unpickle_game_state_path ;;
      ret (PReduce (fst path) (snd path) kwargs)
  | pickle_game_state_18 =>
      (* Example 18: [kwargs] is the instance's own [__dict__] *)
      let kwargs := <["version" := VInt 2]> d in
      store_at l (OInstance cid kwargs) ;;;
      path <- unpickle_game_state_path ;;
      ret (PReduce (fst path) (snd path) kwargs)
  end.

Definition bound_class (name : string) (s : session) : option class_ :=
  if String.eqb name "GameState" then GameState s
  else if String.eqb name "BetterGameState" then BetterGameState s
  else None.

(** [pickle.dumps(obj)]: through the function registered for the class
    of [obj], or else the class by its import path (which must lead to
    that very class) and the [__dict__].  The classes and functions of
    the notebook are globals of [__main__], and the attributes of its
    instances are integers, which are pickled by value; an attribute that
    refers to another object would have that object pickled with it,
    which is not represented here. *)
Definition dumps (obj : value) : stmt session pickled :=
  o <- deref obj ;;
  match obj, o with
  | VRef l, Some (OInstance cid d) =>
      f <- read (fun s => registered (dispatch_table s) cid) ;;
      data <- match f with
              | Some f => reduce f l cid d
              | None =>
                  c <- read (fun s => nth_error (classes s) cid) ;;
                  match c with
                  | Some c =>
                      c' <- read (bound_class (c_name c)) ;;
                      match c' with
                      | Some c' =>
                          if Nat.eqb (c_id c') cid
                          then ret (PInstance "__main__" (c_name c) d)
                          else raise PicklingError
                      | None => raise PicklingError
                      end
                  | None => raise PicklingError
                  end
              end ;;
      n <- read (fun s => List.length (classes s)) ;;
      record (Saved data n) ;;;
      ret data
  | _, _ => raise PicklingError
  end.

(** The function a pickled path leads to, applied to the pickled
    arguments *)
Definition construct_with (f : constructor) (kwargs : gmap string value)
  : stmt session value :=
  match f with
  | unpickle_game_state_11 =>
      (* Example 11 *)
      call_GameState kwargs
  | unpickle_game_state_19 =>
      (* Example 19 *)
      let '(version, kwargs) :=
        match kwargs !! "version" with
        | Some v => (v, delete "version" kwargs)
        | None => (VInt 1, kwargs)
        end in
      kwargs <- (if py_eq version (VInt 1)
                 then match kwargs !! "lives" with
                      | Some _ => ret (delete "lives" kwargs)
                      | None => raise KeyError
                      end
                 else ret kwargs) ;;
      call_GameState kwargs
  end.

(** [pickle.loads(data)]: a pickled instance becomes an instance of the
    class its path leads to now, with the pickled [__dict__] and no call
    of [__init__]; a pickled call is made with the function its path
    leads to now.  The names are looked up in [__main__], the module of
    every path that [dumps] writes; data that names another module is
    not represented here. *)
Definition loads (data : pickled) : stmt session value :=
  v <- match data with
       | PInstance _ name attributes =>
           c <- read (bound_class name) ;;
           match c with
           | Some c => new (OInstance (c_id c) attributes)
           | None => raise AttributeError
           end
       | PReduce _ name kwargs =>
           f <- read unpickle_game_state ;;
           match f with
           | Some f =>
               if String.eqb name "unpickle_game_state"
               then construct_with f kwargs
               else raise AttributeError
           | None => raise AttributeError
           end
       end ;;
  n <- read (fun s => List.length (classes s)) ;;
  record (Restored data n) ;;;
  ret v.

(** [f.write] of the stream [pickle.dump] makes *)
Definition write_pickled (f : handle) (data : pickled) : stmt session unit :=
  modify (fun s => set_the_files (<[h_path f := Pickle data]> (the_files s)) s).

(** [with open(path, 'wb') as f: pickle.dump(obj, f)] *)
Definition dump_to (path : string) (obj : value) : stmt session unit :=
  f <- io (open_ path WB) ;;
  data <- dumps obj ;;
  write_pickled f data.

(** [with open(path, 'rb') as f: pickle.load(f)] *)
Definition load_from (path : string) : stmt session value :=
  f <- io (open_ path RB) ;;
  c <- read (fun s => the_files s !! h_path f) ;;
  match c with
  | Some (Pickle data) => loads data
  | _ => raise UnpicklingError
  end.

(** [isinstance(obj, cls)]; the classes here have no subclasses. *)
Definition isinstance (obj : value) (c : option class_) : stmt session bool :=
  o <- deref obj ;;
  match c with
  | Some c =>
      match o with
      | Some (OInstance cid _) => ret (Nat.eqb cid (c_id c))
      | _ => ret false
      end
  | None => raise NameError
  end.

(** [print(obj.__dict__)] *)
Definition print_dict (obj : value) : stmt session unit :=
  d <- dict_of obj ;;
  print (ShownDict d).

(** [print(serialized[:n])]: of the first bytes, the import path *)
Definition print_path (data : pickled) : stmt session unit :=
  match data with
  | PInstance m name _ | PReduce m name _ => print (ShownPath m name)
  end.

(** *** The cells *)

Definition state_path : string := "game_state.bin".

Definition attributes (l : list (string * Z)) : gmap string value :=
  list_to_map (map (fun '(k, n) => (k, VInt n)) l).

Definition parameters (l : list (string * Z)) : list param :=
  map (fun '(k, n) => optional k (VInt n)) l.

Definition bind_GameState (c : class_) : session -> session :=
  set_GameState (Some c).

(** Example 1 *)
Definition example_1 : stmt session unit :=
  class_statement "GameState" []
    (attributes [("level", 0); ("lives", 4)]) bind_GameState.

(** Example 2 *)
Definition example_2 : stmt session value :=
  state <- call_GameState ∅ ;;
  increase state "level" 1 ;;;
  increase state "lives" (-1) ;;;
  ret state.

(** Example 3 *)
Definition example_3 (state : value) : stmt session unit :=
  dump_to state_path state.

(** Example 4 *)
Definition example_4 : stmt session value :=
  state_after <- load_from state_path ;;
  print_dict state_after ;;;
  ret state_after.

(** Example 5 *)
Definition example_5 : stmt session unit :=
  class_statement "GameState" []
    (attributes [("level", 0); ("lives", 4); ("points", 0)]) bind_GameState.

(** Example 6 *)
Definition example_6 : stmt session unit :=
  state <- call_GameState ∅ ;;
  serialized <- dumps state ;;
  state_after <- loads serialized ;;
  print_dict state_after.

(** Example 7 *)
Definition example_7 : stmt session value :=
  state_after <- load_from state_path ;;
  print_dict state_after ;;;
  ret state_after.

(** Example 8 *)
Definition example_8 (state_after : value) : stmt session unit :=
  c <- read GameState ;;
  b <- isinstance state_after c ;;
  assert_stmt b.

(** Example 9 *)
Definition example_9 : stmt session unit :=
  class_statement "GameState"
    (parameters [("level", 0); ("lives", 4); ("points", 0)]) ∅
    bind_GameState.

(** Examples 10 and 11: the two [def] statements bind the names. *)
Definition example_10 : stmt session unit :=
  modify (set_pickle_game_state (Some pickle_game_state_10)).

Definition example_11 : stmt session unit :=
  modify (set_unpickle_game_state (Some unpickle_game_state_11)).

(** Example 12 *)
Definition example_12 : stmt session unit :=
  c <- read GameState ;;
  f <- read pickle_game_state ;;
  copyreg_pickle c f.

(** Example 13 *)
Definition example_13 : stmt session pickled :=
  state <- call_GameState ∅ ;;
  increase state "points" 1000 ;;;
  serialized <- dumps state ;;
  state_after <- loads serialized ;;
  print_dict state_after ;;;
  ret serialized.

(** Example 14 *)
Definition example_14 : stmt session unit :=
  class_statement "GameState"
    (parameters [("level", 0); ("lives", 4); ("points", 0); ("magic", 5)]) ∅
    bind_GameState.

(** Example 15 *)
Definition example_15 (serialized : pickled) : stmt session value :=
  state_after <- loads serialized ;;
  print_dict state_after ;;;
  ret state_after.

(** Example 16 *)
Definition example_16 : stmt session unit :=
  class_statement "GameState"
    (parameters [("level", 0); ("points", 0); ("magic", 5)]) ∅
    bind_GameState.

(** Example 17 *)
Definition example_17 (serialized : pickled) : stmt session unit :=
  try_except_else_stmt
    (loads serialized)
    [(BaseException, fun e => log "Expected" (Some e))]
    (fun _ => assert_stmt false).

(** Examples 18 and 19 *)
Definition example_18 : stmt session unit :=
  modify (set_pickle_game_state (Some pickle_game_state_18)).

Definition example_19 : stmt session unit :=
  modify (set_unpickle_game_state (Some unpickle_game_state_19)).

(** Example 20 *)
Definition example_20 (serialized : pickled) : stmt session value :=
  c <- read GameState ;;
  f <- read pickle_game_state ;;
  copyreg_pickle c f ;;;
  state_after <- loads serialized ;;
  print_dict state_after ;;;
  ret state_after.

(** Example 21 *)
Definition example_21 : stmt session pickled :=
  modify (set_dispatch_table []) ;;;
  state <- call_GameState ∅ ;;
  serialized <- dumps state ;;
  modify (set_GameState None) ;;;
  class_statement "BetterGameState"
    (parameters [("level", 0); ("points", 0); ("magic", 5)]) ∅
    (fun c => set_BetterGameState (Some c)) ;;;
  ret serialized.

(** Example 22 *)
Definition example_22 (serialized : pickled) : stmt session unit :=
  try_except_else_stmt
    (loads serialized)
    [(BaseException, fun e => log "Expected" (Some e))]
    (fun _ => assert_stmt false).

(** Example 23 *)
Definition example_23 (serialized : pickled) : stmt session unit :=
  print_path serialized.

(** Example 24 *)
Definition example_24 : stmt session unit :=
  c <- read BetterGameState ;;
  f <- read pickle_game_state ;;
  copyreg_pickle c f.

(** Example 25 *)
Definition example_25 : stmt session pickled :=
  state <- call_BetterGameState ∅ ;;
  serialized <- dumps state ;;
  print_path serialized ;;;
  ret serialized.

(** The program up to and including Example 13; the result is
    [serialized]. *)
Definition through_example_13 : stmt session pickled :=
  example_1 ;;;
  state <- example_2 ;;
  example_3 state ;;;
  example_4 ;;;
  example_5 ;;;
  example_6 ;;;
  state_after <- example_7 ;;
  example_8 state_after ;;;
  example_9 ;;;
  example_10 ;;;
  example_11 ;;;
  example_12 ;;;
  example_13.

(** From Example 14 to the registration of Example 20 *)
Definition examples_14_to_19 (serialized : pickled) : stmt session unit :=
  example_14 ;;;
  example_15 serialized ;;;
  example_16 ;;;
  example_17 serialized ;;;
  example_18 ;;;
  example_19.

(** All code cells, in order *)
Definition notebook : stmt session unit :=
  serialized <- through_example_13 ;;
  examples_14_to_19 serialized ;;;
  example_20 serialized ;;;
  serialized <- example_21 ;;
  example_22 serialized ;;;
  example_23 serialized ;;;
  example_24 ;;;
  example_25 ;;;
  ret tt.





End PickleCopyreg.

(** ** v16: what the two loops look for *)

Module V16_spec.
Import Py V16.

(** The offsets after the spaces of [letters], the first letter being at
    [offset]: what both loops look for. *)
Fixpoint after_spaces (offset : Z) (letters : list ascii) : list Z :=
  match letters with
  | [] => []
  | letter :: rest =>
      (if Ascii.eqb letter " " then [offset + 1] else [])
        ++ after_spaces (offset + 1) rest
  end.

End V16_spec.

(** ** v09: what the loop of Example 1 writes *)

Module V09_spec.
Import Py FS V09.

(** The text the loop writes *)
Definition written (lengths : list Z) : list string :=
  map (fun n => String.append (a_times n) nl) lengths.

Fixpoint concat_all (texts : list string) : string :=
  match texts with
  | [] => ""
  | t :: texts' => String.append t (concat_all texts')
  end.

End V09_spec.

(** ** v13: the [try] block of [divide_json] *)

Module V13_spec.
Import Py Json V13.

Section Quotient.

Variable json_loads : string -> Res json.

(** The try body of [divide_json], on the text read from the file *)
Definition quotient (text : string) : Res (json * value) :=
  bind (json_loads text) (fun op =>
  bind (getitem op "numerator") (fun numerator =>
  bind (getitem op "denominator") (fun denominator =>
  bind (json_truediv numerator denominator) (fun value =>
  Ok (op, value))))).

End Quotient.

End V13_spec.

(** ** v30: the two buckets side by side *)

Module V30_spec.
Import Py V30.

(** The two buckets correspond when they have the same period, the same
    reset time and the same quota. *)
Definition corresponds (plain : Plain.Bucket) (bucket : Bucket) : Prop :=
  Plain.period_delta plain = period_delta bucket
  /\ Plain.reset_time plain = reset_time bucket
  /\ Plain.quota plain = quota bucket.

End V30_spec.

(** ** v37: [factorize], serially and in threads *)

Module V37.
Import Py.

(** [range(start, stop)] *)
Definition range (start stop : Z) : list Z :=
  map (fun k => start + Z.of_nat k) (List.seq 0 (Z.to_nat (stop - start))).

(** The generator object made by [factorize(number)]: suspended before
    its first statement, or at the [yield] with the range iterator still
    to deliver [rest], or finished. *)
Inductive generator :=
| NotStarted (number : Z)
| AtYield (number : Z) (rest : list Z)
| Finished.

(** The [for] loop over what the range iterator still delivers, run up to
    the next [yield i]; [None] when the loop ends. *)
Fixpoint run_loop (number : Z) (rest : list Z) : option (Z * generator) :=
  match rest with
  | [] => None
  | i :: rest' =>
      if number mod i =? 0
      then Some (i, AtYield number rest')
      else run_loop number rest'
  end.

(** Example 1 *)
Definition factorize (number : Z) : generator := NotStarted number.

(** [next(g)]: the value yielded, or [None] for StopIteration *)
Definition next (g : generator) : option Z * generator :=
  match g with
  | NotStarted number =>
      match run_loop number (range 1 (number + 1)) with
      | Some (v, g') => (Some v, g')
      | None => (None, Finished)
      end
  | AtYield number rest =>
      match run_loop number rest with
      | Some (v, g') => (Some v, g')
      | None => (None, Finished)
      end
  | Finished => (None, Finished)
  end.

(** [list(g)] calls [next] until StopIteration; [fuel] bounds the number
    of calls, [None] means the bound was hit. *)
Fixpoint list_fuel (fuel : nat) (g : generator) : option (list Z) :=
  match fuel with
  | O => None
  | S fuel' =>
      match next g with
      | (Some v, g') => option_map (cons v) (list_fuel fuel' g')
      | (None, _) => Some []
      end
  end.

(** What the range iterator of the generator still delivers *)
Definition pending (g : generator) : list Z :=
  match g with
  | NotStarted number => range 1 (number + 1)
  | AtYield _ rest => rest
  | Finished => []
  end.

Definition list_ (g : generator) : option (list Z) :=
  list_fuel (S (List.length (pending g))) g.

(** Example 2: the serial loop, with the lists it computes *)
Definition serial (numbers : list Z) : list (option (list Z)) :=
  map (fun number => list_ (factorize number)) numbers.

(** Example 3: a [FactorizeThread] that was started is inside
    [list(factorize(self.number))], with the items collected so far, or
    has assigned [self.factors] and returned from [run]. *)
Inductive thread :=
| Running (number : Z) (it : generator) (collected : list Z)
| Returned (number : Z) (factors : list Z).

(** One step of a thread: the next call of [next] by [list] *)
Definition step_thread (t : thread) : thread :=
  match t with
  | Running number it collected =>
      match next it with
      | (Some v, it') => Running number it' (append collected v)
      | (None, _) => Returned number collected
      end
  | Returned _ _ => t
  end.

(** Examples 4 and 5: the main thread has [to_start] numbers left in its
    first loop; [threads] is the list it appends to. *)
Record program := {
  to_start : list Z;
  threads : list thread
}.

Definition initial (numbers : list Z) : program :=
  {| to_start := numbers; threads := [] |}.

(** What the interpreter runs next: the main thread, or the thread
    started as number [k]. *)
Inductive turn :=
| Main
| Thread (k : nat).

(** A turn of the main thread in its first loop creates and starts a
    thread; in its second loop it waits in [join], which changes
    nothing.  A turn of a thread is a step of the thread. *)
Definition step (p : program) (t : turn) : program :=
  match t with
  | Main =>
      match to_start p with
      | number :: rest =>
          {| to_start := rest;
             threads := append (threads p)
                          (Running number (factorize number) []) |}
      | [] => p
      end
  | Thread k =>
      {| to_start := to_start p;
         threads := alter step_thread k (threads p) |}
  end.

Definition run (schedule : list turn) (p : program) : program :=
  fold_left step schedule p.

Definition returned (t : thread) : bool :=
  match t with
  | Returned _ _ => true
  | Running _ _ _ => false
  end.

(** The second loop of the main thread ends when every thread that was
    started has returned. *)
Definition joined (p : program) : bool :=
  match to_start p with
  | [] => forallb returned (threads p)
  | _ => false
  end.

Definition factors (t : thread) : option (list Z) :=
  match t with
  | Returned _ fs => Some fs
  | Running _ _ _ => None
  end.

(** The divisors still to be yielded from what the range iterator
    delivers *)
Definition divisors_in (number : Z) (rest : list Z) : list Z :=
  filter (fun i => number mod i = 0) rest.

(** What a generator still yields *)
Definition remaining (g : generator) : list Z :=
  match g with
  | NotStarted number => divisors_in number (range 1 (number + 1))
  | AtYield number rest => divisors_in number rest
  | Finished => []
  end.

(** What holds of a thread at every moment: the items collected and
    those its generator still yields are the factors of its number. *)
Definition thread_number (t : thread) : Z :=
  match t with
  | Running number _ _ | Returned number _ => number
  end.

Definition thread_ok (t : thread) : Prop :=
  match t with
  | Running number it collected =>
      collected ++ remaining it = remaining (factorize number)
  | Returned number factors => factors = remaining (factorize number)
  end.

Definition program_ok (numbers : list Z) (p : program) : Prop :=
  map thread_number (threads p) ++ to_start p = numbers
  /\ Forall thread_ok (threads p).

(** The work a program still has to do: a turn for every call of [next]
    that is left, and one more for every thread to start. *)
Definition work (t : thread) : nat :=
  match t with
  | Running _ it _ => S (List.length (pending it))
  | Returned _ _ => 0
  end.

Definition program_work (p : program) : nat :=
  list_sum (map (fun number =>
                   S (S (List.length (range 1 (number + 1))))) (to_start p))
  + list_sum (map work (threads p)).

End V37.

(** ** Default arguments: [log] and its default [when] (unnamed notebook 1) *)

Module DefaultWhen.
Import Py.

(** A [datetime], counted in microseconds *)
Definition datetime := Z.

Section Log.

(** [str(when)], as ['%s'] formats a datetime *)
Variable str_datetime : datetime -> string.

(** The clock that [datetime.now()] reads and [sleep] lets pass, the
    default kept by the function object [log] of Example 1 (unbound
    before the [def] is executed), and the lines printed. *)
Record state := {
  clock : datetime;
  log_default : option datetime;
  printed : list string
}.

Definition now : stmt state datetime := read clock.

(** [sleep(seconds)], in microseconds *)
Definition sleep (duration : Z) : stmt state unit :=
  modify (fun s => {| clock := clock s + duration;
                      log_default := log_default s;
                      printed := printed s |}).

(** [print('%s: %s' % (when, message))] *)
Definition print_line (when : datetime) (message : string)
  : stmt state unit :=
  modify (fun s =>
            {| clock := clock s; log_default := log_default s;
               printed := append (printed s)
                            (String.append (str_datetime when)
                               (String.append ": " message)) |}).

(** Example 1: executing [def log(message, when=datetime.now())]
    evaluates the default once. *)
Definition def_log : stmt state unit :=
  t <- now ;;
  modify (fun s => {| clock := clock s; log_default := Some t;
                      printed := printed s |}).

(** The body of that [log]; [when] is [None] for a call that leaves the
    argument out. *)
Definition log_shared (message : string) (when : option datetime)
  : stmt state unit :=
  when <- match when with
          | Some t => ret t
          | None =>
              d <- read log_default ;;
              match d with
              | Some t => ret t
              | None => raise NameError
              end
          end ;;
  print_line when message.

(** The second cell: [def log(message, when=None)] *)
Definition log (message : string) (when : option datetime)
  : stmt state unit :=
  when <- match when with
          | None => now
          | Some t => ret t
          end ;;
  print_line when message.

(** Example 1, for any two messages and any pause *)
Definition example_1 (message1 message2 : string) (pause : Z)
  : stmt state unit :=
  def_log ;;;
  log_shared message1 None ;;;
  sleep pause ;;;
  log_shared message2 None.

(** Example 3 *)
Definition example_3 (message1 message2 : string) (pause : Z)
  : stmt state unit :=
  log message1 None ;;;
  sleep pause ;;;
  log message2 None.

End Log.

End DefaultWhen.

(** ** Pickle and copyreg: two states of the notebook *)

Module PickleCopyreg_spec.
Import Py FS PickleCopyreg.

(** A value that [pickle] writes by value and that is equal to itself:
    [None], a boolean, an integer, a float that is a number, a string,
    bytes, or a list of such values.  It holds no reference to an object
    and no NaN. *)
Fixpoint plain (v : value) : bool :=
  match v with
  | VRef _ => false
  | VFloat S754_nan => false
  | VList l => forallb plain l
  | _ => true
  end.

(** The attributes are all plain, as those of the notebook's instances
    are. *)
Definition plain_attributes (d : gmap string value) : Prop :=
  map_Forall (fun _ v => plain v = true) d.

(** The program as it is when the notebook has run *)
Definition after_notebook : session := snd (notebook (initial ∅)).

(** The program after Examples 1 and 2: one class, one instance *)
Definition after_example_2 : session :=
  snd ((example_1 ;;; example_2) (initial ∅)).

End PickleCopyreg_spec.

(** ** v03: [to_str] and [to_bytes] *)

Module V03_text.

(** A [str] is a sequence of code points, [bytes] a sequence of values
    from 0 to 255. *)
Inductive str_or_bytes :=
| Str (s : list Z)
| Bytes_ (b : list Z).

Inductive unicode_error := UnicodeDecodeError | UnicodeEncodeError.

Inductive outcome (A : Type) :=
| Returned (a : A)
| Raised (e : unicode_error).
Arguments Returned {A} a.
Arguments Raised {A} e.

Definition and_then {A B} (r : outcome A) (f : A -> outcome B) : outcome B :=
  match r with
  | Returned a => f a
  | Raised e => Raised e
  end.

Definition between (lo hi b : Z) : bool := (lo <=? b) && (b <=? hi).

(** A continuation byte: [10xxxxxx] *)
Definition continuation (b : Z) : bool := between 128 191 b.

(** [c.encode('utf-8')] for one code point: one to four bytes; the
    surrogates [U+D800] to [U+DFFF] are not encoded. *)
Definition encode_char (c : Z) : outcome (list Z) :=
  if c <? 0 then Raised UnicodeEncodeError
  else if c <? 128 then Returned [c]
  else if c <? 2048 then Returned [192 + c / 64; 128 + c mod 64]
  else if c <? 65536 then
    if between 55296 57343 c then Raised UnicodeEncodeError
    else Returned [224 + c / 4096; 128 + (c / 64) mod 64; 128 + c mod 64]
  else if c <=? 1114111 then
    Returned [240 + c / 262144; 128 + (c / 4096) mod 64;
              128 + (c / 64) mod 64; 128 + c mod 64]
  else Raised UnicodeEncodeError.

(** [s.encode('utf-8')] *)
Fixpoint encode (s : list Z) : outcome (list Z) :=
  match s with
  | [] => Returned []
  | c :: s' =>
      and_then (encode_char c) (fun b =>
      and_then (encode s') (fun b' => Returned (b ++ b')))
  end.

(** [b.decode('utf-8')]: the lead byte tells the length of the sequence;
    sequences that are too long for their code point, encoded surrogates
    and code points beyond [U+10FFFF] are rejected with the second
    byte. *)
Fixpoint decode (b : list Z) : outcome (list Z) :=
  match b with
  | [] => Returned []
  | b0 :: rest =>
      if between 0 127 b0 then
        and_then (decode rest) (fun s => Returned (b0 :: s))
      else if between 194 223 b0 then
        match rest with
        | b1 :: rest' =>
            if continuation b1
            then and_then (decode rest') (fun s =>
                   Returned ((b0 - 192) * 64 + (b1 - 128) :: s))
            else Raised UnicodeDecodeError
        | _ => Raised UnicodeDecodeError
        end
      else if between 224 239 b0 then
        match rest with
        | b1 :: b2 :: rest' =>
            if between (if b0 =? 224 then 160 else 128)
                 (if b0 =? 237 then 159 else 191) b1
               && continuation b2
            then and_then (decode rest') (fun s =>
                   Returned ((b0 - 224) * 4096 + (b1 - 128) * 64
                             + (b2 - 128) :: s))
            else Raised UnicodeDecodeError
        | _ => Raised UnicodeDecodeError
        end
      else if between 240 244 b0 then
        match rest with
        | b1 :: b2 :: b3 :: rest' =>
            if between (if b0 =? 240 then 144 else 128)
                 (if b0 =? 244 then 143 else 191) b1
               && continuation b2 && continuation b3
            then and_then (decode rest') (fun s =>
                   Returned ((b0 - 240) * 262144 + (b1 - 128) * 4096
                             + (b2 - 128) * 64 + (b3 - 128) :: s))
            else Raised UnicodeDecodeError
        | _ => Raised UnicodeDecodeError
        end
      else Raised UnicodeDecodeError
  end.

(** The first cell *)
Definition to_str (bytes_or_str : str_or_bytes) : outcome str_or_bytes :=
  match bytes_or_str with
  | Bytes_ b => and_then (decode b) (fun s => Returned (Str s))
  | Str _ => Returned bytes_or_str
  end.

(** The second cell *)
Definition to_bytes (bytes_or_str : str_or_bytes) : outcome str_or_bytes :=
  match bytes_or_str with
  | Str s => and_then (encode s) (fun b => Returned (Bytes_ b))
  | Bytes_ _ => Returned bytes_or_str
  end.

End V03_text.

(** ** v43: the context managers for the logging level *)

Module V43_logging.
Import Py.

(** The levels of the [logging] module *)
Definition NOTSET : Z := 0.
Definition DEBUG : Z := 10.
Definition WARNING : Z := 30.
Definition ERROR : Z := 40.

(** The root logger or a logger with a name *)
Inductive logger :=
| Root
| Named (name : string).

(** The level of the root logger, the loggers made so far with their own
    levels, and the lines the handler of the root logger wrote and
    [print] printed. *)
Record state := {
  root_level : Z;
  levels : gmap string Z;
  written : list string;
  printed : list string
}.

(** The state when the notebook starts: the root logger is at WARNING. *)
Definition initial : state :=
  {| root_level := WARNING; levels := ∅; written := []; printed := [] |}.

Definition set_root_level (level : Z) (s : state) : state :=
  {| root_level := level; levels := levels s;
     written := written s; printed := printed s |}.

Definition set_levels (ls : gmap string Z) (s : state) : state :=
  {| root_level := root_level s; levels := ls;
     written := written s; printed := printed s |}.

Section Loggers.

(** Whether [logging.getLogger('root')] is the root logger, as it is
    from Python 3.9 on; before that (the notebook ran on 3.6) ['root']
    names a logger of its own. *)
Variable root_by_name : bool.

Definition names_root (name : string) : bool :=
  String.eqb name "" || (root_by_name && String.eqb name "root").

(** [logging.getLogger(name)]: the root logger for the empty name;
    otherwise the logger of that name, which is made, at NOTSET, when
    there is none. *)
Definition getLogger (name : string) : stmt state logger :=
  fun s =>
    if names_root name then (Ok Root, s)
    else
      (Ok (Named name),
       match levels s !! name with
       | Some _ => s
       | None => set_levels (<[name := NOTSET]> (levels s)) s
       end).

(** The names of which [name] is a dotted continuation, the longest
    first: ["a.b"] and ["a"] for ["a.b.c"]. *)
Fixpoint dotted_prefixes (before : string) (name : string) : list string :=
  match name with
  | EmptyString => []
  | String c rest =>
      let longer := dotted_prefixes (String.append before (String c "")) rest in
      if Ascii.eqb c "." then longer ++ [before] else longer
  end.

(** The first level that is set, from the loggers that exist *)
Fixpoint first_set (ls : gmap string Z) (names : list string) (root : Z) : Z :=
  match names with
  | [] => root
  | name :: names' =>
      match ls !! name with
      | Some level => if level =? 0 then first_set ls names' root else level
      | None => first_set ls names' root
      end
  end.

(** [logger.getEffectiveLevel()]: the logger's own level when it is set,
    else that of the nearest ancestor that has one, up to the root *)
Definition getEffectiveLevel (lg : logger) (s : state) : Z :=
  match lg with
  | Root => root_level s
  | Named name =>
      first_set (levels s) (name :: dotted_prefixes "" name) (root_level s)
  end.

(** [logger.setLevel(level)] *)
Definition setLevel (lg : logger) (level : Z) : stmt state unit :=
  modify (fun s =>
            match lg with
            | Root => set_root_level level s
            | Named name => set_levels (<[name := level]> (levels s)) s
            end).

Definition logger_name (lg : logger) : string :=
  match lg with
  | Root => "root"
  | Named name => name
  end.

(** [logger.debug(message)] and the like: the record is written when the
    level is at least the effective level of the logger, as
    [LEVEL:name:message]. *)
Definition log_at (lg : logger) (level : Z) (levelname message : string)
  : stmt state unit :=
  modify (fun s =>
            if getEffectiveLevel lg s <=? level
            then {| root_level := root_level s; levels := levels s;
                    written :=
                      append (written s)
                        (String.append levelname
                           (String.append ":"
                              (String.append (logger_name lg)
                                 (String.append ":" message))));
                    printed := printed s |}
            else s).

Definition debug (lg : logger) (message : string) : stmt state unit :=
  log_at lg DEBUG "DEBUG" message.

Definition error (lg : logger) (message : string) : stmt state unit :=
  log_at lg ERROR "ERROR" message.

Definition print (line : string) : stmt state unit :=
  modify (fun s => {| root_level := root_level s; levels := levels s;
                      written := written s;
                      printed := append (printed s) line |}).

(** Example 3 *)
Definition my_function : stmt state unit :=
  debug Root "Some debug data" ;;;
  error Root "Error log here" ;;;
  debug Root "More debug data".

(** Example 5: [with debug_logging(level): body].  The function runs up
    to its [yield], the block runs, and the [finally] clause runs
    whether the block raised or not. *)
Definition debug_logging {A} (level : Z) (body : stmt state A) : stmt state A :=
  let logger := Root in
  old_level <- read (getEffectiveLevel logger) ;;
  setLevel logger level ;;;
  try_finally body (setLevel logger old_level).

(** Example 8: [with log_level(level, name) as logger: body] *)
Definition log_level {A} (level : Z) (name : string)
    (body : logger -> stmt state A) : stmt state A :=
  logger <- getLogger name ;;
  old_level <- read (getEffectiveLevel logger) ;;
  setLevel logger level ;;;
  try_finally (body logger) (setLevel logger old_level).

(** Example 6 *)
Definition example_6 : stmt state unit :=
  debug_logging DEBUG
    (print "Inside:" ;;;
     my_function) ;;;
  print "After:" ;;;
  my_function.

(** Example 9 *)
Definition example_9 : stmt state unit :=
  log_level DEBUG "my-log" (fun logger =>
    debug logger "This is my message!" ;;;
    debug Root "This will not print").

(** Example 10 *)
Definition example_10 : stmt state unit :=
  logger <- getLogger "my-log" ;;
  debug logger "Debug will not print" ;;;
  error logger "Error will print".

End Loggers.

End V43_logging.


(** * Theorems *)

Set Warnings "-clear-no-such-hyp".

(** ** v16: the generator produces the list of the list-returning version *)

Section V16_facts.
Import Py V16.

Lemma run_loop_None index rest :
  run_loop index rest = None ->
  forall acc,
    fold_left
      (fun result '(index, letter) =>
         if Ascii.eqb letter " " then append result (index + 1) else result)
      (enumerate_from index rest) acc = acc.
Proof.
  revert index. induction rest as [|letter rest IH]; intros index H acc.
  - reflexivity.
  - simpl in *. destruct (Ascii.eqb letter " "); [discriminate|].
    now apply IH.
Qed.

Lemma list_fuel_step_cons acc v (o : option (list Z)) :
  option_map (app acc) (option_map (cons v) o)
  = option_map (app (append acc v)) o.
Proof.
  destruct o as [l|]; simpl; [|reflexivity].
  unfold append. now rewrite <- app_assoc.
Qed.

(** Resumed inside the loop, the generator yields what the loop of
    [index_words] appends from the same position on. *)
Lemma loop_refines rest :
  forall index fuel acc,
    (List.length rest < fuel)%nat ->
    option_map (app acc) (list_fuel fuel (AtYield index rest))
    = Some (fold_left
              (fun result '(index, letter) =>
                 if Ascii.eqb letter " "
                 then append result (index + 1) else result)
              (enumerate_from index rest) acc).
Proof.
  induction rest as [|letter rest IH]; intros index fuel acc Hfuel.
  - destruct fuel as [|fuel]; [inversion Hfuel|].
    simpl. now rewrite app_nil_r.
  - destruct fuel as [|fuel]; [inversion Hfuel|].
    simpl in Hfuel.
    cbn [enumerate_from fold_left].
    destruct (Ascii.eqb letter " ") eqn:Hsp.
    + cbn [list_fuel next run_loop]. rewrite Hsp.
      rewrite list_fuel_step_cons. apply IH. lia.
    + rewrite <- (IH (index + 1) (S fuel) acc) by lia.
      cbn [list_fuel next run_loop]. rewrite Hsp. reflexivity.
Qed.

Lemma length_list_ascii_of_string s :
  List.length (list_ascii_of_string s) = String.length s.
Proof. induction s as [|c s IH]; simpl; congruence. Qed.

(** C8: for every string [text], [list(index_words_iter(text))] returns
    (the collection reaches StopIteration) and equals [index_words(text)]. *)
Theorem index_words_iter_refines (text : string) :
  list_ (index_words_iter text) = Some (index_words text).
Proof.
  unfold list_, index_words_iter, index_words, enumerate.
  destruct text as [|c s]; [reflexivity|].
  set (text := String c s).
  assert (Hlen : (List.length (list_ascii_of_string text)
                  < S (String.length text))%nat).
  { rewrite length_list_ascii_of_string. lia. }
  pose proof (loop_refines _ 0 _ (append [] 0) Hlen) as H.
  change (list_fuel (S (pending (NotStarted text))) (NotStarted text))
    with (option_map (cons 0)
            (list_fuel (S (String.length text))
               (AtYield 0 (list_ascii_of_string text)))).
  change (str_truthy text) with true. cbv iota.
  rewrite <- H.
  now destruct (list_fuel _ _).
Qed.

Example index_words_address :
  index_words "Four score and seven years ago..." = [0; 5; 11; 15; 21; 27]
  /\ list_ (index_words_iter "Four score and seven years ago...")
     = Some [0; 5; 11; 15; 21; 27].
Proof. split; reflexivity. Qed.

End V16_facts.

(** ** v30: what the bucket's operations preserve *)

Section V30_facts.
Import Py V30.

Example example_10_printed :
  example_10 0 1 2 3
  = (Ok ([ {| period_delta := 60; reset_time := 0;
              max_quota := 0; quota_consumed := 0 |};
           {| period_delta := 60; reset_time := 0;
              max_quota := 100; quota_consumed := 0 |};
           {| period_delta := 60; reset_time := 0;
              max_quota := 100; quota_consumed := 99 |};
           {| period_delta := 60; reset_time := 0;
              max_quota := 100; quota_consumed := 99 |} ],
         [true; false]),
     {| period_delta := 60; reset_time := 0;
        max_quota := 100; quota_consumed := 99 |}).
Proof. reflexivity. Qed.

Example plain_bucket_examples_4_to_6 :
  let bucket := Plain.init 60 0 in
  let '(_, b4) := fill 1 100 bucket in
  let '(r5, b5) := deduct 2 99 b4 in
  let '(r6, b6) := deduct 3 3 b5 in
  (Plain.quota b4, r5, Plain.quota b5, r6, Plain.quota b6)
  = (100, Ok true, 1, Ok false, 1).
Proof. reflexivity. Qed.

Ltac setter_cases :=
  repeat match goal with
         | |- context [if ?c then _ else _] => destruct c eqn:?
         end;
  cbn [snd fst max_quota quota_consumed with_max_quota with_quota_consumed] in *.

Lemma quota_setter_nonneg amount bucket :
  fields_nonneg bucket -> fields_nonneg (snd (quota_setter amount bucket)).
Proof.
  unfold fields_nonneg, quota_setter. intros [Hc Hm].
  setter_cases; lia.
Qed.

Lemma fill_nonneg now amount bucket :
  fields_nonneg bucket -> fields_nonneg (snd (fill now amount bucket)).
Proof.
  intros Hb. unfold fill, seq, read, ret, assign_reset_time.
  cbn [set_quota get_quota get_reset_time get_period_delta set_reset_time
       bucket_like].
  destruct (now - reset_time bucket >? period_delta bucket).
  - pose proof (quota_setter_nonneg 0 bucket Hb) as H0.
    destruct (quota_setter 0 bucket) as [[[]|e] b0]; cbn [snd] in *.
    + apply quota_setter_nonneg. exact H0.
    + exact H0.
  - apply quota_setter_nonneg. exact Hb.
Qed.

Lemma deduct_nonneg now amount bucket :
  fields_nonneg bucket -> fields_nonneg (snd (deduct now amount bucket)).
Proof.
  intros Hb. unfold deduct, seq, read, ret.
  cbn [set_quota get_quota get_reset_time get_period_delta bucket_like].
  destruct (now - reset_time bucket >? period_delta bucket); [exact Hb|].
  destruct (quota bucket - amount <? 0); [exact Hb|].
  pose proof (quota_setter_nonneg (quota bucket - amount) bucket Hb) as H0.
  destruct (quota_setter (quota bucket - amount) bucket) as [[[]|e] b0];
    exact H0.
Qed.

Lemma fields_nonneg_invariant : invariant fields_nonneg.
Proof.
  unfold invariant. split; [|split; [|split]].
  - intros period t. unfold fields_nonneg. cbn. lia.
  - intros t amount bucket. apply fill_nonneg.
  - intros t amount bucket. apply deduct_nonneg.
  - intros amount bucket. apply quota_setter_nonneg.
Qed.

(** [quota] is computed from the two fields by its getter. *)
Lemma getter_invariant :
  invariant (fun b => quota b = max_quota b - quota_consumed b).
Proof. unfold invariant. split; [|split; [|split]]; reflexivity. Qed.

(** C1, as stated, fails: the predicate [quota == max_quota -
    quota_consumed] named by the claim is established by the constructor
    and preserved by every [fill], [deduct] and assignment to [quota] with
    an integer amount, and so is a predicate that excludes some
    buckets. *)
Lemma bucket_has_invariants :
  invariant (fun b => quota b = max_quota b - quota_consumed b)
  /\ exists P : Bucket -> Prop, (exists b, ~ P b) /\ invariant P.
Proof.
  split; [exact getter_invariant|].
  exists fields_nonneg. split; [|exact fields_nonneg_invariant].
  exists {| period_delta := 0; reset_time := 0;
            max_quota := 0; quota_consumed := -1 |}.
  unfold fields_nonneg. cbn. lia.
Qed.

Lemma after_all_snoc os o bucket :
  after_all (os ++ [o]) bucket = after o (after_all os bucket).
Proof. unfold after_all. now rewrite fold_left_app. Qed.

(** C1, amended: in every state reached from the constructor by [fill],
    [deduct] and assignments to [quota] with integer amounts (whatever
    the clock reads, calls that raise included), [quota == max_quota -
    quota_consumed], [quota_consumed >= 0] and [max_quota >= 0] hold. *)
Theorem bucket_invariant (period : Z) (now : datetime)
    (os : list operation) :
  let bucket := after_all os (init period now) in
  quota bucket = max_quota bucket - quota_consumed bucket
  /\ 0 <= quota_consumed bucket /\ 0 <= max_quota bucket.
Proof.
  cbv zeta. split; [reflexivity|].
  change (fields_nonneg (after_all os (init period now))).
  induction os as [|o os IH] using rev_ind.
  - cbn. unfold fields_nonneg. cbn. lia.
  - rewrite after_all_snoc. destruct o as [t amount|t amount|amount]; cbn [after].
    + now apply fill_nonneg.
    + now apply deduct_nonneg.
    + now apply quota_setter_nonneg.
Qed.




End V30_facts.

(** ** Floats: the conversion of a nonzero integer is not zero *)

Section Float_facts.
Import Py.

Lemma shr_1_m mrs : 0 <= shr_m mrs -> shr_m (shr_1 mrs) = shr_m mrs / 2.
Proof.
  destruct mrs as [m r t]. cbn [shr_m]. intros Hm.
  destruct m as [|p|p]; [reflexivity| |lia].
  destruct p as [p|p|]; cbn [shr_1 shr_m].
  - rewrite (Pos2Z.inj_xI p). apply Z.div_unique with (r := 1); lia.
  - rewrite (Pos2Z.inj_xO p). apply Z.div_unique with (r := 0); lia.
  - reflexivity.
Qed.

Lemma iter_pos_shr_m p :
  forall mrs, 0 <= shr_m mrs ->
    shr_m (SpecFloat.iter_pos shr_1 p mrs) = shr_m mrs / 2 ^ Zpos p.
Proof.
  assert (Hstep : forall q, (forall mrs, 0 <= shr_m mrs ->
             shr_m (SpecFloat.iter_pos shr_1 q mrs) = shr_m mrs / 2 ^ Zpos q) ->
           forall mrs, 0 <= shr_m mrs ->
             shr_m (SpecFloat.iter_pos shr_1 q (SpecFloat.iter_pos shr_1 q mrs))
             = shr_m mrs / 2 ^ Zpos (q~0)).
  { intros q IH mrs Hm.
    assert (Hq : 0 < 2 ^ Zpos q) by (apply Z.pow_pos_nonneg; lia).
    rewrite IH by (rewrite IH by exact Hm; apply Z.div_pos; lia).
    rewrite IH by exact Hm.
    rewrite Z.div_div by lia.
    rewrite <- Z.pow_add_r by lia.
    f_equal. f_equal. lia. }
  induction p as [p IH|p IH|]; intros mrs Hm.
  - cbn [SpecFloat.iter_pos].
    rewrite (Hstep p IH) by (rewrite shr_1_m by exact Hm; apply Z.div_pos; lia).
    rewrite shr_1_m by exact Hm.
    rewrite Z.div_div by (try apply Z.pow_pos_nonneg; lia).
    reflexivity.
  - cbn [SpecFloat.iter_pos]. apply Hstep; assumption.
  - cbn [SpecFloat.iter_pos]. now apply shr_1_m.
Qed.

Lemma digits2_pos_bounds m :
  2 ^ (Zpos (digits2_pos m) - 1) <= Zpos m < 2 ^ Zpos (digits2_pos m).
Proof.
  induction m as [m IH|m IH|]; cbn [digits2_pos].
  - rewrite Pos2Z.inj_succ, (Pos2Z.inj_xI m).
    replace (Z.succ (Zpos (digits2_pos m)) - 1)
      with (Z.succ (Zpos (digits2_pos m) - 1)) by lia.
    rewrite !Z.pow_succ_r by lia.
    set (lo := 2 ^ (Zpos (digits2_pos m) - 1)) in *.
    set (hi := 2 ^ Zpos (digits2_pos m)) in *. lia.
  - rewrite Pos2Z.inj_succ, (Pos2Z.inj_xO m).
    replace (Z.succ (Zpos (digits2_pos m)) - 1)
      with (Z.succ (Zpos (digits2_pos m) - 1)) by lia.
    rewrite !Z.pow_succ_r by lia.
    set (lo := 2 ^ (Zpos (digits2_pos m) - 1)) in *.
    set (hi := 2 ^ Zpos (digits2_pos m)) in *. lia.
  - cbn. lia.
Qed.

Lemma shr_record_of_loc_m m l : shr_m (shr_record_of_loc m l) = m.
Proof. destruct l as [|[]]; reflexivity. Qed.

(** Shifting a positive mantissa to its rounding position keeps it
    positive as long as the exponent is in range. *)
Lemma shr_fexp_pos m e l :
  0 < m -> emin prec emax <= e ->
  0 < shr_m (fst (shr_fexp prec emax m e l))
  /\ emin prec emax <= snd (shr_fexp prec emax m e l).
Proof.
  intros Hm He. unfold shr_fexp, shr.
  destruct m as [|p|p]; try lia. cbn [Zdigits2].
  pose proof (digits2_pos_bounds p) as [Hlo _].
  set (d := Zpos (digits2_pos p)) in *.
  unfold fexp, emin, prec, emax in *.
  destruct (Z.max (d + e - 53) (3 - 1024 - 53) - e) as [|k|k] eqn:Hk;
    cbn [fst snd]; rewrite ?shr_record_of_loc_m; try lia.
  split; [|lia].
  rewrite iter_pos_shr_m by (rewrite shr_record_of_loc_m; lia).
  rewrite shr_record_of_loc_m.
  apply Z.div_str_pos. split; [apply Z.pow_pos_nonneg; lia|].
  apply Z.le_trans with (2 ^ (d - 1)); [|exact Hlo].
  apply Z.pow_le_mono_r; lia.
Qed.

Lemma round_nearest_even_pos mx lx : 0 < mx -> 0 < round_nearest_even mx lx.
Proof.
  intros H. unfold round_nearest_even.
  destruct lx as [|[]]; try lia. destruct (Z.even mx); lia.
Qed.

Lemma binary_round_aux_not_zero sx mx ex lx :
  0 < mx -> emin prec emax <= ex ->
  float_is_zero (binary_round_aux prec emax sx mx ex lx) = false.
Proof.
  intros Hm He. unfold binary_round_aux.
  pose proof (shr_fexp_pos mx ex lx Hm He) as [H1 H2].
  destruct (shr_fexp prec emax mx ex lx) as [mrs' e']. cbn [fst snd] in *.
  pose proof (shr_fexp_pos _ e' loc_Exact
                (round_nearest_even_pos _ (loc_of_shr_record mrs') H1) H2)
    as [H3 _].
  destruct (shr_fexp prec emax _ e' loc_Exact) as [mrs'' e''].
  cbn [fst] in H3.
  destruct (shr_m mrs'') as [|q|q]; try lia.
  now destruct (e'' <=? emax - prec).
Qed.

Lemma int_to_float_nonzero n x :
  n <> 0 -> int_to_float n = Ok x -> float_is_zero x = false.
Proof.
  intros Hn. unfold int_to_float.
  assert (H : float_is_zero (binary_normalize prec emax n 0 false) = false).
  { destruct n as [|m|m]; [congruence| |];
      cbn [binary_normalize]; unfold binary_round;
      destruct (shl_align m 0 (fexp prec emax (Zpos (digits2_pos m) + 0)))
        as [mz ez] eqn:Hal;
      apply binary_round_aux_not_zero; try lia;
      unfold shl_align in Hal;
      destruct (fexp prec emax (Zpos (digits2_pos m) + 0) - 0) eqn:Hf;
      inversion Hal; subst;
      unfold emin, fexp, prec, emax in *; lia. }
  destruct (binary_normalize prec emax n 0 false); intros Hx;
    inversion Hx; subst; try exact H; discriminate.
Qed.

Lemma int_to_float_raises n e : int_to_float n = Raise e -> e = OverflowError.
Proof.
  unfold int_to_float.
  destruct (binary_normalize prec emax n 0 false); intros H; inversion H.
  reflexivity.
Qed.

Lemma float_eq_int_0 x : float_eq_int x 0 = float_is_zero x.
Proof.
  destruct x as [s|s| |s m e]; try reflexivity.
  unfold float_eq_int, float_is_zero.
  assert (Hp : forall k, 0 <= k -> 0 < 2 ^ k)
    by (intros; apply Z.pow_pos_nonneg; lia).
  destruct (Z.leb_spec 0 e).
  - specialize (Hp e). destruct s; apply Z.eqb_neq; nia.
  - destruct s; apply Z.eqb_neq; lia.
Qed.

End Float_facts.

(** ** v51: the root exception and the callers' handlers *)

Section V51_facts.
Import Py V51.

Example notebook_v51_runs :
  notebook initial
  = (Ok tt,
     {| my_module :=
          {| mod_Error := Error;
             mod_InvalidDensityError := InvalidDensityError;
             mod_NegativeDensityError := Some NegativeDensityError;
             mod_determine_weight := determine_weight |};
        weight := Some (VInt 0);
        logged := [ {| message := "Expected"; exc_info := Some ValueError |};
                    {| message := "Unexpected error: %s"; exc_info := None |};
                    {| message := "Expected"; exc_info := Some ValueError |} ]
     |}).
Proof. reflexivity. Qed.

(** Every class of the module's hierarchy is a subclass of the root. *)
Lemma hierarchy_rooted :
  Forall (fun c => issubclass c Error = true)
    [Error; InvalidDensityError; NegativeDensityError;
     WeightError; VolumeError; DensityError].
Proof. repeat constructor. Qed.

Lemma determine_weight_static_raises volume density :
  determine_weight_static volume density = Raise InvalidDensityError
  <-> density <= 0.
Proof.
  unfold determine_weight_static.
  destruct (Z.leb_spec density 0); split; intros; try reflexivity;
    try discriminate; lia.
Qed.

(** C5: with [my_module] as Example 3 defines it, every exception its
    [determine_weight] raises is an instance of the root [Error] (so is
    every exception of the function of Example 6);
    [determine_weight] raises InvalidDensityError exactly when
    [density <= 0]; the handlers [except InvalidDensityError] then
    [except Error] handle it in the first clause; and for [density <= 0]
    Example 4 ends with [weight == 0], nothing logged, its final assert
    passed. *)
Theorem root_exception_insulates (volume density : Z) (s : state) :
  my_module s = my_module_initial ->
  density <= 0 ->
  (forall v d e,
      mod_determine_weight (my_module s) v d = Raise e
      \/ determine_weight v d = Raise e ->
      issubclass e (mod_Error (my_module s)) = true)
  /\ (forall v d,
         mod_determine_weight (my_module s) v d = Raise InvalidDensityError
         <-> d <= 0)
  /\ first_handler
       [(mod_InvalidDensityError (my_module s), 1%nat);
        (mod_Error (my_module s), 2%nat)]
       InvalidDensityError = Some 1%nat
  /\ example_4 volume density s
     = (Ok tt, {| my_module := my_module s; weight := Some (VInt 0);
                  logged := logged s |}).
Proof.
  intros Hm Hd. rewrite Hm. cbn [mod_determine_weight mod_Error
    mod_InvalidDensityError my_module_initial].
  split; [|split; [|split]].
  - intros v d e [H|H].
    + unfold determine_weight_static in H.
      destruct (d <=? 0); inversion H. reflexivity.
    + unfold determine_weight in H.
      destruct (d <? 0); inversion H. reflexivity.
  - apply determine_weight_static_raises.
  - reflexivity.
  - destruct s as [m w l]. cbn in Hm. subst m.
    unfold example_4, seq, set_weight, modify, read, try_except,
      call_determine_weight, lift, assert_weight_is_0.
    cbn. unfold determine_weight_static.
    destruct (Z.leb_spec density 0); [|lia].
    reflexivity.
Qed.

Lemma root_exception_insulates_witness :
  example_4 1 (-1) initial
  = (Ok tt, {| my_module := my_module_initial; weight := Some (VInt 0);
               logged := [] |}).
Proof.
  apply (root_exception_insulates 1 (-1) initial).
  - reflexivity.
  - lia.
Defined.

End V51_facts.

(** ** Keyword-only arguments: [safe_division_c] *)

Section KeywordOnly_facts.
Import Py KeywordOnly.

(** A call with two positional arguments and flags by keyword runs the
    body with the parameters bound as written. *)
Lemma safe_division_c_call number divisor io iz :
  safe_division_c [number; divisor] (flags io iz)
  = try_except_else
      (truediv number divisor)
      [(OverflowError,
        fun exc => if truthy (flag io) then Ok (VInt 0) else Raise exc);
       (ZeroDivisionError,
        fun exc => if truthy (flag iz) then Ok (VFloat inf) else Raise exc)]
      Ok.
Proof. destruct io, iz; reflexivity. Qed.

Lemma too_many_positional args kwargs :
  (2 < List.length args)%nat -> safe_division_c args kwargs = Raise TypeError.
Proof.
  destruct args as [|a [|b [|c args]]]; cbn [List.length]; try lia.
  reflexivity.
Qed.

(** Dividing numbers by a zero divisor raises ZeroDivisionError, unless
    the conversion of an operand to float raised OverflowError first. *)
Lemma truediv_by_zero number divisor x y :
  as_number number = Some x -> as_number divisor = Some y ->
  py_eq divisor (VInt 0) = true ->
  truediv number divisor = Raise ZeroDivisionError
  \/ truediv number divisor = Raise OverflowError.
Proof.
  intros Hx Hy. unfold py_eq, truediv. rewrite Hx, Hy. cbn [as_number].
  destruct x as [m|fx], y as [n|fy]; cbn [number_eqb number_to_float bind].
  - intros H0. unfold int_truediv. rewrite H0. now left.
  - rewrite float_eq_int_0. intros H0.
    destruct (int_to_float m) as [fx|e] eqn:Hm; cbn [bind].
    + unfold float_truediv. rewrite H0. now left.
    + apply int_to_float_raises in Hm. subst e. now right.
  - intros H0. apply Z.eqb_eq in H0. subst n. now left.
  - rewrite float_eq_int_0. intros H0.
    unfold float_truediv. rewrite H0. now left.
Qed.

(** Dividing numbers by a divisor that is not zero returns a float,
    unless OverflowError is raised. *)
Lemma truediv_by_nonzero number divisor x y :
  as_number number = Some x -> as_number divisor = Some y ->
  py_eq divisor (VInt 0) = false ->
  (exists q, truediv number divisor = Ok q)
  \/ truediv number divisor = Raise OverflowError.
Proof.
  intros Hx Hy. unfold py_eq, truediv. rewrite Hx, Hy. cbn [as_number].
  destruct x as [m|fx], y as [n|fy]; cbn [number_eqb number_to_float bind].
  - intros H0. unfold int_truediv. rewrite H0.
    destruct (m =? 0); [left; eexists; reflexivity|].
    destruct (SFdiv prec emax (int_exact m) (int_exact n));
      cbn [bind]; (now right) || (left; eexists; reflexivity).
  - rewrite float_eq_int_0. intros H0.
    destruct (int_to_float m) as [fx|e] eqn:Hm; cbn [bind].
    + unfold float_truediv. rewrite H0. left; eexists; reflexivity.
    + apply int_to_float_raises in Hm. subst e. now right.
  - intros H0. apply Z.eqb_neq in H0.
    destruct (int_to_float n) as [fy|e] eqn:Hn; cbn [bind].
    + unfold float_truediv.
      rewrite (int_to_float_nonzero n fy H0 Hn).
      left; eexists; reflexivity.
    + apply int_to_float_raises in Hn. subst e. now right.
  - rewrite float_eq_int_0. intros H0.
    unfold float_truediv. rewrite H0. left; eexists; reflexivity.
Qed.

(** C9, as stated, fails: with a zero divisor the conversion of [number]
    can raise OverflowError before the divisor is looked at.  At
    [number = 10**500] and [divisor = 0.0] the call with
    [ignore_zero_division=True] does not return [float('inf')] and the
    call with default flags does not raise ZeroDivisionError. *)
Lemma safe_division_c_overflow_with_zero_divisor :
  py_eq (VFloat (S754_zero false)) (VInt 0) = true
  /\ safe_division_c [VInt (10 ^ 500); VFloat (S754_zero false)]
       [("ignore_zero_division", VBool true)] = Raise OverflowError
  /\ safe_division_c [VInt (10 ^ 500); VFloat (S754_zero false)] []
     = Raise OverflowError.
Proof. repeat split; vm_compute; reflexivity. Qed.

(** C9, amended: every call with more than two positional arguments
    raises TypeError; for numbers [number] and [divisor], when
    [divisor == 0] and no OverflowError occurs the call returns
    [float('inf')] if [ignore_zero_division] is [True] and raises
    ZeroDivisionError with the flags at their defaults; when
    [divisor != 0] and no OverflowError occurs it returns
    [number / divisor]. *)
Theorem safe_division_c_spec (number divisor : value) (x y : Py.number) :
  as_number number = Some x ->
  as_number divisor = Some y ->
  (forall args kwargs,
      (2 < List.length args)%nat -> safe_division_c args kwargs = Raise TypeError)
  /\ (py_eq divisor (VInt 0) = true ->
      truediv number divisor <> Raise OverflowError ->
      (forall io,
          safe_division_c [number; divisor] (flags io (Some (VBool true)))
          = Ok (VFloat inf))
      /\ safe_division_c [number; divisor] [] = Raise ZeroDivisionError)
  /\ (py_eq divisor (VInt 0) = false ->
      truediv number divisor <> Raise OverflowError ->
      forall io iz,
        exists q, truediv number divisor = Ok q
                  /\ safe_division_c [number; divisor] (flags io iz) = Ok q).
Proof.
  intros Hx Hy. split; [exact too_many_positional|]. split.
  - intros H0 Hov.
    destruct (truediv_by_zero number divisor x y Hx Hy H0) as [Hz|Hz];
      [|contradiction].
    split.
    + intros io. rewrite safe_division_c_call, Hz. reflexivity.
    + change (@nil (string * value)) with (flags None None).
      rewrite safe_division_c_call, Hz. reflexivity.
  - intros H0 Hov io iz.
    destruct (truediv_by_nonzero number divisor x y Hx Hy H0) as [[q Hq]|Hq];
      [|contradiction].
    exists q. split; [exact Hq|].
    rewrite safe_division_c_call, Hq. reflexivity.
Qed.

Lemma safe_division_c_spec_witness :
  safe_division_c [one; VInt 0] [("ignore_zero_division", VBool true)]
  = Ok (VFloat inf)
  /\ safe_division_c [one; VInt 0] [] = Raise ZeroDivisionError
  /\ safe_division_c [one; VInt 2] []
     = Ok (VFloat (S754_finite false 4503599627370496 (-53))).
Proof.
  destruct (safe_division_c_spec one (VInt 0) (NFloat (float_literal 10 1))
              (NInt 0) eq_refl eq_refl) as (_ & Hzero & _).
  destruct (safe_division_c_spec one (VInt 2) (NFloat (float_literal 10 1))
              (NInt 2) eq_refl eq_refl) as (_ & _ & Hnonzero).
  destruct Hzero as [Hinf Hraise]; [reflexivity|discriminate|].
  destruct (Hnonzero eq_refl) with (io := @None value) (iz := @None value)
    as (q & Hq & Hcall); [discriminate|].
  split; [exact (Hinf None)|]. split; [exact Hraise|].
  change (safe_division_c [one; VInt 2] [] = Ok q) in Hcall.
  rewrite Hcall. rewrite <- Hq. reflexivity.
Defined.

End KeywordOnly_facts.

(** ** Default arguments: the shared default of [decode] *)

Section DefaultArgs_facts.
Import Py Json DefaultArgs.

Variable json_loads : string -> Res json.

Lemma decode_shared_fails data s :
  parse_fails json_loads data ->
  decode_shared json_loads data None s = (Ok (decode_default s), s).
Proof.
  intros (e & He & Hsub).
  unfold decode_shared, seq, read, try_except, lift. rewrite He.
  cbn [first_handler]. rewrite Hsub. reflexivity.
Qed.

Lemma decode_fails data s :
  parse_fails json_loads data ->
  decode json_loads data None s = new (ODict ∅) s.
Proof.
  intros (e & He & Hsub).
  unfold decode, seq, try_except, lift. cbn [py_is].
  destruct (new (ODict ∅) s) as [[v|e'] s'] eqn:Hnew; [|reflexivity].
  rewrite He. cbn [first_handler]. rewrite Hsub. reflexivity.
Qed.

Lemma setitem_dict l d key v s :
  objects (the_heap s) !! l = Some (ODict d) ->
  setitem (VRef l) key v s
  = (Ok tt, {| the_heap := store l (ODict (<[key := v]> d)) (the_heap s);
               decode_default := decode_default s;
               printed := printed s |}).
Proof. intros H. unfold setitem. now rewrite H. Qed.

Lemma lookup_store l o h : objects (store l o h) !! l = Some o.
Proof. unfold store. cbn [objects]. apply lookup_insert_eq. Qed.

Lemma lookup_store_ne l l' o h :
  l <> l' -> objects (store l o h) !! l' = objects h !! l'.
Proof. intros H. unfold store. cbn [objects]. now apply lookup_insert_ne. Qed.

Lemma fresh_next_loc h : heap_wf h -> objects h !! next_loc h = None.
Proof.
  intros Hwf. destruct (objects h !! next_loc h) eqn:E; [|reflexivity].
  specialize (Hwf (next_loc h) (ex_intro _ _ E)). lia.
Qed.

(** C10: when [json.loads] fails on the data, every call of the [decode]
    with [default={}] (the argument left out) returns the one default
    dictionary of the function; after [foo = decode(data1)] and
    [foo['stuff'] = 5] the result of a second failing call is the same
    object and already contains ['stuff'], and [assert foo is bar]
    passes.  With [default=None] the two calls return two new
    dictionaries, which end as [{'stuff': 5}] and [{'meep': 1}]. *)
Theorem decode_default_sharing (data1 data2 : string) (s : state)
    (l : loc) (d : gmap string value) :
  parse_fails json_loads data1 ->
  parse_fails json_loads data2 ->
  decode_default s = VRef l ->
  objects (the_heap s) !! l = Some (ODict d) ->
  heap_wf (the_heap s) ->
  (forall data s',
      parse_fails json_loads data ->
      decode_shared json_loads data None s' = (Ok (decode_default s'), s'))
  /\ (exists s1 s2,
        decode_shared json_loads data1 None s = (Ok (VRef l), s)
        /\ setitem (VRef l) "stuff" (VInt 5) s = (Ok tt, s1)
        /\ decode_shared json_loads data2 None s1 = (Ok (VRef l), s1)
        /\ deref (VRef l) s1 = Some (ODict (<["stuff" := VInt 5]> d))
        /\ example_5 json_loads data1 data2 s = (Ok (VRef l, VRef l), s2)
        /\ deref (VRef l) s2
           = Some (ODict (<["meep" := VInt 1]> (<["stuff" := VInt 5]> d))))
  /\ (exists a b s',
        example_8 json_loads data1 data2 s = (Ok (VRef a, VRef b), s')
        /\ a <> b
        /\ objects (the_heap s) !! a = None
        /\ objects (the_heap s) !! b = None
        /\ deref (VRef a) s' = Some (ODict {["stuff" := VInt 5]})
        /\ deref (VRef b) s' = Some (ODict {["meep" := VInt 1]})).
Proof.
  intros H1 H2 Hdef Hl Hwf.
  split; [intros data s'; apply decode_shared_fails|]. split.
  - pose (s1 := {| the_heap := store l (ODict (<["stuff" := VInt 5]> d))
                                 (the_heap s);
                   decode_default := decode_default s;
                   printed := printed s |}).
    assert (Hl1 : objects (the_heap s1) !! l
                  = Some (ODict (<["stuff" := VInt 5]> d)))
      by apply lookup_store.
    exists s1. eexists.
    split; [rewrite <- Hdef; now apply decode_shared_fails|].
    split; [now apply setitem_dict|].
    split; [rewrite <- Hdef; now apply (decode_shared_fails data2 s1)|].
    split; [exact Hl1|].
    split.
    + unfold example_5, seq.
      rewrite (decode_shared_fails data1 s H1), Hdef.
      rewrite (setitem_dict l d _ _ s Hl). fold s1.
      rewrite (decode_shared_fails data2 s1 H2).
      change (decode_default s1) with (decode_default s). rewrite Hdef.
      rewrite (setitem_dict l _ _ _ s1 Hl1).
      unfold print, lift, assert_is, ret. cbn [py_is].
      rewrite Pos.eqb_refl. reflexivity.
    + cbn [deref the_heap]. apply lookup_store.
  - pose proof (fresh_next_loc _ Hwf) as Hfresh.
    set (a := next_loc (the_heap s)) in *.
    exists a, (Pos.succ a). eexists.
    split.
    + unfold example_8, seq.
      rewrite (decode_fails data1 s H1).
      unfold new at 1. cbn [alloc]. fold a.
      rewrite setitem_dict with (d := ∅)
        by (cbn [the_heap objects]; apply lookup_insert_eq).
      match goal with
      | |- context [decode json_loads data2 None ?st] =>
          rewrite (decode_fails data2 st H2)
      end.
      unfold new at 1. cbn [alloc the_heap store next_loc objects].
      rewrite setitem_dict with (d := ∅)
        by (cbn [the_heap objects]; apply lookup_insert_eq).
      unfold print, ret. cbn [the_heap decode_default printed]. reflexivity.
    + split; [lia|]. split; [exact Hfresh|].
      split.
      { destruct (objects (the_heap s) !! Pos.succ a) eqn:E;
          [|assumption || reflexivity].
        specialize (Hwf _ (ex_intro _ _ E)). fold a in Hwf. lia. }
      cbn [deref the_heap store objects next_loc]. split.
      * rewrite lookup_insert_ne by lia.
        rewrite lookup_insert_ne by lia.
        rewrite lookup_insert_eq. reflexivity.
      * rewrite lookup_insert_eq. reflexivity.
Qed.

End DefaultArgs_facts.

Section DefaultArgs_witness.
Import Py Json DefaultArgs.

Lemma bad_data_fails : parse_fails Json.loads "bad data".
Proof. exists JSONDecodeError. split; reflexivity. Defined.

Lemma also_bad_fails : parse_fails Json.loads "also bad".
Proof. exists JSONDecodeError. split; reflexivity. Defined.

Lemma heap_wf_after_def : heap_wf (the_heap (snd (def_decode_shared initial))).
Proof.
  intros l [o Ho]. cbn in Ho |- *.
  destruct (decide (l = 1%positive)) as [->|Hne]; [lia|].
  rewrite lookup_insert_ne in Ho by congruence.
  rewrite lookup_empty in Ho. discriminate.
Defined.

Lemma decode_default_sharing_witness :
  exists s2,
    example_5 Json.loads "bad data" "also bad" (snd (def_decode_shared initial))
    = (Ok (VRef 1%positive, VRef 1%positive), s2)
    /\ deref (VRef 1%positive) s2
       = Some (ODict (<["meep" := VInt 1]> (<["stuff" := VInt 5]> ∅))).
Proof.
  destruct (decode_default_sharing Json.loads "bad data" "also bad"
              (snd (def_decode_shared initial)) 1%positive ∅
              bad_data_fails also_bad_fails eq_refl eq_refl
              heap_wf_after_def)
    as (_ & (s1 & s2 & _ & _ & _ & _ & Hrun & Hfinal) & _).
  exists s2. split; [exact Hrun|exact Hfinal].
Defined.

End DefaultArgs_witness.

(** ** v03: writing bytes to a text file and to a binary file *)

Section V03_facts.
Import Py FS V03.

Lemma append_empty_r s : String.append s "" = s.
Proof.
  induction s as [|c s IH]; [reflexivity|].
  change (String c (String.append s "") = String c s). now rewrite IH.
Qed.

Lemma overwrite_empty b : overwrite "" 0 b = b.
Proof.
  unfold overwrite.
  replace (String.substring (0 + String.length b)
             (String.length "" - (0 + String.length b)) "") with "".
  - rewrite append_empty_r. reflexivity.
  - now destruct (0 + String.length b)%nat.
Qed.

(** C6: whatever bytes [os.urandom(10)] returns, writing them to the
    file opened with ['w'] raises TypeError, so the [except] branch runs
    (it logs the TypeError) and [assert False] in the [else] branch is
    not reached; writing bytes to the file opened with ['wb'] returns,
    and the cell ends with [random.bin] holding the second bytes. *)
Theorem bytes_to_text_file_raises (random1 random2 : string) (w : world) :
  (forall fs,
      fst (write {| h_path := "random.bin"; h_mode := W; h_pos := 0 |}
             (VBytes random1) fs) = Raise TypeError)
  /\ (forall fs,
         write {| h_path := "random.bin"; h_mode := WB; h_pos := 0 |}
           (VBytes random2) (<["random.bin" := Bytes ""]> fs)
         = (Ok {| h_path := "random.bin"; h_mode := WB;
                  h_pos := String.length random2 |},
            <["random.bin" := Bytes random2]> fs))
  /\ write_random random1 random2 w
     = (Ok tt,
        {| the_files := <["random.bin" := Bytes random2]> (the_files w);
           printed := printed w;
           logged := append (logged w)
                       {| message := "Expected";
                          exc_info := Some TypeError |} |}).
Proof.
  assert (Hwb : forall fs,
             write {| h_path := "random.bin"; h_mode := WB; h_pos := 0 |}
               (VBytes random2) (<["random.bin" := Bytes ""]> fs)
             = (Ok {| h_path := "random.bin"; h_mode := WB;
                      h_pos := String.length random2 |},
                <["random.bin" := Bytes random2]> fs)).
  { intros fs. unfold write.
    cbn [binary h_mode writable h_path h_pos Nat.add].
    rewrite lookup_insert_eq. cbn [bytes_of].
    rewrite overwrite_empty, insert_insert_eq. reflexivity. }
  split; [reflexivity|]. split; [exact Hwb|].
  unfold write_random, seq, try_except_else_stmt, with_open, try_finally,
    io, seq, ret, log, modify, open_.
  unfold write at 1.
  cbn [the_files printed logged fst snd binary h_mode first_handler
       issubclass issubclass_fuel exn_class_eqb base orb].
  rewrite Hwb. cbn [the_files printed logged].
  rewrite insert_insert_eq. reflexivity.
Qed.

End V03_facts.

(** ** Pickle and copyreg: data that is read back by a changed program *)

Section PickleCopyreg_facts.
Import Py FS PickleCopyreg.

(** What the notebook prints, in order *)
Example notebook_prints :
  let r := notebook (initial ∅) in
  fst r = Ok tt
  /\ printed (snd r)
     = [ ShownDict (attributes [("level", 1); ("lives", 3)]);
         ShownDict (attributes [("level", 0); ("lives", 4); ("points", 0)]);
         ShownDict (attributes [("level", 1); ("lives", 3)]);
         ShownDict (attributes [("level", 0); ("lives", 4);
                                ("points", 1000)]);
         ShownDict (attributes [("level", 0); ("lives", 4);
                                ("points", 1000); ("magic", 5)]);
         ShownDict (attributes [("level", 0); ("points", 1000);
                                ("magic", 5)]);
         ShownPath "__main__" "GameState";
         ShownPath "__main__" "unpickle_game_state" ]
  /\ logged (snd r)
     = [ {| message := "Expected"; exc_info := Some TypeError |};
         {| message := "Expected"; exc_info := Some AttributeError |} ].
Proof. vm_compute. repeat split; reflexivity. Qed.







End PickleCopyreg_facts.

(** ** Framing: statements that do not depend on the files underneath *)

Section Framing.
Import Py FS.
Context {S : Type} (under : S -> files -> S).

Lemma framed_consequence {A} (P P' : S -> Prop) (c : stmt S A)
    (Q Q' : A -> S -> Prop) (E E' : S -> Prop) :
  framed under P' c Q' E' ->
  (forall s, P s -> P' s) ->
  (forall a s, Q' a s -> Q a s) ->
  (forall s, E' s -> E s) ->
  framed under P c Q E.
Proof.
  intros Hc HP HQ HE s Hs. destruct (Hc s (HP s Hs)) as [Heq Hpost].
  split; [exact Heq|]. destruct (fst (c s)); auto.
Qed.

Lemma framed_ret {A} (P : S -> Prop) (a : A) (Q : A -> S -> Prop) E :
  (forall s, P s -> Q a s) -> framed under P (ret a) Q E.
Proof. intros H s Hs. split; [reflexivity|]. cbn. auto. Qed.

Lemma framed_raise {A} (P : S -> Prop) e (Q : A -> S -> Prop) (E : S -> Prop) :
  (forall s, P s -> E s) -> framed under P (raise e) Q E.
Proof. intros H s Hs. split; [reflexivity|]. cbn. auto. Qed.

Lemma framed_lift {A} (P : S -> Prop) (r : Res A) (Q : A -> S -> Prop)
    (E : S -> Prop) :
  (forall s, P s -> match r with Ok a => Q a s | Raise _ => E s end) ->
  framed under P (lift r) Q E.
Proof.
  intros H s Hs. split; [reflexivity|].
  unfold lift. cbn [fst snd]. specialize (H s Hs). now destruct r.
Qed.

Lemma framed_assert (P : S -> Prop) (c : bool) (Q : unit -> S -> Prop)
    (E : S -> Prop) :
  (forall s, P s -> Q tt s) -> (forall s, P s -> E s) ->
  framed under P (assert_stmt c) Q E.
Proof.
  intros HQ HE. apply framed_lift. intros s Hs.
  unfold assert_. destruct c; auto.
Qed.

(** Reading what does not depend on the files underneath *)
Lemma framed_read {A} (P : S -> Prop) (f : S -> A) (Q : A -> S -> Prop) E :
  (forall s fs, P s -> f (under s fs) = f s) ->
  (forall s, P s -> Q (f s) s) ->
  framed under P (read f) Q E.
Proof.
  intros Hf HQ s Hs. split.
  - intros fs. unfold read. cbn. now rewrite Hf.
  - cbn. auto.
Qed.

(** Changing what is not the files *)
Lemma framed_modify (P : S -> Prop) (f : S -> S) (Q : unit -> S -> Prop) E :
  (forall s fs, P s -> f (under s fs) = under (f s) fs) ->
  (forall s, P s -> Q tt (f s)) ->
  framed under P (modify f) Q E.
Proof.
  intros Hf HQ s Hs. split.
  - intros fs. unfold modify. cbn. now rewrite Hf.
  - cbn. auto.
Qed.

Lemma framed_seq {A B} (P : S -> Prop) (c : stmt S A) (k : A -> stmt S B)
    (R : A -> S -> Prop) (Q : B -> S -> Prop) (E : S -> Prop) :
  framed under P c R E ->
  (forall a, framed under (R a) (k a) Q E) ->
  framed under P (seq c k) Q E.
Proof.
  intros Hc Hk s Hs. destruct (Hc s Hs) as [Heq Hpost].
  unfold seq. split.
  - intros fs. rewrite Heq. destruct (c s) as [[a|e] s']; cbn [fst snd] in *.
    + destruct (Hk a s' Hpost) as [Heq' _]. rewrite Heq'. reflexivity.
    + reflexivity.
  - destruct (c s) as [[a|e] s']; cbn [fst snd] in *.
    + destruct (Hk a s' Hpost) as [_ Hpost']. exact Hpost'.
    + exact Hpost.
Qed.

Lemma framed_try_except {A} (P : S -> Prop) (body : stmt S A)
    (handlers : list (exn_class * (exn_class -> stmt S A)))
    (Q : A -> S -> Prop) (E' E : S -> Prop) :
  framed under P body Q E' ->
  (forall e h, first_handler handlers e = Some h ->
               framed under E' (h e) Q E) ->
  (forall s, E' s -> E s) ->
  framed under P (try_except body handlers) Q E.
Proof.
  intros Hb Hh HE s Hs. destruct (Hb s Hs) as [Heq Hpost].
  unfold try_except. split.
  - intros fs. rewrite Heq. destruct (body s) as [[a|e] s']; cbn [fst snd] in *.
    + reflexivity.
    + destruct (first_handler handlers e) as [h|] eqn:Hf; [|reflexivity].
      destruct (Hh e h Hf s' Hpost) as [Heq' _]. rewrite Heq'. reflexivity.
  - destruct (body s) as [[a|e] s']; cbn [fst snd] in *.
    + exact Hpost.
    + destruct (first_handler handlers e) as [h|] eqn:Hf.
      * destruct (Hh e h Hf s' Hpost) as [_ Hpost']. exact Hpost'.
      * cbn. auto.
Qed.

Lemma framed_try_except_else {A B} (P : S -> Prop) (body : stmt S A)
    (handlers : list (exn_class * (exn_class -> stmt S B)))
    (els : A -> stmt S B)
    (R : A -> S -> Prop) (Q : B -> S -> Prop) (E' E : S -> Prop) :
  framed under P body R E' ->
  (forall e h, first_handler handlers e = Some h ->
               framed under E' (h e) Q E) ->
  (forall a, framed under (R a) (els a) Q E) ->
  (forall s, E' s -> E s) ->
  framed under P (try_except_else_stmt body handlers els) Q E.
Proof.
  intros Hb Hh Hels HE s Hs. destruct (Hb s Hs) as [Heq Hpost].
  unfold try_except_else_stmt. split.
  - intros fs. rewrite Heq. destruct (body s) as [[a|e] s']; cbn [fst snd] in *.
    + destruct (Hels a s' Hpost) as [Heq' _]. rewrite Heq'. reflexivity.
    + destruct (first_handler handlers e) as [h|] eqn:Hf; [|reflexivity].
      destruct (Hh e h Hf s' Hpost) as [Heq' _]. rewrite Heq'. reflexivity.
  - destruct (body s) as [[a|e] s']; cbn [fst snd] in *.
    + destruct (Hels a s' Hpost) as [_ Hpost']. exact Hpost'.
    + destruct (first_handler handlers e) as [h|] eqn:Hf.
      * destruct (Hh e h Hf s' Hpost) as [_ Hpost']. exact Hpost'.
      * cbn. auto.
Qed.

(** A [finally] block that changes nothing *)
Lemma framed_try_finally {A} (P : S -> Prop) (body : stmt S A)
    (Q : A -> S -> Prop) (E : S -> Prop) :
  framed under P body Q E ->
  framed under P (try_finally body (ret tt)) Q E.
Proof.
  intros Hb s Hs. destruct (Hb s Hs) as [Heq Hpost].
  unfold try_finally, ret. split.
  - intros fs. rewrite Heq. destruct (body s) as [r s']. reflexivity.
  - destruct (body s) as [r s']. exact Hpost.
Qed.

End Framing.

(** ** Framing of the file operations *)

Section World_framing.
Import Py FS.

Lemma framed_pure {S A} (under : S -> files -> S) (phi : Prop)
    (P : S -> Prop) (c : stmt S A) Q E :
  (phi -> framed under P c Q E) ->
  framed under (fun s => phi /\ P s) c Q E.
Proof. intros H s [Hphi Hs]. exact (H Hphi s Hs). Qed.

Lemma elem_of_dom_is D p w :
  dom_is D w -> p ∈ D -> is_Some (the_files w !! p).
Proof. unfold dom_is. intros <- Hp. now apply elem_of_dom. Qed.

Lemma framed_open_writing D path m (E : world -> Prop) :
  m = W \/ m = WB ->
  framed overlay (dom_is D) (io (open_ path m))
    (fun h w => h = {| h_path := path; h_mode := m; h_pos := 0 |}
                /\ dom_is ({[path]} ∪ D) w) E.
Proof.
  intros Hm w Hw. unfold io, open_, overlay, dom_is in *.
  destruct Hm; subst m; cbn [the_files printed logged fst snd];
    (split; [intros fs; now rewrite insert_union_l
            |split; [reflexivity|rewrite dom_insert_L; now rewrite Hw]]).
Qed.

Lemma framed_open_reading D path m (E : world -> Prop) :
  m = R \/ m = RB \/ m = RPlus ->
  path ∈ D ->
  framed overlay (dom_is D) (io (open_ path m))
    (fun h w => h = {| h_path := path; h_mode := m; h_pos := 0 |}
                /\ dom_is D w) E.
Proof.
  intros Hm Hp w Hw.
  destruct (elem_of_dom_is D path w Hw Hp) as [c Hc].
  assert (Hu : forall fs, (the_files w ∪ fs) !! path = Some c)
    by (intros fs; rewrite lookup_union_l' by eauto; exact Hc).
  unfold io, open_, overlay.
  destruct Hm as [Hm | [Hm | Hm]]; subst m; cbn [the_files printed logged];
    (split; [intros fs; rewrite Hu, Hc; reflexivity
            |rewrite Hc; cbn [fst snd]; split;
             [reflexivity|destruct w; exact Hw]]).
Qed.

Lemma framed_write D h v :
  h_path h ∈ D ->
  framed overlay (dom_is D) (io (write h v))
    (fun h' w => h' = {| h_path := h_path h; h_mode := h_mode h;
                         h_pos := h_pos h + String.length (payload v) |}
                 /\ dom_is D w)
    (dom_is D).
Proof.
  intros Hp w Hw.
  destruct (elem_of_dom_is D _ w Hw Hp) as [c Hc].
  assert (Hu : forall fs, (the_files w ∪ fs) !! h_path h = Some c)
    by (intros fs; rewrite lookup_union_l' by eauto; exact Hc).
  assert (Hdom : forall x, dom (<[h_path h := x]> (the_files w)) = D).
  { intros x. rewrite dom_insert_L. unfold dom_is in Hw. rewrite Hw.
    apply (anti_symm (⊆)); set_solver. }
  unfold io, write, overlay, dom_is. cbn [the_files printed logged].
  destruct (binary (h_mode h)), v; cbn [fst snd payload];
    try (split; [intros fs; reflexivity|destruct w; exact Hw]);
    destruct (writable (h_mode h)); cbn [fst snd the_files];
    try (split; [intros fs; reflexivity|destruct w; exact Hw]);
    (split; [intros fs; rewrite Hu, Hc, insert_union_l; reflexivity
            |rewrite Hc; split; [reflexivity|apply Hdom]]).
Qed.

Lemma framed_read_all D h (E : world -> Prop) :
  h_path h ∈ D ->
  framed overlay (dom_is D) (io (read_all h))
    (fun r w => (exists n, snd r = {| h_path := h_path h; h_mode := h_mode h;
                                      h_pos := n |})
                /\ dom_is D w) E.
Proof.
  intros Hp w Hw.
  destruct (elem_of_dom_is D _ w Hw Hp) as [c Hc].
  assert (Hu : forall fs, (the_files w ∪ fs) !! h_path h = Some c)
    by (intros fs; rewrite lookup_union_l' by eauto; exact Hc).
  unfold io, read_all, overlay. cbn [the_files printed logged fst snd].
  split.
  - intros fs. rewrite Hu, Hc. reflexivity.
  - split; [eexists; reflexivity|]. destruct w; exact Hw.
Qed.

Lemma framed_print D v (E : world -> Prop) :
  framed overlay (dom_is D) (print v) (fun _ w => dom_is D w) E.
Proof. intros w Hw. split; [reflexivity|]. destruct w; exact Hw. Qed.

Lemma framed_log D msg exc (E : world -> Prop) :
  framed overlay (dom_is D) (log msg exc) (fun _ w => dom_is D w) E.
Proof. intros w Hw. split; [reflexivity|]. destruct w; exact Hw. Qed.

End World_framing.

(** ** The notebooks that use files do not depend on other files *)

Section Notebook_framing.
Import Py FS.

Ltac path_facts :=
  cbv beta in *;
  repeat match goal with
         | H : _ /\ _ |- _ => destruct H
         | H : exists _, _ |- _ => destruct H
         | r : (_ * _)%type |- _ => destruct r
         end;
  cbn [h_path h_mode h_pos fst snd seek0] in *;
  subst;
  cbn [h_path h_mode h_pos fst snd seek0] in *;
  unfold within, dom_is in *.

(** A postcondition that is still open keeps what is known of the
    files. *)
Ltac open_post :=
  lazymatch goal with
  | |- ?R _ _ => is_evar R
  end;
  cbv beta in *;
  repeat match goal with
         | H : _ /\ _ |- _ => destruct H
         end;
  match goal with
  | H : dom_is _ ?s |- _ _ ?s => exact H
  end.

Ltac side :=
  first
    [ eassumption
    | open_post
    | path_facts; first [eassumption | reflexivity | set_solver] ].

(** Statements that do not touch the state keep what holds of it. *)
Lemma framed_ret_keep {A} (P : world -> Prop) (a : A) :
  framed overlay P (ret a) (fun _ => P) P.
Proof. now apply framed_ret. Qed.

Lemma framed_raise_keep {A} (P : world -> Prop) e :
  framed overlay P (@raise world A e) (fun _ => P) P.
Proof. now apply framed_raise. Qed.

Lemma framed_lift_keep {A} (P : world -> Prop) (r : Res A) :
  framed overlay P (lift r) (fun _ => P) P.
Proof. apply framed_lift. intros s Hs. now destruct r. Qed.

Lemma framed_assert_keep (P : world -> Prop) c :
  framed overlay P (assert_stmt c) (fun _ => P) P.
Proof. now apply framed_assert. Qed.

(** One primitive, with its own postconditions weakened to the ones
    asked for *)
Ltac primitive rule :=
  eapply framed_consequence;
  [ eapply rule
  | intros ? ?; side
  | intros ? ? ?; side
  | intros ? ?; side ];
  first [now left | now right; left | now right; right | side].

Ltac framing :=
  cbv beta zeta;
  lazymatch goal with
  | |- framed _ _ (match ?x with _ => _ end) _ _ => destruct x; framing
  | |- framed _ (fun s => _ /\ _) _ _ _ =>
      apply framed_pure; intros ?; framing
  | |- framed _ _ (seq _ _) _ _ =>
      eapply framed_seq; [framing | intros ?; framing]
  | |- framed _ _ (with_open _ _ _) _ _ => unfold with_open; framing
  | |- framed _ _ (try_finally _ (ret tt)) _ _ =>
      apply framed_try_finally; framing
  | |- framed _ _ (try_except _ _) _ _ =>
      eapply framed_try_except;
      [framing | intros ? ? ?; handler_cases | intros ? ?; side]
  | |- framed _ _ (try_except_else_stmt _ _ _) _ _ =>
      eapply framed_try_except_else;
      [framing | intros ? ? ?; handler_cases | intros ?; framing
      | intros ? ?; side]
  | |- framed _ _ (io (open_ _ W)) _ _ => primitive framed_open_writing
  | |- framed _ _ (io (open_ _ WB)) _ _ => primitive framed_open_writing
  | |- framed _ _ (io (open_ _ _)) _ _ => primitive framed_open_reading
  | |- framed _ _ (io (write _ _)) _ _ => primitive framed_write
  | |- framed _ _ (io (read_all _)) _ _ => primitive framed_read_all
  | |- framed _ _ (print _) _ _ => primitive framed_print
  | |- framed _ _ (log _ _) _ _ => primitive framed_log
  | |- framed _ _ (ret _) _ _ => primitive @framed_ret_keep
  | |- framed _ _ (raise _) _ _ => primitive @framed_raise_keep
  | |- framed _ _ (assert_stmt _) _ _ => primitive framed_assert_keep
  | |- framed _ _ (lift _) _ _ => primitive @framed_lift_keep
  end
(** The handler that was found, for each clause of the [try] *)
with handler_cases :=
  match goal with
  | H : first_handler _ _ = Some _ |- _ =>
      cbn [first_handler] in H;
      repeat match type of H with
             | (if ?c then _ else _) = Some _ => destruct c
             end;
      first [discriminate H
            | injection H as <-; framing]
  end.

Lemma v43_framed :
  framed overlay (dom_is ∅) V43.example_7
    (fun _ => within {["my_output.txt"]}) (within {["my_output.txt"]}).
Proof. unfold V43.example_7. framing. Qed.

Lemma v03_framed random1 random2 :
  framed overlay (dom_is ∅) (V03.write_random random1 random2)
    (fun _ => within {["random.bin"]}) (within {["random.bin"]}).
Proof. unfold V03.write_random. framing. Qed.

Lemma v16_framed :
  framed overlay (dom_is ∅) V16.index_file_cell
    (fun _ => within {["address.txt"]}) (within {["address.txt"]}).
Proof. unfold V16.index_file_cell. framing. Qed.

Lemma write_lines_framed D lengths :
  forall f, h_path f ∈ D ->
    framed overlay (dom_is D) (V09.write_lines lengths f)
      (fun _ => dom_is D) (dom_is D).
Proof.
  induction lengths as [|n lengths IH]; intros f Hf; cbn [V09.write_lines].
  - framing.
  - eapply framed_seq; [framing|]. intros f1.
    apply framed_pure. intros ->.
    eapply framed_seq; [framing|]. intros f2.
    apply framed_pure. intros ->.
    apply IH. exact Hf.
Qed.

Lemma v09_framed power_half lengths :
  framed overlay (dom_is ∅) (V09.notebook power_half lengths)
    (fun _ => within {["my_file.txt"]}) (within {["my_file.txt"]}).
Proof.
  unfold V09.notebook, V09.open_lines, V09.next.
  eapply framed_seq.
  - unfold with_open. eapply framed_seq; [framing|]. intros f.
    apply framed_pure. intros ->. apply framed_try_finally.
    primitive write_lines_framed.
  - intros ?. framing.
Qed.

Lemma v13_framed json_loads json_dumps :
  framed overlay (dom_is ∅) (V13.notebook json_loads json_dumps)
    (fun _ => within {["random_data.txt"; "random_data.json"]})
    (within {["random_data.txt"; "random_data.json"]}).
Proof.
  unfold V13.notebook, V13.finally_cell, V13.else_cell, V13.divide_cell,
    V13.write_text, V13.divide_json.
  framing.
Qed.

End Notebook_framing.

Section Session_framing.
Import Py FS.
Import PickleCopyreg.

Abbreviation sframed := (framed PickleCopyreg.overlay).

Lemma sframed_open_writing D path (E : session -> Prop) :
  sframed (dom_is D) (io (open_ path WB))
    (fun h s => h = {| h_path := path; h_mode := WB; h_pos := 0 |}
                /\ dom_is ({[path]} ∪ D) s) E.
Proof.
  intros s Hs. unfold io, open_, overlay, dom_is in *.
  cbn [the_files set_the_files fst snd].
  split; [intros fs; now rewrite insert_union_l|].
  split; [reflexivity|]. rewrite dom_insert_L. now rewrite Hs.
Qed.

Lemma sframed_open_reading D path (E : session -> Prop) :
  path ∈ D ->
  sframed (dom_is D) (io (open_ path RB))
    (fun h s => h = {| h_path := path; h_mode := RB; h_pos := 0 |}
                /\ dom_is D s) E.
Proof.
  intros Hp s Hs.
  assert (is_Some (the_files s !! path)) as [c Hc]
    by (apply elem_of_dom; unfold dom_is in Hs; now rewrite Hs).
  assert (Hu : forall fs, (the_files s ∪ fs) !! path = Some c)
    by (intros fs; rewrite lookup_union_l' by eauto; exact Hc).
  unfold io, open_, overlay. cbn [the_files set_the_files].
  split.
  - intros fs. rewrite Hu, Hc. reflexivity.
  - rewrite Hc. cbn [fst snd]. split; [reflexivity|]. destruct s; exact Hs.
Qed.

Lemma sframed_read_file D path (E : session -> Prop) :
  path ∈ D ->
  sframed (dom_is D) (read (fun s => the_files s !! path))
    (fun _ => dom_is D) E.
Proof.
  intros Hp s Hs.
  assert (is_Some (the_files s !! path)) as [c Hc]
    by (apply elem_of_dom; unfold dom_is in Hs; now rewrite Hs).
  unfold read, overlay. cbn [the_files set_the_files fst snd].
  split; [|exact Hs].
  intros fs. rewrite lookup_union_l' by eauto. reflexivity.
Qed.

Lemma sframed_write_pickled D f data (E : session -> Prop) :
  sframed (dom_is D) (write_pickled f data)
    (fun _ => dom_is ({[h_path f]} ∪ D)) E.
Proof.
  intros s Hs. unfold write_pickled, modify, overlay, dom_is in *.
  cbn [the_files set_the_files fst snd].
  split; [intros fs; now rewrite insert_union_l|].
  rewrite dom_insert_L. now rewrite Hs.
Qed.

Lemma sframed_new D o (E : session -> Prop) :
  sframed (dom_is D) (new o) (fun _ => dom_is D) E.
Proof. intros s Hs. split; [reflexivity|]. exact Hs. Qed.

(** Reading and changing what is not the files *)
Lemma sframed_read_keep {A} D (f : session -> A) (E : session -> Prop) :
  (forall s fs, f (overlay s fs) = f s) ->
  sframed (dom_is D) (read f) (fun _ => dom_is D) E.
Proof. intros Hf. apply framed_read; auto. Qed.

Lemma sframed_modify_keep D (f : session -> session) (E : session -> Prop) :
  (forall s fs, f (overlay s fs) = overlay (f s) fs) ->
  (forall s, the_files (f s) = the_files s) ->
  sframed (dom_is D) (modify f) (fun _ => dom_is D) E.
Proof.
  intros Hf Hfiles. apply framed_modify; [auto|].
  intros s Hs. unfold dom_is in *. now rewrite Hfiles.
Qed.

Lemma sframed_ret_keep {A} (P : session -> Prop) (a : A) :
  sframed P (ret a) (fun _ => P) P.
Proof. now apply framed_ret. Qed.

Lemma sframed_raise_keep {A} (P : session -> Prop) e :
  sframed P (@raise session A e) (fun _ => P) P.
Proof. now apply framed_raise. Qed.

Lemma sframed_lift_keep {A} (P : session -> Prop) (r : Res A) :
  sframed P (lift r) (fun _ => P) P.
Proof. apply framed_lift. intros s Hs. now destruct r. Qed.

Lemma sframed_assert_keep (P : session -> Prop) c :
  sframed P (assert_stmt c) (fun _ => P) P.
Proof. now apply framed_assert. Qed.

Ltac spath_facts :=
  cbv beta in *;
  repeat match goal with
         | H : _ /\ _ |- _ => destruct H
         end;
  cbn [h_path h_mode h_pos fst snd] in *;
  subst;
  cbn [h_path h_mode h_pos fst snd] in *;
  unfold PickleCopyreg.within, PickleCopyreg.dom_is in *.

Ltac sopen_post :=
  lazymatch goal with
  | |- ?R _ _ => is_evar R
  end;
  cbv beta in *;
  repeat match goal with
         | H : _ /\ _ |- _ => destruct H
         end;
  match goal with
  | H : dom_is _ ?s |- _ _ ?s => exact H
  end.

Ltac sside :=
  first
    [ eassumption
    | sopen_post
    | spath_facts;
      first
        [ eassumption
        | lazymatch goal with
          | |- ?R _ _ => is_evar R
          end;
          match goal with
          | H : dom _ = _ |- _ => exact H
          end
        | reflexivity
        | set_solver ] ].

Ltac sprimitive rule :=
  eapply framed_consequence;
  [ eapply rule
  | intros ? ?; sside
  | intros ? ? ?; sside
  | intros ? ?; sside ];
  first [intros ? ?; reflexivity | intros ?; reflexivity | sside].

Ltac sframing :=
  cbv beta zeta;
  lazymatch goal with
  | |- framed _ _ (match ?x with _ => _ end) _ _ => destruct x; sframing
  | |- framed _ (fun s => _ /\ _) _ _ _ =>
      apply framed_pure; intros ?; sframing
  | |- framed _ _ (seq _ _) _ _ =>
      eapply framed_seq; [sframing | intros ?; sframing]
  | |- framed _ _ (try_except_else_stmt _ _ _) _ _ =>
      eapply framed_try_except_else;
      [sframing | intros ? ? ?; shandler_cases | intros ?; sframing
      | intros ? ?; sside]
  | |- framed _ _ (io (open_ _ WB)) _ _ => sprimitive sframed_open_writing
  | |- framed _ _ (io (open_ _ RB)) _ _ => sprimitive sframed_open_reading
  | |- framed _ _ (write_pickled _ _) _ _ => sprimitive sframed_write_pickled
  | |- framed _ _ (read (fun s => the_files s !! _)) _ _ =>
      sprimitive sframed_read_file
  | |- framed _ _ (new _) _ _ => sprimitive sframed_new
  | |- framed _ _ (read _) _ _ => sprimitive @sframed_read_keep
  | |- framed _ _ (modify _) _ _ => sprimitive sframed_modify_keep
  | |- framed _ _ (ret _) _ _ => sprimitive @sframed_ret_keep
  | |- framed _ _ (raise _) _ _ => sprimitive @sframed_raise_keep
  | |- framed _ _ (assert_stmt _) _ _ => sprimitive sframed_assert_keep
  | |- framed _ _ (lift _) _ _ => sprimitive @sframed_lift_keep
  end
with shandler_cases :=
  match goal with
  | H : first_handler _ _ = Some _ |- _ =>
      cbn [first_handler] in H;
      repeat match type of H with
             | (if ?c then _ else _) = Some _ => destruct c
             end;
      first [discriminate H
            | injection H as <-; sframing]
  end.

Lemma pickle_framed :
  sframed (dom_is ∅) notebook
    (fun _ => PickleCopyreg.within {["game_state.bin"]}) (PickleCopyreg.within {["game_state.bin"]}).
Proof.
  unfold notebook, through_example_13, examples_14_to_19,
    example_1, example_2, example_3, example_4, example_5, example_6,
    example_7, example_8, example_9, example_10, example_11, example_12,
    example_13, example_14, example_15, example_16, example_17, example_18,
    example_19, example_20, example_21, example_22, example_23, example_24,
    example_25, state_path,
    dump_to, load_from, dumps, loads, reduce, construct_with,
    call_GameState, call_BetterGameState, construct, copyreg_pickle,
    unpickle_game_state_path, class_statement, isinstance, print_dict,
    print_path, dict_of, increase, deref, store_at, record, print, log.
  sframing.
Qed.

End Session_framing.

(** ** The notebooks do not interact *)

Section Independence.
Import Py FS.

Lemma world_of_overlay fs : world_of fs = overlay (world_of ∅) fs.
Proof. unfold world_of, overlay; cbn. now rewrite (left_id_L ∅ (∪)). Qed.

Lemma initial_overlay fs :
  PickleCopyreg.initial fs
  = PickleCopyreg.overlay (PickleCopyreg.initial ∅) fs.
Proof.
  unfold PickleCopyreg.initial, PickleCopyreg.overlay; cbn.
  now rewrite (left_id_L ∅ (∪)).
Qed.

(** A framed run from no file at all is the same run from any files. *)
Lemma framed_run {A} D (c : stmt world A) fs :
  framed overlay (dom_is ∅) c (fun _ => within D) (within D) ->
  c (world_of fs)
  = (fst (c (world_of ∅)), overlay (snd (c (world_of ∅))) fs)
  /\ within D (snd (c (world_of ∅))).
Proof.
  intros H. destruct (H (world_of ∅)) as [Hrun Hpost].
  { unfold dom_is; cbn. apply dom_empty_L. }
  split.
  - rewrite world_of_overlay. apply Hrun.
  - now destruct (fst (c (world_of ∅))).
Qed.

Lemma framed_session_run {A} D (c : stmt PickleCopyreg.session A) fs :
  framed PickleCopyreg.overlay (PickleCopyreg.dom_is ∅) c
    (fun _ => PickleCopyreg.within D) (PickleCopyreg.within D) ->
  c (PickleCopyreg.initial fs)
  = (fst (c (PickleCopyreg.initial ∅)),
     PickleCopyreg.overlay (snd (c (PickleCopyreg.initial ∅))) fs)
  /\ PickleCopyreg.within D (snd (c (PickleCopyreg.initial ∅))).
Proof.
  intros H. destruct (H (PickleCopyreg.initial ∅)) as [Hrun Hpost].
  { unfold PickleCopyreg.dom_is; cbn. apply dom_empty_L. }
  split.
  - rewrite initial_overlay. apply Hrun.
  - now destruct (fst (c (PickleCopyreg.initial ∅))).
Qed.

Lemma lookup_outside (written fs : files) (D : gset string) path :
  dom written ⊆ D -> path ∉ D -> (written ∪ fs) !! path = fs !! path.
Proof.
  intros HD Hp. apply lookup_union_r. apply not_elem_of_dom. set_solver.
Qed.

Lemma framed_independent {A} D (c : stmt world A) :
  framed overlay (dom_is ∅) c (fun _ => within D) (within D) ->
  independent D c.
Proof.
  intros H fs fs'.
  destruct (framed_run D c fs H) as [-> Hpost].
  destruct (framed_run D c fs' H) as [-> _].
  split; [reflexivity|].
  intros path Hpath. cbn. now apply lookup_outside with D.
Qed.

Lemma framed_session_independent {A} D (c : stmt PickleCopyreg.session A) :
  framed PickleCopyreg.overlay (PickleCopyreg.dom_is ∅) c
    (fun _ => PickleCopyreg.within D) (PickleCopyreg.within D) ->
  PickleCopyreg.independent D (fun fs => c (PickleCopyreg.initial fs)).
Proof.
  intros H fs fs'.
  destruct (framed_session_run D c fs H) as [-> Hpost].
  destruct (framed_session_run D c fs' H) as [-> _].
  split; [reflexivity|].
  intros path Hpath. cbn. now apply lookup_outside with D.
Qed.

(** The scratch files listed for a notebook are the paths its run was
    shown to stay within. *)
Ltac footprint framed_notebook :=
  eapply framed_consequence;
  [ apply framed_notebook | auto | | ];
  cbv beta; unfold within, PickleCopyreg.within, own;
  cbn [files_of scratch_files String.eqb Ascii.eqb Bool.eqb list_to_set];
  intros; set_solver.

(** C7: every notebook that touches files behaves the same whatever
    files it finds, so whether or not any other notebook has run before
    it: its result, what it prints and what it logs do not depend on the
    files that are there, and it leaves every file but its own scratch
    files as it was; no scratch file belongs to two notebooks.  (The
    notebooks have no other state in common: each run starts from its own
    initial state.) *)
Theorem notebooks_independent
    (random1 random2 : string) (power_half : Z -> float) (lengths : list Z)
    (json_loads : string -> Res Json.json) (json_dumps : Json.json -> string) :
  independent (own "v03") (V03.write_random random1 random2)
  /\ independent (own "v09") (V09.notebook power_half lengths)
  /\ independent (own "v13") (V13.notebook json_loads json_dumps)
  /\ independent (own "v16") V16.index_file_cell
  /\ independent (own "v43") V43.example_7
  /\ PickleCopyreg.independent (own "pickle")
       (fun fs => PickleCopyreg.notebook (PickleCopyreg.initial fs))
  /\ NoDup (concat (map snd scratch_files)).
Proof.
  repeat match goal with |- _ /\ _ => split end.
  - apply framed_independent. footprint v03_framed.
  - apply framed_independent. footprint v09_framed.
  - apply framed_independent. footprint v13_framed.
  - apply framed_independent. footprint v16_framed.
  - apply framed_independent. footprint v43_framed.
  - apply framed_session_independent. footprint pickle_framed.
  - apply (bool_decide_unpack _). vm_compute. reflexivity.
Qed.

End Independence.

(** ** Files and data that persist *)

Section Persistence.
Import Py FS.


End Persistence.

Section Persistence_pickle.
Import Py FS PickleCopyreg.



End Persistence_pickle.

(** ** The assertions of the example cells *)

Section Assertions.
Import Py FS.






End Assertions.

(** ** v16: the indexes of [index_words] and [index_file] *)

Section V16_more_facts.
Import Py V16 V16_spec.

Lemma fold_after_spaces rest :
  forall index acc,
    fold_left
      (fun result '(index, letter) =>
         if Ascii.eqb letter " " then append result (index + 1) else result)
      (enumerate_from index rest) acc
    = acc ++ after_spaces index rest.
Proof.
  induction rest as [|letter rest IH]; intros index acc.
  - cbn. now rewrite app_nil_r.
  - cbn [enumerate_from fold_left after_spaces]. rewrite IH.
    destruct (Ascii.eqb letter " "); unfold append; cbn [app].
    + now rewrite <- app_assoc.
    + reflexivity.
Qed.

Lemma index_words_after_spaces text :
  index_words text
  = (if str_truthy text then [0] else [])
      ++ after_spaces 0 (list_ascii_of_string text).
Proof.
  unfold index_words, enumerate. rewrite fold_after_spaces.
  now destruct (str_truthy text).
Qed.

Lemma index_letters_after_spaces letters :
  forall offset,
    index_letters offset letters
    = (after_spaces offset letters, offset + Z.of_nat (List.length letters)).
Proof.
  induction letters as [|letter rest IH]; intros offset.
  - cbn. f_equal. lia.
  - cbn [index_letters after_spaces List.length]. rewrite IH.
    destruct (Ascii.eqb letter " "); cbn [app]; f_equal; lia.
Qed.

Lemma after_spaces_shift letters :
  forall a b,
    after_spaces (a + b) letters = map (Z.add a) (after_spaces b letters).
Proof.
  induction letters as [|letter rest IH]; intros a b; [reflexivity|].
  cbn [after_spaces]. rewrite map_app.
  replace (a + b + 1) with (a + (b + 1)) by lia. rewrite IH.
  now destruct (Ascii.eqb letter " ").
Qed.

Lemma In_after_spaces letters :
  forall offset i,
    In i (after_spaces offset letters)
    <-> exists k, nth_error letters k = Some " "%char
                  /\ i = offset + Z.of_nat k + 1.
Proof.
  induction letters as [|letter rest IH]; intros offset i.
  - cbn. split; [tauto|]. intros [[|k] [H _]]; discriminate H.
  - cbn [after_spaces]. rewrite in_app_iff, IH. split.
    + intros [H|(k & Hk & ->)].
      * destruct (Ascii.eqb letter " ") eqn:Hsp; [|destruct H].
        destruct H as [<-|[]]. exists 0%nat. split; [|lia].
        apply Ascii.eqb_eq in Hsp. now subst.
      * exists (S k). split; [exact Hk|lia].
    + intros ([|k] & Hk & ->).
      * left. cbn in Hk. injection Hk as ->. cbn. left. lia.
      * right. exists k. split; [exact Hk|lia].
Qed.

Lemma after_spaces_sorted letters :
  forall offset,
    StronglySorted Z.lt (after_spaces offset letters)
    /\ Forall (fun i => offset < i <= offset + Z.of_nat (List.length letters))
         (after_spaces offset letters).
Proof.
  induction letters as [|letter rest IH]; intros offset.
  - split; constructor.
  - destruct (IH (offset + 1)) as [Hs Hb].
    cbn [after_spaces List.length].
    assert (Hb' : Forall (fun i => offset + 1 < i
                                   <= offset + Z.of_nat (S (List.length rest)))
                    (after_spaces (offset + 1) rest)).
    { eapply Forall_impl; [exact Hb|]. cbn beta. intros i Hi. lia. }
    destruct (Ascii.eqb letter " "); cbn [app].
    + split.
      * constructor; [exact Hs|].
        eapply Forall_impl; [exact Hb'|]. cbn beta. intros i Hi. lia.
      * constructor; [lia|].
        eapply Forall_impl; [exact Hb'|]. cbn beta. intros i Hi. lia.
    + split; [exact Hs|].
      eapply Forall_impl; [exact Hb'|]. cbn beta. intros i Hi. lia.
Qed.

Lemma nth_error_list_ascii text :
  forall k, nth_error (list_ascii_of_string text) k = String.get k text.
Proof.
  induction text as [|c s IH]; intros [|k]; cbn; auto.
Qed.

(** [index_words(text)] holds 0 when the text is not empty and, for every
    space of the text, the index after it, and nothing else. *)
Theorem index_words_spec (text : string) (i : Z) :
  In i (index_words text)
  <-> (i = 0 /\ text <> "")
      \/ (0 < i /\ String.get (Z.to_nat (i - 1)) text = Some " "%char).
Proof.
  rewrite index_words_after_spaces, in_app_iff, In_after_spaces.
  split.
  - intros [H|(k & Hk & ->)].
    + destruct text; cbn in H; [destruct H|].
      destruct H as [<-|[]]. now left.
    + right. split; [lia|].
      replace (Z.to_nat (0 + Z.of_nat k + 1 - 1)) with k by lia.
      now rewrite <- nth_error_list_ascii.
  - intros [[-> H]|[Hi Hget]].
    + left. destruct text; [congruence|]. now left.
    + right. exists (Z.to_nat (i - 1)). split; [|lia].
      now rewrite nth_error_list_ascii.
Qed.

(** The indexes are returned in increasing order, without repetition, and
    none is beyond the length of the text (a space at the very end gives
    the length itself, where no word starts). *)
Theorem index_words_increasing (text : string) :
  StronglySorted Z.lt (index_words text)
  /\ Forall (fun i => 0 <= i <= Z.of_nat (String.length text))
       (index_words text).
Proof.
  rewrite index_words_after_spaces.
  destruct (after_spaces_sorted (list_ascii_of_string text) 0) as [Hs Hb].
  rewrite length_list_ascii_of_string in Hb.
  destruct text as [|c s].
  - cbn. split; constructor.
  - cbn [str_truthy app]. split.
    + constructor; [exact Hs|].
      eapply Forall_impl; [exact Hb|]. cbn beta. intros i Hi. lia.
    + constructor; [lia|].
      eapply Forall_impl; [exact Hb|]. cbn beta. intros i Hi. lia.
Qed.

(** [index_file] yields, line by line, what [index_words] returns for the
    line, shifted by the offset at which the line starts in the file; for
    a file of one line it yields what [index_words] returns. *)
Theorem index_file_by_lines (offset : Z) (line : string) (ls : list string) :
  index_lines offset (line :: ls)
  = map (Z.add offset) (index_words line)
      ++ index_lines (offset + Z.of_nat (String.length line)) ls
  /\ index_file [line] = index_words line.
Proof.
  assert (H : forall o l, index_lines o (line :: l)
              = map (Z.add o) (index_words line)
                  ++ index_lines (o + Z.of_nat (String.length line)) l).
  { intros o l. cbn [index_lines].
    rewrite index_letters_after_spaces, length_list_ascii_of_string.
    rewrite index_words_after_spaces, map_app.
    replace o with (o + 0) at 2 by lia.
    rewrite after_spaces_shift.
    destruct line; cbn [str_truthy map app].
    - reflexivity.
    - rewrite Z.add_0_r. reflexivity. }
  split; [apply H|].
  unfold index_file. rewrite H. cbn [index_lines].
  rewrite app_nil_r. rewrite <- (map_id (index_words line)) at 2.
  apply map_ext. intros a. lia.
Qed.

End V16_more_facts.

(** ** v09: the lines written are the lines read *)

Section V09_facts.
Import Py FS V09 V09_spec.

Lemma append_nil_l (s : string) : String.append "" s = s.
Proof. reflexivity. Qed.

Lemma append_cons c (s t : string) :
  String.append (String c s) t = String c (String.append s t).
Proof. reflexivity. Qed.

Lemma append_nil_r (s : string) : String.append s "" = s.
Proof.
  induction s as [|c s IH]; [reflexivity|].
  rewrite append_cons. now rewrite IH.
Qed.

Lemma append_assoc (s t u : string) :
  String.append (String.append s t) u = String.append s (String.append t u).
Proof.
  induction s as [|c s IH]; [reflexivity|].
  rewrite !append_cons. now rewrite IH.
Qed.

Lemma length_append (s t : string) :
  String.length (String.append s t) = (String.length s + String.length t)%nat.
Proof.
  induction s as [|c s IH]; [reflexivity|].
  rewrite append_cons. cbn [String.length]. now rewrite IH.
Qed.

Lemma substring_all (s : string) :
  String.substring 0 (String.length s) s = s.
Proof. induction s as [|c s IH]; cbn; [reflexivity|now rewrite IH]. Qed.

Lemma substring_none (s : string) n : String.substring n 0 s = "".
Proof.
  revert n. induction s as [|c s IH]; intros [|n]; cbn; auto.
Qed.

(** Writing at the end of a file appends. *)
Lemma overwrite_at_end (old data : string) :
  overwrite old (String.length old) data = String.append old data.
Proof.
  unfold overwrite. rewrite substring_all.
  replace (String.length old - (String.length old + String.length data))%nat
    with 0%nat by lia.
  now rewrite substring_none, append_nil_r.
Qed.

Lemma write_at_end path (m : mode) (old data : string) (w : world) :
  binary m = false -> writable m = true ->
  the_files w !! path = Some (Bytes old) ->
  io (write {| h_path := path; h_mode := m; h_pos := String.length old |}
        (VStr data)) w
  = (Ok {| h_path := path; h_mode := m;
           h_pos := String.length (String.append old data) |},
     {| the_files := <[path := Bytes (String.append old data)]> (the_files w);
        printed := printed w; logged := logged w |}).
Proof.
  intros Hb Hw Hold. unfold io, write. cbn [h_path h_mode h_pos].
  rewrite Hb, Hw, Hold. cbn [bytes_of].
  now rewrite overwrite_at_end, length_append.
Qed.

Lemma write_lines_appends lengths :
  forall (old : string) (w : world),
    the_files w !! "my_file.txt" = Some (Bytes old) ->
    write_lines lengths
      {| h_path := "my_file.txt"; h_mode := W; h_pos := String.length old |} w
    = (Ok {| h_path := "my_file.txt"; h_mode := W;
             h_pos := String.length
                        (String.append old (concat_all (written lengths))) |},
       {| the_files :=
            <["my_file.txt" :=
                Bytes (String.append old (concat_all (written lengths)))]>
              (the_files w);
          printed := printed w; logged := logged w |}).
Proof.
  induction lengths as [|n lengths IH]; intros old w Hold.
  - cbn [write_lines written map concat_all]. unfold ret.
    rewrite append_nil_r. destruct w as [fs p l]. cbn in *.
    rewrite insert_id by exact Hold. reflexivity.
  - cbn [write_lines]. unfold seq at 1.
    rewrite (write_at_end _ _ old) by (reflexivity || exact Hold).
    unfold seq at 1.
    rewrite (write_at_end _ _ (String.append old (a_times n)))
      by (reflexivity || (cbn; apply lookup_insert_eq)).
    rewrite IH by (cbn; apply lookup_insert_eq).
    cbn [the_files printed logged written map concat_all].
    rewrite !insert_insert_eq, !append_assoc. reflexivity.
Qed.

Lemma lines_from_a_times k :
  forall (rest line : string),
    lines_from
      (String.append (string_of_list_ascii (repeat "a"%char k))
         (String.append nl rest)) line
    = String.append
        (String.append line (string_of_list_ascii (repeat "a"%char k))) nl
        :: lines_from rest "".
Proof.
  induction k as [|k IH]; intros rest line.
  - cbn [repeat string_of_list_ascii]. rewrite append_nil_l, append_nil_r.
    reflexivity.
  - cbn [repeat string_of_list_ascii]. rewrite append_cons.
    cbn [lines_from]. change (Ascii.nat_of_ascii "a" =? 10)%nat with false.
    cbv iota. rewrite IH. f_equal. rewrite !append_assoc. reflexivity.
Qed.

(** The lines of what the loop wrote are the texts of the rounds. *)
Lemma lines_written lengths :
  lines (concat_all (written lengths)) = written lengths.
Proof.
  unfold lines. induction lengths as [|n lengths IH]; [reflexivity|].
  cbn [written map concat_all]. unfold a_times.
  rewrite append_assoc, lines_from_a_times, append_nil_l.
  f_equal. exact IH.
Qed.

Lemma length_a_times n : String.length (a_times n) = Z.to_nat n.
Proof.
  unfold a_times. induction (Z.to_nat n) as [|k IH]; [reflexivity|].
  cbn. now rewrite IH.
Qed.

Lemma len_written lengths :
  map len (written lengths) = map (fun n => Z.max 0 n + 1) lengths.
Proof.
  unfold written. rewrite map_map. apply map_ext. intros n. cbv beta.
  unfold len. rewrite length_append, length_a_times.
  change (String.length nl) with 1%nat. cbv beta. lia.
Qed.

Lemma open_lines_written text (w : world) :
  the_files w !! "my_file.txt" = Some (Bytes text) ->
  open_lines "my_file.txt" w = (Ok (lines text), w).
Proof.
  intros H. destruct w as [fs p l]. cbn [the_files] in H.
  unfold open_lines, seq, io, open_, read_all, ret.
  cbn [h_path h_pos h_mode the_files printed logged]. rewrite H.
  cbn [h_path h_pos h_mode the_files printed logged bytes_of fst snd].
  rewrite H. cbn [bytes_of].
  now rewrite Nat.sub_0_r, substring_all.
Qed.

Lemma with_open_write_lines lengths (w : world) :
  exists f,
    with_open "my_file.txt" W (fun f => write_lines lengths f) w
    = (Ok f,
       {| the_files :=
            <["my_file.txt" := Bytes (concat_all (written lengths))]>
              (the_files w);
          printed := printed w; logged := logged w |}).
Proof.
  unfold with_open, seq at 1, io at 1, open_.
  cbn [the_files printed logged].
  unfold try_finally.
  rewrite (write_lines_appends lengths "")
    by (cbn; apply lookup_insert_eq).
  cbn [the_files printed logged ret]. unfold ret.
  rewrite insert_insert_eq, append_nil_l. eauto.
Qed.

(** The lines read back from [my_file.txt] are the texts written to it,
    each with its line end, so the lengths printed are the numbers drawn
    plus one. *)
Theorem lines_read_back (lengths : list Z) (w : world) :
  fst ((with_open "my_file.txt" W (fun f => write_lines lengths f) ;;;
        open_lines "my_file.txt") w)
  = Ok (map (fun n => String.append (a_times n) nl) lengths)
  /\ map len (map (fun n => String.append (a_times n) nl) lengths)
     = map (fun n => Z.max 0 n + 1) lengths.
Proof.
  split; [|apply len_written].
  unfold seq. destruct (with_open_write_lines lengths w) as [f ->].
  rewrite (open_lines_written (concat_all (written lengths)))
    by (cbn; apply lookup_insert_eq).
  cbn [fst]. now rewrite lines_written.
Qed.

(** The generator expressions share one iterator: [next(it)] twice and
    then [next(roots)] deliver the first, the second and the third line;
    with fewer than three lines in the file the cells end in
    StopIteration. *)
Theorem notebook_consumes_in_order (power_half : Z -> float)
    (lengths : list Z) (w : world) :
  match map (fun n => Z.max 0 n + 1) lengths with
  | x1 :: x2 :: x3 :: _ =>
      fst (notebook power_half lengths w) = Ok tt
      /\ printed (snd (notebook power_half lengths w))
         = printed w
             ++ [ VList (map VInt (map (fun n => Z.max 0 n + 1) lengths));
                  VStr "<generator object <genexpr>>";
                  VInt x1; VInt x2;
                  VList [VInt x3; VFloat (power_half x3)] ]
  | _ => fst (notebook power_half lengths w) = Raise StopIteration
  end.
Proof.
  remember (notebook power_half lengths w) as r eqn:Hr.
  unfold notebook in Hr. unfold seq at 1 in Hr.
  destruct (with_open_write_lines lengths w) as [f Hf]. rewrite Hf in Hr.
  set (w1 := {| the_files := _ |}) in Hr.
  assert (Hfile : the_files w1 !! "my_file.txt"
                  = Some (Bytes (concat_all (written lengths))))
    by (cbn; apply lookup_insert_eq).
  unfold seq at 1 in Hr. rewrite (open_lines_written _ w1 Hfile) in Hr.
  rewrite lines_written, len_written in Hr.
  unfold seq at 1, print at 1, modify at 1 in Hr.
  set (w2 := {| the_files := the_files w1 |}) in Hr.
  assert (Hfile2 : the_files w2 !! "my_file.txt"
                   = Some (Bytes (concat_all (written lengths))))
    by exact Hfile.
  unfold seq at 1 in Hr. rewrite (open_lines_written _ w2 Hfile2) in Hr.
  rewrite lines_written, len_written in Hr.
  subst w2 w1.
  destruct (map (fun n => Z.max 0 n + 1) lengths) as [|x1 [|x2 [|x3 xs]]];
    subst r; cbn; try reflexivity.
  split; [reflexivity|]. unfold append. rewrite <- !app_assoc. reflexivity.
Qed.

End V09_facts.

(** ** v13: what [divide_json] and [load_json_key] do on failure *)

Section V13_facts.
Import Py Json FS V13 V13_spec.

Variable json_loads : string -> Res json.
Variable json_dumps : json -> string.

Lemma truediv_float a b v : truediv a b = Ok v -> exists x, v = VFloat x.
Proof.
  unfold truediv, bind.
  destruct (as_number a) as [[m|x]|], (as_number b) as [[n|y]|];
    try discriminate.
  - destruct (int_truediv m n); [|discriminate]. intros [= <-]. eauto.
  - destruct (number_to_float (NInt m)); [|discriminate].
    destruct (number_to_float (NFloat y)); [|discriminate].
    destruct (float_truediv a0 a1); [|discriminate]. intros [= <-]. eauto.
  - destruct (number_to_float (NFloat x)); [|discriminate].
    destruct (number_to_float (NInt n)); [|discriminate].
    destruct (float_truediv a0 a1); [|discriminate]. intros [= <-]. eauto.
  - destruct (number_to_float (NFloat x)); [|discriminate].
    destruct (number_to_float (NFloat y)); [|discriminate].
    destruct (float_truediv a0 a1); [|discriminate]. intros [= <-]. eauto.
Qed.

Lemma json_truediv_float a b v :
  json_truediv a b = Ok v -> exists x, v = VFloat x.
Proof.
  unfold json_truediv. destruct (operand a), (operand b); try discriminate.
  apply truediv_float.
Qed.

Lemma divide_json_run path c (w : world) :
  the_files w !! path = Some c ->
  let text := bytes_of c in
  divide_json json_loads json_dumps path w
  = match quotient json_loads text with
    | Ok (op, value) =>
        match setitem op "result"
                (match value with VFloat x => JFloat x | _ => JNull end) with
        | Ok op' =>
            (Ok value,
             {| the_files :=
                  <[path := Bytes (overwrite text 0 (json_dumps op'))]>
                    (the_files w);
                printed := printed w; logged := logged w |})
        | Raise e => (Raise e, w)
        end
    | Raise e =>
        if issubclass e ZeroDivisionError then (Ok UNDEFINED, w)
        else (Raise e, w)
    end.
Proof.
  intros Hfile text. subst text.
  destruct w as [fs p l]. cbn [the_files printed logged] in *.
  unfold divide_json, quotient, bind.
  unfold seq at 1, io at 1, open_. cbn [the_files printed logged].
  rewrite Hfile.
  unfold try_finally, try_except_else_stmt.
  unfold seq at 1, io at 1, read_all.
  cbn [the_files printed logged h_path h_pos h_mode fst snd].
  rewrite Hfile. set (text := bytes_of c).
  rewrite Nat.sub_0_r, substring_all.
  unfold seq at 1, lift at 1.
  destruct (json_loads text) as [op|e]; cbn [first_handler].
  2:{ destruct (issubclass e ZeroDivisionError); reflexivity. }
  unfold seq at 1, lift at 1.
  destruct (getitem op "numerator") as [n|e]; cbn [first_handler].
  2:{ destruct (issubclass e ZeroDivisionError); reflexivity. }
  unfold seq at 1, lift at 1.
  destruct (getitem op "denominator") as [d|e]; cbn [first_handler].
  2:{ destruct (issubclass e ZeroDivisionError); reflexivity. }
  unfold seq at 1, lift at 1.
  destruct (json_truediv n d) as [value|e]; cbn [first_handler].
  2:{ destruct (issubclass e ZeroDivisionError); reflexivity. }
  unfold ret at 1. unfold seq at 1, lift at 1.
  destruct (setitem op "result" _) as [op'|e]; [|reflexivity].
  unfold seq, io, write, seek0, ret.
  cbn [the_files printed logged h_path h_pos h_mode binary writable].
  rewrite Hfile. reflexivity.
Qed.


(** Unless [divide_json] returns a quotient it leaves the files as they
    were: when it returns [UNDEFINED] and when it raises (no file, invalid
    JSON, a missing key, operands that do not divide). *)
Theorem divide_json_failure_keeps_files (path : string) (w : world) :
  match fst (divide_json json_loads json_dumps path w) with
  | Ok value =>
      value = UNDEFINED ->
      snd (divide_json json_loads json_dumps path w) = w
  | Raise _ => snd (divide_json json_loads json_dumps path w) = w
  end.
Proof.
  destruct (the_files w !! path) as [c|] eqn:Hfile.
  - rewrite (divide_json_run path c w Hfile). cbv zeta.
    destruct (quotient json_loads (bytes_of c)) as [[op value]|e] eqn:Hq.
    + unfold quotient, bind in Hq.
      destruct (json_loads (bytes_of c)); [|discriminate].
      destruct (getitem a "numerator"); [|discriminate].
      destruct (getitem a "denominator"); [|discriminate].
      destruct (json_truediv a0 a1) eqn:Hdiv; [|discriminate].
      injection Hq as <- <-.
      apply json_truediv_float in Hdiv as [x ->].
      destruct (setitem a "result" (JFloat x)); cbn [fst snd].
      * discriminate.
      * reflexivity.
    + destruct (issubclass e ZeroDivisionError); cbn [fst snd]; auto.
  - destruct w as [fs p l]. cbn [the_files] in Hfile.
    unfold divide_json, seq, io, open_. cbn [the_files]. rewrite Hfile.
    reflexivity.
Qed.


(** [load_json_key] never raises a ValueError: when [json.loads] raises
    one it raises KeyError instead, the same exception as for a key the
    data does not have. *)
Theorem load_json_key_never_value_error (data key : string) :
  (forall e, issubclass e ValueError = true ->
             load_json_key json_loads data key <> Raise e)
  /\ (forall e, json_loads data = Raise e ->
                issubclass e ValueError = true ->
                load_json_key json_loads data key = Raise KeyError)
  /\ (forall members, json_loads data = Ok (JDict members) ->
                      member members key = None ->
                      load_json_key json_loads data key = Raise KeyError).
Proof.
  unfold load_json_key, try_except_else. repeat split.
  - intros e He. destruct (json_loads data) as [d|e0].
    + unfold getitem. destruct d; try (intros [= <-]; discriminate He).
      match goal with
      | |- context [member ?m key] => destruct (member m key)
      end; [discriminate|].
      intros [= <-]; discriminate He.
    + cbn [first_handler]. destruct (issubclass e0 ValueError) eqn:He0.
      * intros [= <-]; discriminate He.
      * intros [= <-]. congruence.
  - intros e -> He. cbn [first_handler]. now rewrite He.
  - intros members -> Hm. cbn [getitem]. now rewrite Hm.
Qed.

End V13_facts.

Section V13_witness.
Import Py Json FS V13.


End V13_witness.

(** ** v30: the plain bucket and the bucket with the property *)

Section V30_more_facts.
Import Py V30 V30_spec.

Ltac plain_steps :=
  unfold fill, deduct, seq, read, ret, assign_reset_time;
  cbn [set_quota get_quota get_reset_time get_period_delta set_reset_time
       Plain.bucket_like Plain.period_delta Plain.reset_time Plain.quota
       fst snd].

(** The plain bucket of Example 1: [fill] and [deduct] never raise, the
    quota never becomes negative (for amounts that are not negative), a
    [deduct] that answers [False] changes nothing and one that answers
    [True] takes exactly the amount. *)
Theorem plain_bucket_quota (now amount : Z) (bucket : Plain.Bucket) :
  0 <= Plain.quota bucket ->
  0 <= amount ->
  (exists filled,
      fill now amount bucket = (Ok tt, filled)
      /\ 0 <= Plain.quota filled)
  /\ (exists had left,
         deduct now amount bucket = (Ok had, left)
         /\ 0 <= Plain.quota left
         /\ (had = false -> left = bucket)
         /\ (had = true ->
             Plain.quota left = Plain.quota bucket - amount
             /\ Plain.reset_time left = Plain.reset_time bucket)).
Proof.
  intros Hq Ha. split.
  - plain_steps.
    destruct (now - Plain.reset_time bucket >? Plain.period_delta bucket);
      cbn [Plain.quota fst snd]; eexists; (split; [reflexivity|]);
      cbn [Plain.quota]; lia.
  - plain_steps.
    destruct (now - Plain.reset_time bucket >? Plain.period_delta bucket).
    + exists false, bucket. repeat split; auto; discriminate.
    + destruct (Plain.quota bucket - amount <? 0) eqn:Hlt.
      * exists false, bucket. repeat split; auto; discriminate.
      * eexists true, _. split; [reflexivity|]. cbn [Plain.quota Plain.reset_time].
        repeat split; try discriminate; try lia.
Qed.

Lemma plain_bucket_quota_witness :
  exists had left,
    deduct 2 99 {| Plain.period_delta := 60; Plain.reset_time := 0;
                   Plain.quota := 100 |} = (Ok had, left)
    /\ 0 <= Plain.quota left.
Proof.
  destruct (plain_bucket_quota 2 99
              {| Plain.period_delta := 60; Plain.reset_time := 0;
                 Plain.quota := 100 |})
    as [_ (had & left & H & Hq & _)].
  - cbn. lia.
  - lia.
  - exists had, left. split; assumption.
Defined.

Ltac bucket_steps' :=
  unfold fill, deduct, seq, read, ret, assign_reset_time;
  cbn [set_quota get_quota get_reset_time get_period_delta set_reset_time
       bucket_like Plain.bucket_like Plain.period_delta Plain.reset_time
       Plain.quota period_delta reset_time max_quota quota_consumed
       fst snd].

Ltac tests_to_facts :=
  repeat match goal with
         | H : (_ =? _) = true |- _ => apply Z.eqb_eq in H
         | H : (_ =? _) = false |- _ => apply Z.eqb_neq in H
         | H : (_ <? _) = true |- _ => apply Z.ltb_lt in H
         | H : (_ <? _) = false |- _ => apply Z.ltb_ge in H
         | H : (_ >? _) = true |- _ => rewrite Z.gtb_ltb in H
         | H : (_ >? _) = false |- _ => rewrite Z.gtb_ltb in H
         | H : (_ >=? _) = true |- _ => rewrite Z.geb_leb in H
         | H : (_ >=? _) = false |- _ => rewrite Z.geb_leb in H
         | H : (_ <=? _) = true |- _ => apply Z.leb_le in H
         | H : (_ <=? _) = false |- _ => apply Z.leb_gt in H
         end.

(** As long as nothing was consumed ([quota_consumed == 0]) the bucket
    with the property does what the plain bucket does: [fill] and [deduct]
    give the same answers and corresponding buckets. *)
Theorem property_bucket_simulates_plain (now amount : Z)
    (plain : Plain.Bucket) (bucket : Bucket) :
  corresponds plain bucket ->
  quota_consumed bucket = 0 ->
  0 <= max_quota bucket ->
  0 <= amount ->
  (exists plain' bucket',
      fill now amount plain = (Ok tt, plain')
      /\ fill now amount bucket = (Ok tt, bucket')
      /\ corresponds plain' bucket'
      /\ quota_consumed bucket' = 0 /\ 0 <= max_quota bucket')
  /\ (exists had plain' bucket',
         deduct now amount plain = (Ok had, plain')
         /\ deduct now amount bucket = (Ok had, bucket')
         /\ corresponds plain' bucket').
Proof.
  destruct plain as [pp pr pq], bucket as [bp br bm bc].
  unfold corresponds, quota. cbn [Plain.period_delta Plain.reset_time
    Plain.quota period_delta reset_time max_quota quota_consumed].
  intros (-> & -> & ->) -> Hm Ha. split.
  - bucket_steps'. unfold quota_setter, quota, with_max_quota,
      with_quota_consumed.
    cbn [period_delta reset_time max_quota quota_consumed fst snd].
    repeat match goal with
           | |- context [if ?c then _ else _] => destruct c eqn:?
           end;
      cbn [period_delta reset_time max_quota quota_consumed fst snd
           Plain.period_delta Plain.reset_time Plain.quota] in *;
      tests_to_facts;
      first [ exfalso; lia
            | eexists _, _; repeat split; cbn; lia ].
  - bucket_steps'. unfold quota_setter, quota, with_max_quota,
      with_quota_consumed.
    cbn [period_delta reset_time max_quota quota_consumed fst snd].
    repeat match goal with
           | |- context [if ?c then _ else _] => destruct c eqn:?
           end;
      cbn [period_delta reset_time max_quota quota_consumed fst snd
           Plain.period_delta Plain.reset_time Plain.quota] in *;
      tests_to_facts;
      first [ exfalso; lia
            | eexists _, _, _; repeat split; cbn; lia ].
Qed.

Lemma property_bucket_simulates_plain_witness :
  exists had plain' bucket',
    deduct 2 99 {| Plain.period_delta := 60; Plain.reset_time := 0;
                   Plain.quota := 100 |} = (Ok had, plain')
    /\ deduct 2 99 {| period_delta := 60; reset_time := 0;
                      max_quota := 100; quota_consumed := 0 |}
       = (Ok had, bucket')
    /\ corresponds plain' bucket'.
Proof.
  apply (property_bucket_simulates_plain 2 99
           {| Plain.period_delta := 60; Plain.reset_time := 0;
              Plain.quota := 100 |}
           {| period_delta := 60; reset_time := 0;
              max_quota := 100; quota_consumed := 0 |}).
  - repeat split.
  - reflexivity.
  - cbn. lia.
  - lia.
Defined.

(** Once something was consumed, filling the bucket again within the
    period with more than was consumed fails: the setter's assertion
    [quota_consumed == 0] does not hold, and [fill] raises AssertionError
    and leaves the bucket as it was.  (The plain bucket takes the
    amount.) *)
Theorem fill_after_deduct_raises (now amount : Z) (bucket : Bucket) :
  now - reset_time bucket <= period_delta bucket ->
  0 < quota_consumed bucket <= max_quota bucket ->
  quota_consumed bucket < amount ->
  fill now amount bucket = (Raise AssertionError, bucket).
Proof.
  destruct bucket as [bp br bm bc].
  cbn [period_delta reset_time max_quota quota_consumed].
  intros Hnow Hc Ha.
  bucket_steps'. unfold quota_setter, quota, with_max_quota,
    with_quota_consumed.
  cbn [period_delta reset_time max_quota quota_consumed fst snd].
  repeat match goal with
         | |- context [if ?c then _ else _] => destruct c eqn:?
         end;
    cbn [period_delta reset_time max_quota quota_consumed fst snd] in *;
    tests_to_facts;
    first [ exfalso; lia | reflexivity ].
Qed.

Lemma fill_after_deduct_raises_witness :
  fill 3 100 {| period_delta := 60; reset_time := 0;
                max_quota := 100; quota_consumed := 99 |}
  = (Raise AssertionError,
     {| period_delta := 60; reset_time := 0;
        max_quota := 100; quota_consumed := 99 |}).
Proof.
  apply (fill_after_deduct_raises 3 100
           {| period_delta := 60; reset_time := 0;
              max_quota := 100; quota_consumed := 99 |});
    cbn; lia.
Defined.

End V30_more_facts.

(** ** v37: the factors, for every schedule of the threads *)

Section V37_facts.
Import Py V37.

Lemma run_loop_divisors number rest :
  match run_loop number rest with
  | Some (v, g') =>
      exists rest', g' = AtYield number rest'
                    /\ divisors_in number rest = v :: divisors_in number rest'
                    /\ (List.length rest' < List.length rest)%nat
  | None => divisors_in number rest = []
  end.
Proof.
  unfold divisors_in.
  induction rest as [|i rest IH]; [reflexivity|].
  cbn [run_loop]. rewrite filter_cons.
  destruct (number mod i =? 0) eqn:Hd.
  - apply Z.eqb_eq in Hd. rewrite decide_True by exact Hd.
    exists rest. repeat split. cbn. lia.
  - apply Z.eqb_neq in Hd. rewrite decide_False by exact Hd.
    destruct (run_loop number rest) as [[v g']|]; [|exact IH].
    destruct IH as (rest' & -> & Heq & Hlen).
    exists rest'. repeat split; [exact Heq|cbn; lia].
Qed.

Lemma next_remaining g :
  match next g with
  | (Some v, g') =>
      remaining g = v :: remaining g'
      /\ (List.length (pending g') < List.length (pending g))%nat
  | (None, g') => remaining g = [] /\ remaining g' = []
  end.
Proof.
  destruct g as [number|number rest|]; cbn [next remaining pending].
  - pose proof (run_loop_divisors number (range 1 (number + 1))) as H.
    destruct (run_loop number (range 1 (number + 1))) as [[v g']|].
    + destruct H as (rest' & -> & Heq & Hlen). now split.
    + now split.
  - pose proof (run_loop_divisors number rest) as H.
    destruct (run_loop number rest) as [[v g']|].
    + destruct H as (rest' & -> & Heq & Hlen). now split.
    + now split.
  - now split.
Qed.

Lemma list_fuel_remaining fuel :
  forall g, (List.length (pending g) < fuel)%nat ->
            list_fuel fuel g = Some (remaining g).
Proof.
  induction fuel as [|fuel IH]; intros g Hfuel; [lia|].
  cbn [list_fuel]. pose proof (next_remaining g) as H.
  destruct (next g) as [[v|] g'].
  - destruct H as [-> Hlen]. rewrite IH by lia. reflexivity.
  - destruct H as [-> _]. reflexivity.
Qed.

Lemma list_remaining g : list_ g = Some (remaining g).
Proof. unfold list_. apply list_fuel_remaining. lia. Qed.

Lemma In_range start stop i :
  In i (range start stop) <-> start <= i < stop.
Proof.
  unfold range. rewrite in_map_iff. split.
  - intros (k & <- & Hk). apply in_seq in Hk. lia.
  - intros Hi. exists (Z.to_nat (i - start)). split; [lia|].
    apply in_seq. lia.
Qed.

Lemma range_sorted start stop : StronglySorted Z.lt (range start stop).
Proof.
  unfold range. generalize (Z.to_nat (stop - start)) as n.
  intros n. generalize 0%nat as k. induction n as [|n IH]; intros k.
  - constructor.
  - cbn [List.seq map]. constructor; [apply IH|].
    apply Forall_forall. intros x Hx.
    apply list_elem_of_In, in_map_iff in Hx.
    destruct Hx as (j & <- & Hj). apply in_seq in Hj. lia.
Qed.

Lemma filter_sorted (P : Z -> Prop) `{forall x, Decision (P x)} l :
  StronglySorted Z.lt l -> StronglySorted Z.lt (filter P l).
Proof.
  induction 1 as [|x l Hs IH Hall]; [constructor|].
  rewrite filter_cons. destruct (decide (P x)); [|exact IH].
  constructor; [exact IH|].
  apply Forall_forall. intros y Hy.
  apply list_elem_of_filter in Hy as [_ Hy].
  rewrite Forall_forall in Hall. now apply Hall.
Qed.

(** [list(factorize(number))] returns, and returns the divisors of
    [number] between 1 and [number] in increasing order: nothing for a
    number below 1. *)
Theorem factorize_divisors (number : Z) :
  exists factors,
    list_ (factorize number) = Some factors
    /\ (forall i, In i factors <-> 1 <= i <= number /\ (i | number))
    /\ StronglySorted Z.lt factors.
Proof.
  exists (remaining (factorize number)). split; [apply list_remaining|].
  cbn [remaining factorize]. unfold divisors_in. split.
  - intros i. rewrite <- list_elem_of_In, list_elem_of_filter, list_elem_of_In.
    rewrite In_range. split.
    + intros [Hmod Hi]. split; [lia|]. apply Z.mod_divide; [lia|exact Hmod].
    + intros [Hi Hdiv]. split; [|lia]. apply Z.mod_divide; [lia|exact Hdiv].
  - apply filter_sorted, range_sorted.
Qed.

Lemma step_thread_ok t :
  thread_ok t ->
  thread_ok (step_thread t) /\ thread_number (step_thread t) = thread_number t.
Proof.
  destruct t as [number it collected|number fs]; [|now split].
  cbn [thread_ok step_thread]. intros Hok.
  pose proof (next_remaining it) as H.
  destruct (next it) as [[v|] it']; cbn [thread_ok thread_number].
  - destruct H as [Hrem _]. split; [|reflexivity].
    unfold append. rewrite <- app_assoc. cbn [app].
    now rewrite <- Hrem.
  - destruct H as [Hrem _]. split; [|reflexivity].
    rewrite Hrem, app_nil_r in Hok. exact Hok.
Qed.

Lemma alter_step_thread_ok k ts :
  Forall thread_ok ts ->
  Forall thread_ok (alter step_thread k ts)
  /\ map thread_number (alter step_thread k ts) = map thread_number ts.
Proof.
  revert k. induction ts as [|t ts IH]; intros k Hall; [now split|].
  apply Forall_cons in Hall as [Ht Hts].
  destruct k as [|k]; cbn [alter list_alter map].
  - destruct (step_thread_ok t Ht) as [Hok Hn].
    split; [now constructor|now rewrite Hn].
  - destruct (IH k Hts) as [Hok Hn].
    split; [now constructor|now rewrite Hn].
Qed.

Lemma step_ok numbers p t :
  program_ok numbers p -> program_ok numbers (step p t).
Proof.
  intros [Hn Hok]. destruct t as [|k]; cbn [step].
  - destruct (to_start p) as [|number rest] eqn:Hs.
    { split; [now rewrite Hs|exact Hok]. }
    split; cbn [threads to_start].
    + unfold append. rewrite map_app, <- app_assoc. exact Hn.
    + unfold append. apply Forall_app. split; [exact Hok|].
      constructor; [|constructor]. reflexivity.
  - destruct (alter_step_thread_ok k (threads p) Hok) as [Hok' Hn'].
    split; cbn [threads to_start]; [now rewrite Hn'|exact Hok'].
Qed.

Lemma run_ok numbers schedule :
  forall p, program_ok numbers p -> program_ok numbers (run schedule p).
Proof.
  unfold run. induction schedule as [|t schedule IH]; intros p Hp.
  - exact Hp.
  - cbn [fold_left]. apply IH, step_ok, Hp.
Qed.

Lemma joined_factors numbers p :
  program_ok numbers p -> joined p = true ->
  map factors (threads p) = serial numbers.
Proof.
  intros [Hn Hok] Hj. unfold joined in Hj.
  destruct (to_start p); [|discriminate]. rewrite app_nil_r in Hn.
  subst numbers. unfold serial. rewrite map_map.
  induction (threads p) as [|t ts IH]; [reflexivity|].
  cbn [forallb] in Hj. apply andb_prop in Hj as [Ht Hts].
  apply Forall_cons in Hok as [Hokt Hokts].
  cbn [map]. rewrite (IH Hokts Hts). f_equal.
  destruct t as [|number fs]; [discriminate|].
  cbn [factors thread_number thread_ok] in *. rewrite list_remaining.
  now rewrite Hokt.
Qed.

Lemma step_thread_work t :
  returned t = false -> (work (step_thread t) < work t)%nat.
Proof.
  destruct t as [number it collected|]; [|discriminate]. intros _.
  cbn [step_thread work]. pose proof (next_remaining it) as H.
  destruct (next it) as [[v|] it']; cbn [work]; [|lia].
  destruct H as [_ H]. lia.
Qed.

Lemma list_sum_cons x l : list_sum (x :: l) = (x + list_sum l)%nat.
Proof. reflexivity. Qed.

Lemma alter_work k ts t :
  ts !! k = Some t -> returned t = false ->
  (list_sum (map work (alter step_thread k ts)) < list_sum (map work ts))%nat.
Proof.
  revert k. induction ts as [|t' ts IH]; intros k Hk Ht; [discriminate|].
  destruct k as [|k]; cbn [alter list_alter map]; rewrite !list_sum_cons.
  - cbn in Hk. injection Hk as ->.
    pose proof (step_thread_work t Ht). lia.
  - cbn in Hk. pose proof (IH k Hk Ht). lia.
Qed.

Lemma not_joined_turn p :
  joined p = false ->
  exists t, (program_work (step p t) < program_work p)%nat.
Proof.
  unfold joined, program_work. intros Hj.
  destruct (to_start p) as [|number rest] eqn:Hs.
  - assert (exists k t, threads p !! k = Some t /\ returned t = false)
      as (k & t & Hk & Ht).
    { clear Hs. induction (threads p) as [|t ts IH]; [discriminate|].
      cbn [forallb] in Hj. destruct (returned t) eqn:Ht.
      - destruct (IH Hj) as (k & t' & Hk & Ht'). now exists (S k), t'.
      - now exists 0%nat, t. }
    exists (Thread k). cbn [step to_start threads]. rewrite Hs.
    pose proof (alter_work k (threads p) t Hk Ht). cbn [map list_sum]. lia.
  - exists Main. cbn [step]. rewrite Hs. cbn [to_start threads].
    unfold append. rewrite map_app, list_sum_app.
    cbn [map]. rewrite !list_sum_cons.
    cbn [work pending factorize].
    change (list_sum (@nil nat)) with 0%nat. lia.
Qed.

Lemma can_join n :
  forall p, (program_work p < n)%nat ->
            exists more, joined (run more p) = true.
Proof.
  induction n as [|n IH]; intros p Hp; [lia|].
  destruct (joined p) eqn:Hj.
  - now exists [].
  - destruct (not_joined_turn p Hj) as [t Ht].
    destruct (IH (step p t)) as [more Hmore]; [lia|].
    now exists (t :: more).
Qed.

Lemma run_app schedule more p :
  run (schedule ++ more) p = run more (run schedule p).
Proof. unfold run. apply fold_left_app. Qed.

(** Whatever turns the threads and the main thread have taken, the main
    thread's joins can still return; and whenever they have returned,
    every thread's [factors] is the list of the serial loop for its
    number, in the order of [numbers]. *)
Theorem threads_compute_serial_results (numbers : list Z)
    (schedule : list turn) :
  (joined (run schedule (initial numbers)) = true ->
   map factors (threads (run schedule (initial numbers))) = serial numbers)
  /\ exists more,
       joined (run (schedule ++ more) (initial numbers)) = true.
Proof.
  assert (Hok : program_ok numbers (run schedule (initial numbers))).
  { apply run_ok. split; [reflexivity|constructor]. }
  split.
  - now apply joined_factors.
  - destruct (can_join (S (program_work (run schedule (initial numbers))))
                (run schedule (initial numbers))) as [more Hmore]; [lia|].
    exists more. now rewrite run_app.
Qed.

End V37_facts.

(** ** v51: what the handlers of Examples 5 and 7 do *)

Section V51_more_facts.
Import Py V51.

Ltac run_cell :=
  unfold seq, read, modify, lift, ret, raise, try_except,
    try_except_else_stmt, assert_stmt, assert_;
  cbn [my_module weight logged mod_Error mod_InvalidDensityError
       mod_NegativeDensityError mod_determine_weight fst snd app].

(** The handlers of Example 5 sort what the API does: an
    InvalidDensityError sets [weight = 0]; another error of the module is
    logged as a bug in the calling code, after which the final assert
    fails; any other Exception is logged as a bug in the API code and
    raised again, and so is the AssertionError of [assert False] when the
    call returns; what is not an Exception passes unlogged. *)
Theorem example_5_outcomes (volume density : Z) (s : state) :
  mod_Error (my_module s) = Error ->
  mod_InvalidDensityError (my_module s) = InvalidDensityError ->
  let with_weight v := {| my_module := my_module s; weight := Some v;
                          logged := logged s |} in
  let logging v msg :=
    {| my_module := my_module s; weight := Some v;
       logged := append (logged s) {| message := msg; exc_info := None |} |} in
  example_5 volume density s
  = match mod_determine_weight (my_module s) volume density with
    | Ok w =>
        (Raise AssertionError, logging w "Bug in the API code: %s")
    | Raise e =>
        if issubclass e InvalidDensityError
        then (Ok tt, with_weight (VInt 0))
        else if issubclass e Error
        then (Raise AssertionError,
              logging (VInt 5) "Bug in the calling code: %s")
        else if issubclass e Exception_
        then (Raise e, logging (VInt 5) "Bug in the API code: %s")
        else (Raise e, with_weight (VInt 5))
    end.
Proof.
  intros HE HI with_weight logging. subst with_weight logging.
  unfold example_5, call_determine_weight, set_weight, log,
    assert_weight_is_0.
  destruct s as [m w l]. cbn [my_module] in HE, HI. run_cell.
  rewrite HE, HI.
  destruct (mod_determine_weight m volume density) as [v|e].
  - reflexivity.
  - cbn [first_handler].
    destruct (issubclass e InvalidDensityError); [reflexivity|].
    destruct (issubclass e Error); [reflexivity|].
    destruct (issubclass e Exception_); reflexivity.
Qed.

Lemma example_5_outcomes_witness :
  example_5 1 (-1) initial
  = (Ok tt, {| my_module := my_module_initial; weight := Some (VInt 0);
               logged := [] |}).
Proof.
  rewrite (example_5_outcomes 1 (-1) initial); reflexivity.
Defined.

(** With the function of Example 6 in the module, Example 7 ends without
    an exception for every density.  A negative density is answered with
    the ValueError, which the outer [except] logs.  For any other density
    the call returns [None]; [assert False] then fails, is logged as a
    bug in the API code and raised again, and the outer [except] logs it
    as expected too: the failed assertion does not end the cell. *)
Theorem example_7_hides_assertion (volume density : Z) (s : state) :
  mod_Error (my_module s) = Error ->
  mod_InvalidDensityError (my_module s) = InvalidDensityError ->
  let rebound := {| mod_Error := Error;
                    mod_InvalidDensityError := InvalidDensityError;
                    mod_NegativeDensityError := Some NegativeDensityError;
                    mod_determine_weight := determine_weight |} in
  example_7 volume density s
  = if density <? 0
    then (Ok tt,
          {| my_module := rebound; weight := weight s;
             logged := append (logged s)
                         {| message := "Expected";
                            exc_info := Some ValueError |} |})
    else (Ok tt,
          {| my_module := rebound; weight := Some VNone;
             logged := append
                         (append (logged s)
                            {| message := "Bug in the API code: %s";
                               exc_info := None |})
                         {| message := "Expected";
                            exc_info := Some AssertionError |} |}).
Proof.
  intros HE HI rebound. subst rebound.
  unfold example_7, call_determine_weight, set_weight, set_my_module, log.
  destruct s as [m w l]. cbn [my_module] in HE, HI. run_cell.
  rewrite HE, HI. unfold determine_weight.
  destruct (density <? 0); reflexivity.
Qed.

Lemma example_7_hides_assertion_witness :
  fst (example_7 1 0 initial) = Ok tt
  /\ weight (snd (example_7 1 0 initial)) = Some VNone.
Proof.
  rewrite (example_7_hides_assertion 1 0 initial); [|reflexivity..].
  split; reflexivity.
Defined.

End V51_more_facts.

(** ** Keyword-only arguments: the three functions compared *)

Section KeywordOnly_more_facts.
Import Py KeywordOnly.

Lemma bind_keywords_kwonly kwargs :
  forall e,
    bind_keywords
      [required "number"; required "divisor";
       keyword_only "ignore_overflow" (VBool false);
       keyword_only "ignore_zero_division" (VBool false)] kwargs e
    = bind_keywords
        [required "number"; required "divisor";
         optional "ignore_overflow" (VBool false);
         optional "ignore_zero_division" (VBool false)] kwargs e.
Proof.
  induction kwargs as [|[k v] kwargs IH]; intros e; [reflexivity|].
  cbn [bind_keywords].
  change (has_param
            [required "number"; required "divisor";
             keyword_only "ignore_overflow" (VBool false);
             keyword_only "ignore_zero_division" (VBool false)] k)
    with (has_param
            [required "number"; required "divisor";
             optional "ignore_overflow" (VBool false);
             optional "ignore_zero_division" (VBool false)] k).
  destruct (negb _); [reflexivity|].
  destruct (e !! k); [reflexivity|]. apply IH.
Qed.

(** Called with at most two positional arguments, the function with
    keyword-only flags does what the function with optional flags does,
    for all keyword arguments (also unknown and repeated ones). *)
Theorem safe_division_c_as_b (args : list value)
    (kwargs : list (string * value)) :
  (List.length args <= 2)%nat ->
  safe_division_c args kwargs = safe_division_b args kwargs.
Proof.
  intros Hlen. unfold safe_division_c, safe_division_b, bind_arguments.
  destruct args as [|a [|b [|c args]]]; cbn [List.length] in Hlen; try lia;
    cbn [bind_positional bind required p_kwonly p_name];
    rewrite bind_keywords_kwonly; reflexivity.
Qed.

Lemma safe_division_c_as_b_witness :
  safe_division_c [VInt 1; VInt 0] [("ignore_zero_division", VBool true)]
  = safe_division_b [VInt 1; VInt 0] [("ignore_zero_division", VBool true)].
Proof.
  apply (safe_division_c_as_b [VInt 1; VInt 0]
           [("ignore_zero_division", VBool true)]).
  cbn. lia.
Defined.

(** The flags passed by keyword, in either order, or left out, reach the
    body as the flags passed by position do: a call of [safe_division_b] with
    keywords is the call of [safe_division] with the same flags, [False]
    for a flag left out. *)
Theorem safe_division_b_keywords (number divisor : value)
    (ignore_overflow ignore_zero_division : option value) :
  safe_division_b [number; divisor]
    (flags ignore_overflow ignore_zero_division)
  = safe_division
      [number; divisor; flag ignore_overflow; flag ignore_zero_division] []
  /\ (forall o z,
         safe_division_b [number; divisor]
           [("ignore_zero_division", z); ("ignore_overflow", o)]
         = safe_division [number; divisor; o; z] [])
  /\ (forall o z,
         safe_division_b [number; divisor; o; z] []
         = safe_division [number; divisor; o; z] []).
Proof.
  split; [|split].
  - destruct ignore_overflow as [o|], ignore_zero_division as [z|];
      reflexivity.
  - intros o z. reflexivity.
  - intros o z. reflexivity.
Qed.

End KeywordOnly_more_facts.

(** ** Default arguments: when the default of [log] is evaluated *)

Section DefaultWhen_facts.
Import Py DefaultWhen.

Variable str_datetime : datetime -> string.


End DefaultWhen_facts.

(** ** Default arguments: [decode] with a default given *)

Section DefaultArgs_more_facts.
Import Py Json DefaultArgs.

Variable json_loads : string -> Res json.

(** When the data does not parse and a default is given, both versions
    of [decode] return the caller's own object and make no other.  They
    differ for [default=None] given by the caller: the first version
    returns [None], the second a new dictionary, as when the argument is
    left out. *)
Theorem decode_given_default (data : string) (default : value) (s : state) :
  parse_fails json_loads data ->
  (py_is default VNone = Some false ->
   decode_shared json_loads data (Some default) s = (Ok default, s)
   /\ decode json_loads data (Some default) s = (Ok default, s))
  /\ decode_shared json_loads data (Some VNone) s = (Ok VNone, s)
  /\ decode json_loads data (Some VNone) s = new (ODict ∅) s.
Proof.
  intros (e & He & Hsub). split; [|split].
  - intros Hnot. split.
    + unfold decode_shared, seq, ret, try_except, lift. rewrite He.
      cbn [first_handler]. rewrite Hsub. reflexivity.
    + unfold decode, seq, ret, try_except, lift. rewrite Hnot, He.
      cbn [first_handler]. rewrite Hsub. reflexivity.
  - unfold decode_shared, seq, ret, try_except, lift. rewrite He.
    cbn [first_handler]. rewrite Hsub. reflexivity.
  - unfold decode, seq, try_except, lift. cbn [py_is].
    destruct (new (ODict ∅) s) as [[v|e'] s'] eqn:Hnew; [|reflexivity].
    rewrite He. cbn [first_handler]. rewrite Hsub. reflexivity.
Qed.

End DefaultArgs_more_facts.

Section DefaultArgs_more_witness.
Import Py Json DefaultArgs.

Lemma decode_given_default_witness :
  decode_shared loads "bad data" (Some VNone) initial = (Ok VNone, initial).
Proof.
  apply (decode_given_default loads "bad data" VNone initial).
  exists JSONDecodeError. split; reflexivity.
Defined.

End DefaultArgs_more_witness.

(** ** Pickle and copyreg: round trip, and what cannot be loaded *)

Section PickleCopyreg_more_facts.
Import Py FS PickleCopyreg PickleCopyreg_spec.

(** After [del GameState] nothing that was pickled through
    [unpickle_game_state] can be loaded: the function still calls
    [GameState], and the name is gone.  Data pickled as a call of
    [__main__.unpickle_game_state] with [version = 2] and plain values,
    as that of Example 25 is, raises NameError, with either definition of
    the function; so the stable import path alone does not bring the
    data back. *)
Theorem loads_after_del_GameState (s : session) (f : constructor)
    (kwargs : gmap string value) :
  GameState s = None ->
  unpickle_game_state s = Some f ->
  kwargs !! "version" = Some (VInt 2) ->
  plain_attributes kwargs ->
  loads (PReduce "__main__" "unpickle_game_state" kwargs) s
  = (Raise NameError, s).
Proof.
  intros Hc Hf Hv _. unfold loads, seq at 1 2, read at 1. rewrite Hf.
  cbn [String.eqb Ascii.eqb Bool.eqb].
  destruct f; unfold construct_with.
  - unfold call_GameState, seq, read. rewrite Hc. reflexivity.
  - rewrite Hv. change (py_eq (VInt 2) (VInt 1)) with false. cbv iota.
    unfold call_GameState, seq, read, ret. rewrite Hc. reflexivity.
Qed.

Lemma plain_attributes_integers (l : list (string * Z)) :
  plain_attributes (attributes l).
Proof.
  unfold plain_attributes, attributes.
  induction l as [|[k n] l IH]; cbn [map list_to_map].
  - apply map_Forall_empty.
  - apply map_Forall_insert_2; [reflexivity|exact IH].
Qed.

Lemma loads_after_del_GameState_witness :
  loads (PReduce "__main__" "unpickle_game_state"
           (attributes [("level", 0); ("points", 0); ("magic", 5);
                        ("version", 2)])) after_notebook
  = (Raise NameError, after_notebook).
Proof.
  apply (loads_after_del_GameState after_notebook unpickle_game_state_19).
  - vm_compute. reflexivity.
  - vm_compute. reflexivity.
  - vm_compute. reflexivity.
  - apply plain_attributes_integers.
Defined.

(** [unpickle_game_state] of Example 19 takes data without a version (or
    with a version equal to 1) for data of the first version and removes
    its [lives]; when such data has no [lives] it raises KeyError and
    makes no object. *)
Theorem unpickle_game_state_without_lives (s : session)
    (kwargs : gmap string value) :
  kwargs !! "lives" = None ->
  (kwargs !! "version" = None
   \/ exists v, kwargs !! "version" = Some v /\ py_eq v (VInt 1) = true) ->
  construct_with unpickle_game_state_19 kwargs s = (Raise KeyError, s).
Proof.
  intros Hl [Hv|(v & Hv & H1)]; unfold construct_with; rewrite Hv.
  - change (py_eq (VInt 1) (VInt 1)) with true. cbv iota.
    unfold seq. rewrite Hl. reflexivity.
  - rewrite H1. unfold seq.
    rewrite lookup_delete_ne by discriminate. rewrite Hl. reflexivity.
Qed.

Lemma unpickle_game_state_without_lives_witness :
  construct_with unpickle_game_state_19
    (attributes [("level", 3); ("points", 7)]) after_notebook
  = (Raise KeyError, after_notebook).
Proof.
  apply (unpickle_game_state_without_lives after_notebook
           (attributes [("level", 3); ("points", 7)])).
  - vm_compute. reflexivity.
  - left. vm_compute. reflexivity.
Defined.

(** Without a function registered for its class, an instance with
    plain attributes (no attribute refers to another object) whose class
    is still bound to its name survives [pickle.loads(pickle.dumps(obj))]:
    the result is a new object, of the same class, with the same
    attributes and values, and the instance itself is as it was. *)
Theorem pickle_round_trip (s : session) (l : loc) (cid : nat)
    (d : gmap string value) (c c' : class_) :
  heap_wf (the_heap s) ->
  objects (the_heap s) !! l = Some (OInstance cid d) ->
  plain_attributes d ->
  registered (dispatch_table s) cid = None ->
  nth_error (classes s) cid = Some c ->
  bound_class (c_name c) s = Some c' ->
  c_id c' = cid ->
  exists s1 s2,
    dumps (VRef l) s = (Ok (PInstance "__main__" (c_name c) d), s1)
    /\ loads (PInstance "__main__" (c_name c) d) s1
       = (Ok (VRef (next_loc (the_heap s))), s2)
    /\ next_loc (the_heap s) <> l
    /\ objects (the_heap s2) !! next_loc (the_heap s)
       = Some (OInstance cid d)
    /\ objects (the_heap s2) !! l = Some (OInstance cid d).
Proof.
  intros Hwf Hl _ Hreg Hc Hb Hid.
  assert (Hne : next_loc (the_heap s) <> l).
  { intros <-. pose proof (Hwf (next_loc (the_heap s))) as H.
    assert (is_Some (objects (the_heap s) !! next_loc (the_heap s)))
      as Hsome by (rewrite Hl; eauto).
    specialize (H Hsome). lia. }
  eexists _, _. split; [|split; [|split; [exact Hne|]]].
  - unfold dumps, deref, seq at 1, read at 1. rewrite Hl.
    unfold seq at 1, read at 1. rewrite Hreg.
    unfold seq at 1 2, read at 1. rewrite Hc.
    unfold seq at 1, read at 1. rewrite Hb. rewrite Hid, Nat.eqb_refl.
    unfold ret at 1. unfold seq, read, record, modify, ret. reflexivity.
  - unfold loads, seq at 1 2, read at 1.
    change (bound_class (c_name c) (set_events ?e s))
      with (bound_class (c_name c) s).
    rewrite Hb. unfold new, alloc, seq, read, record, modify, ret.
    cbn [the_heap set_events set_the_heap]. rewrite Hid. reflexivity.
  - cbn [the_heap set_events set_the_heap objects].
    split; [apply lookup_insert_eq|].
    rewrite lookup_insert_ne by exact Hne. exact Hl.
Qed.

Lemma heap_wf_after_example_2 : heap_wf (the_heap after_example_2).
Proof.
  intros l [o Ho].
  change (next_loc (the_heap after_example_2)) with 2%positive.
  destruct (decide (l = 1%positive)) as [->|Hne]; [lia|].
  exfalso. revert Ho.
  change (objects (the_heap after_example_2))
    with (<[1%positive :=
              OInstance 0 (<["lives" := VInt (4 + -1)]>
                             (<["level" := VInt (0 + 1)]>
                                (∅ ∪ attributes [("level", 0);
                                                 ("lives", 4)])))]>
            (<[1%positive :=
                 OInstance 0 (<["level" := VInt (0 + 1)]>
                                (∅ ∪ attributes [("level", 0);
                                                 ("lives", 4)]))]>
               (<[1%positive :=
                    OInstance 0 (∅ ∪ attributes [("level", 0);
                                                 ("lives", 4)])]>
                  (∅ : gmap loc object)))).
  rewrite !lookup_insert_ne by congruence.
  rewrite lookup_empty. discriminate.
Defined.

Lemma pickle_round_trip_witness :
  exists s1 s2,
    dumps (VRef 1%positive) after_example_2
    = (Ok (PInstance "__main__" "GameState"
             (attributes [("level", 1); ("lives", 3)])), s1)
    /\ loads (PInstance "__main__" "GameState"
                (attributes [("level", 1); ("lives", 3)])) s1
       = (Ok (VRef 2%positive), s2).
Proof.
  destruct (pickle_round_trip after_example_2 1%positive 0%nat
              (attributes [("level", 1); ("lives", 3)])
              {| c_id := 0; c_name := "GameState"; c_params := [];
                 c_fixed := attributes [("level", 0); ("lives", 4)] |}
              {| c_id := 0; c_name := "GameState"; c_params := [];
                 c_fixed := attributes [("level", 0); ("lives", 4)] |})
    as (s1 & s2 & H1 & H2 & _).
  - exact heap_wf_after_example_2.
  - vm_compute. reflexivity.
  - apply plain_attributes_integers.
  - reflexivity.
  - reflexivity.
  - reflexivity.
  - reflexivity.
  - exists s1, s2. split; [exact H1|exact H2].
Defined.

End PickleCopyreg_more_facts.

(** ** v03: [to_str] and [to_bytes] undo each other *)

Section V03_text_facts.
Import V03_text.

Ltac tests :=
  unfold continuation, between in *;
  repeat match goal with
         | H : (_ && _) = true |- _ => apply andb_prop in H as [? ?]
         | H : (_ && _) = false |- _ => apply andb_false_iff in H
         | H : (_ <=? _) = true |- _ => apply Z.leb_le in H
         | H : (_ <=? _) = false |- _ => apply Z.leb_gt in H
         | H : (_ <? _) = true |- _ => apply Z.ltb_lt in H
         | H : (_ <? _) = false |- _ => apply Z.ltb_ge in H
         | H : (_ =? _) = true |- _ => apply Z.eqb_eq in H
         | H : (_ =? _) = false |- _ => apply Z.eqb_neq in H
         end.

Ltac test_true :=
  unfold continuation, between;
  repeat (apply andb_true_intro; split);
  first [apply Z.leb_le | apply Z.ltb_lt | apply Z.eqb_eq];
  Z.div_mod_to_equations; lia.

Lemma decode_encode_char c b rest :
  encode_char c = Returned b ->
  decode (b ++ rest) = and_then (decode rest) (fun s => Returned (c :: s)).
Proof.
  unfold encode_char.
  destruct (c <? 0) eqn:H0; [discriminate|].
  destruct (c <? 128) eqn:H1.
  { intros [= <-]. tests. cbn [app decode].
    replace (between 0 127 c) with true by (symmetry; test_true).
    reflexivity. }
  destruct (c <? 2048) eqn:H2.
  { intros [= <-]. tests. cbn [app decode].
    replace (between 0 127 (192 + c / 64)) with false
      by (symmetry; unfold between; apply andb_false_iff; right;
          apply Z.leb_gt; Z.div_mod_to_equations; lia).
    replace (between 194 223 (192 + c / 64)) with true by (symmetry; test_true).
    replace (continuation (128 + c mod 64)) with true by (symmetry; test_true).
    replace ((192 + c / 64 - 192) * 64 + (128 + c mod 64 - 128)) with c
      by (Z.div_mod_to_equations; lia).
    reflexivity. }
  destruct (c <? 65536) eqn:H3.
  { destruct (between 55296 57343 c) eqn:Hs; [discriminate|].
    intros [= <-]. tests. cbn [app decode].
    replace (between 0 127 (224 + c / 4096)) with false
      by (symmetry; unfold between; apply andb_false_iff; right;
          apply Z.leb_gt; Z.div_mod_to_equations; lia).
    replace (between 194 223 (224 + c / 4096)) with false
      by (symmetry; unfold between; apply andb_false_iff; right;
          apply Z.leb_gt; Z.div_mod_to_equations; lia).
    replace (between 224 239 (224 + c / 4096)) with true
      by (symmetry; test_true).
    replace (continuation (128 + c mod 64)) with true by (symmetry; test_true).
    replace (between (if 224 + c / 4096 =? 224 then 160 else 128)
               (if 224 + c / 4096 =? 237 then 159 else 191)
               (128 + (c / 64) mod 64)) with true.
    2:{ symmetry. unfold between. apply andb_true_intro.
        destruct (224 + c / 4096 =? 224) eqn:Ha,
                 (224 + c / 4096 =? 237) eqn:Hb; tests;
          split; apply Z.leb_le; Z.div_mod_to_equations; lia. }
    cbn [andb].
    replace ((224 + c / 4096 - 224) * 4096 + (128 + (c / 64) mod 64 - 128) * 64
             + (128 + c mod 64 - 128)) with c
      by (Z.div_mod_to_equations; lia).
    reflexivity. }
  destruct (c <=? 1114111) eqn:H4; [|discriminate].
  intros [= <-]. tests. cbn [app decode].
  replace (between 0 127 (240 + c / 262144)) with false
    by (symmetry; unfold between; apply andb_false_iff; right;
        apply Z.leb_gt; Z.div_mod_to_equations; lia).
  replace (between 194 223 (240 + c / 262144)) with false
    by (symmetry; unfold between; apply andb_false_iff; right;
        apply Z.leb_gt; Z.div_mod_to_equations; lia).
  replace (between 224 239 (240 + c / 262144)) with false
    by (symmetry; unfold between; apply andb_false_iff; right;
        apply Z.leb_gt; Z.div_mod_to_equations; lia).
  replace (between 240 244 (240 + c / 262144)) with true
    by (symmetry; test_true).
  replace (continuation (128 + c mod 64)) with true by (symmetry; test_true).
  replace (continuation (128 + (c / 64) mod 64)) with true
    by (symmetry; test_true).
  replace (between (if 240 + c / 262144 =? 240 then 144 else 128)
             (if 240 + c / 262144 =? 244 then 143 else 191)
             (128 + (c / 4096) mod 64)) with true.
  2:{ symmetry. unfold between. apply andb_true_intro.
      destruct (240 + c / 262144 =? 240) eqn:Ha,
               (240 + c / 262144 =? 244) eqn:Hb; tests;
        split; apply Z.leb_le; Z.div_mod_to_equations; lia. }
  cbn [andb].
  replace ((240 + c / 262144 - 240) * 262144
           + (128 + (c / 4096) mod 64 - 128) * 4096
           + (128 + (c / 64) mod 64 - 128) * 64 + (128 + c mod 64 - 128))
    with c by (Z.div_mod_to_equations; lia).
  reflexivity.
Qed.

Lemma decode_encode s :
  forall b, encode s = Returned b -> decode b = Returned s.
Proof.
  induction s as [|c s IH]; intros b.
  - intros [= <-]. reflexivity.
  - cbn [encode]. unfold and_then at 1.
    destruct (encode_char c) as [bc|] eqn:Hc; [|discriminate].
    unfold and_then. destruct (encode s) as [bs|]; [|discriminate].
    intros [= <-]. rewrite (decode_encode_char c bc bs Hc).
    now rewrite (IH bs eq_refl).
Qed.

Ltac test_false :=
  first [apply Z.leb_gt | apply Z.ltb_ge | apply Z.eqb_neq];
  Z.div_mod_to_equations; lia.

Ltac decide_encode_tests :=
  repeat match goal with
         | |- context [if ?a <? ?b then _ else _] =>
             first [ replace (a <? b) with true by (symmetry; test_true)
                   | replace (a <? b) with false by (symmetry; test_false) ]
         | |- context [if ?a <=? ?b then _ else _] =>
             first [ replace (a <=? b) with true by (symmetry; test_true)
                   | replace (a <=? b) with false by (symmetry; test_false) ]
         end.

Lemma encode_decode_fuel n :
  forall b, (List.length b <= n)%nat ->
            forall s, decode b = Returned s -> encode s = Returned b.
Proof.
  induction n as [|n IH]; intros b Hn s.
  { destruct b; [|cbn in Hn; lia]. intros [= <-]. reflexivity. }
  destruct b as [|b0 rest]; [intros [= <-]; reflexivity|].
  cbn [List.length] in Hn. cbn [decode].
  destruct (between 0 127 b0) eqn:H1.
  { unfold and_then at 1. destruct (decode rest) as [s'|] eqn:Hd;
      [|discriminate].
    intros [= <-]. cbn [encode]. rewrite (IH rest ltac:(lia) s' Hd).
    tests. unfold encode_char. decide_encode_tests. reflexivity. }
  destruct (between 194 223 b0) eqn:H2.
  { destruct rest as [|b1 rest]; [discriminate|].
    destruct (continuation b1) eqn:Hc1; [|discriminate].
    unfold and_then at 1. destruct (decode rest) as [s'|] eqn:Hd;
      [|discriminate].
    intros [= <-]. cbn [encode List.length] in *.
    rewrite (IH rest ltac:(lia) s' Hd).
    clear H1. tests. unfold encode_char. decide_encode_tests.
    cbn [and_then app]. do 3 f_equal; Z.div_mod_to_equations; lia. }
  destruct (between 224 239 b0) eqn:H3.
  { destruct rest as [|b1 [|b2 rest]]; try discriminate.
    destruct (between _ _ b1 && continuation b2) eqn:Hc; [|discriminate].
    unfold and_then at 1. destruct (decode rest) as [s'|] eqn:Hd;
      [|discriminate].
    intros [= <-]. cbn [encode List.length] in *.
    rewrite (IH rest ltac:(lia) s' Hd).
    clear H1 H2.
    apply andb_prop in Hc as [Hb1 Hb2].
    assert (Hb1' : (if b0 =? 224 then 160 else 128) <= b1
                   <= (if b0 =? 237 then 159 else 191))
      by (unfold between in Hb1; apply andb_prop in Hb1 as [? ?]; lia).
    clear Hb1. tests.
    assert (Hcp : 2048 <= (b0 - 224) * 4096 + (b1 - 128) * 64 + (b2 - 128)
                  < 65536
                  /\ ~ (55296 <= (b0 - 224) * 4096 + (b1 - 128) * 64
                                 + (b2 - 128) <= 57343)
                  /\ 128 <= b1 <= 191).
    { destruct (b0 =? 224) eqn:Ha, (b0 =? 237) eqn:Hb; tests; lia. }
    unfold encode_char. decide_encode_tests.
    replace (between 55296 57343 _) with false.
    2:{ symmetry. unfold between. apply andb_false_iff.
        destruct (Z_le_gt_dec 55296
                    ((b0 - 224) * 4096 + (b1 - 128) * 64 + (b2 - 128)));
          [right|left]; [apply Z.leb_gt|apply Z.leb_gt]; lia. }
    cbn [and_then app]. do 4 f_equal; Z.div_mod_to_equations; lia. }
  destruct (between 240 244 b0) eqn:H4; [|discriminate].
  destruct rest as [|b1 [|b2 [|b3 rest]]]; try discriminate.
  destruct (between _ _ b1 && continuation b2 && continuation b3) eqn:Hc;
    [|discriminate].
  unfold and_then at 1. destruct (decode rest) as [s'|] eqn:Hd;
    [|discriminate].
  intros [= <-]. cbn [encode List.length] in *.
  rewrite (IH rest ltac:(lia) s' Hd).
  clear H1 H2 H3.
  apply andb_prop in Hc as [Hc Hb3]. apply andb_prop in Hc as [Hb1 Hb2].
  assert (Hb1' : (if b0 =? 240 then 144 else 128) <= b1
                 <= (if b0 =? 244 then 143 else 191))
    by (unfold between in Hb1; apply andb_prop in Hb1 as [? ?]; lia).
  clear Hb1. tests.
  assert (Hcp : 65536 <= (b0 - 240) * 262144 + (b1 - 128) * 4096
                         + (b2 - 128) * 64 + (b3 - 128) <= 1114111
                /\ 128 <= b1 <= 191).
  { destruct (b0 =? 240) eqn:Ha, (b0 =? 244) eqn:Hb; tests; lia. }
  unfold encode_char. decide_encode_tests.
  cbn [and_then app]. do 5 f_equal; Z.div_mod_to_equations; lia.
Qed.

Lemma encode_decode b s : decode b = Returned s -> encode s = Returned b.
Proof. apply (encode_decode_fuel (List.length b)). lia. Qed.

(** [to_bytes] returns bytes and [to_str] a str; what [to_bytes] makes of
    a str, [to_str] turns back into that str, and what [to_str] makes of
    bytes, [to_bytes] turns back into those bytes.  ([to_bytes] raises for
    a str with a surrogate, [to_str] for bytes that are not UTF-8; each
    returns its argument when it has the right type already.) *)
Theorem to_str_to_bytes_round_trip (x y : str_or_bytes) :
  (to_bytes x = Returned y ->
   (exists b, y = Bytes_ b)
   /\ match x with
      | Str _ => to_str y = Returned x
      | Bytes_ _ => y = x
      end)
  /\ (to_str x = Returned y ->
      (exists s, y = Str s)
      /\ match x with
         | Bytes_ _ => to_bytes y = Returned x
         | Str _ => y = x
         end).
Proof.
  split.
  - destruct x as [s|b]; cbn [to_bytes].
    + unfold and_then. destruct (encode s) as [b|] eqn:He; [|discriminate].
      intros [= <-]. split; [eauto|].
      cbn [to_str]. now rewrite (decode_encode s b He).
    + intros [= <-]. split; eauto.
  - destruct x as [s|b]; cbn [to_str].
    + intros [= <-]. split; eauto.
    + unfold and_then. destruct (decode b) as [s|] eqn:Hd; [|discriminate].
      intros [= <-]. split; [eauto|].
      cbn [to_bytes]. now rewrite (encode_decode b s Hd).
Qed.

End V03_text_facts.

(** ** v43: what the context managers restore *)

Section V43_logging_facts.
Import Py V43_logging.

Example v43_logging_cells :
  written (snd ((my_function ;;; example_6 ;;; example_9 false ;;;
                 example_10 false) initial))
  = [ "ERROR:root:Error log here";
      "DEBUG:root:Some debug data"; "ERROR:root:Error log here";
      "DEBUG:root:More debug data"; "ERROR:root:Error log here";
      "DEBUG:my-log:This is my message!";
      "ERROR:my-log:Error will print" ].
Proof. vm_compute. reflexivity. Qed.

(** [with debug_logging(level): body] runs the body with the root
    logger at [level], ends as the body ends (with its result or its
    exception), and leaves the root logger at the level it had before,
    whatever the body did. *)
Theorem debug_logging_restores {A} (level : Z) (body : stmt state A)
    (s : state) :
  fst (debug_logging level body s) = fst (body (set_root_level level s))
  /\ root_level (snd (debug_logging level body s)) = root_level s
  /\ levels (snd (debug_logging level body s))
     = levels (snd (body (set_root_level level s))).
Proof.
  unfold debug_logging, seq, read, setLevel, modify, try_finally.
  cbn [getEffectiveLevel].
  destruct (body (set_root_level level s)) as [r s']. cbn [fst snd].
  repeat split.
Qed.




(** For the empty name the logger is the root logger, and [log_level]
    is [debug_logging]. *)
Lemma log_level_root {A} root_by_name (level : Z)
    (body : logger -> stmt state A) (s : state) :
  log_level root_by_name level "" body s
  = debug_logging level (body Root) s.
Proof. reflexivity. Qed.



End V43_logging_facts.
